(** * Wi-Fi provisioning manager example (app_main.c)

    A shallow embedding of [examples/provisioning/wifi_prov_mgr/main/app_main.c].
    The file is glue code over the ESP-IDF SDK: every function is a sequence of
    SDK calls whose results steer the control flow, and [app_main] ends in a
    loop that never exits.  Each C function is therefore an interaction tree
    whose events are the SDK (and libc) calls the function makes; the SDK
    itself is an oracle that answers each call from the history so far. *)

From Stdlib Require Import ZArith NArith List Strings.String Strings.Ascii Strings.Byte Bool Lia.
From ITree Require Import ITree ITreeFacts Props.Leaf.
Import ListNotations.
Import ITreeNotations.

Local Open Scope string_scope.
Local Open Scope list_scope.
Local Open Scope Z_scope.
Local Open Scope itree_scope.

(** ** C library functions used by the file *)

Module Libc.

(** The integer value of a C [uint8_t]. *)
Definition byte_val (b : byte) : N := Byte.to_N b.

(** One uppercase hexadecimal digit, as printed by the [X] conversion. *)
Definition hex_digit_X (d : N) : ascii :=
  if (d <? 10)%N then ascii_of_N (48 + d) else ascii_of_N (55 + d).

(** The digits of [n] in base 16, most significant first; [fuel] bounds
    the number of digits. *)
Fixpoint hex_digits (fuel : nat) (n : N) (acc : string) : string :=
  match fuel with
  | O => acc
  | S fuel' =>
      let acc' := String (hex_digit_X (n mod 16)) acc in
      if (n / 16 =? 0)%N then acc' else hex_digits fuel' (n / 16) acc'
  end.

(** Left padding with the character [c] up to [width] characters. *)
Definition pad_left (c : ascii) (width : nat) (s : string) : string :=
  (string_of_list_ascii (repeat c (width - String.length s)) ++ s)%string.

(** The conversion [%02X] of an unsigned argument: uppercase hexadecimal,
    at least two characters, padded with zeros. *)
Definition fmt_02X (n : N) : string :=
  pad_left "0"%char 2 (hex_digits (S (N.to_nat (N.size n))) n "").

(** [snprintf(buf, max, ...)] once the format has been expanded to [out]:
    at most [max - 1] characters of [out] are stored, followed by a NUL
    byte; nothing is stored when [max] is 0.  The result is the list of
    bytes stored at the start of [buf]. *)
Definition snprintf (max : nat) (out : string) : list byte :=
  match max with
  | O => []
  | S m => firstn m (list_byte_of_string out) ++ [x00]
  end.

(** [strlen] of an array of characters: the bytes before the first NUL. *)
Fixpoint strlen (s : list byte) : Z :=
  match s with
  | [] => 0
  | b :: s' => if Byte.eqb b x00 then 0 else 1 + strlen s'
  end.

(** An array initialised from a string literal: its characters and the
    terminating NUL. *)
Definition char_array (lit : string) : list byte :=
  list_byte_of_string lit ++ [x00].

(** The C string stored in an array: the bytes before the first NUL. *)
Fixpoint c_str (s : list byte) : list byte :=
  match s with
  | [] => []
  | b :: s' => if Byte.eqb b x00 then [] else b :: c_str s'
  end.

End Libc.

(** ** Constants of the SDK headers

    The values of the SDK's enumerators and macros are fixed by headers that
    are not part of the example; the embedding takes them as parameters.
    The side conditions are the ones the C language or the SDK guarantee:
    the case labels of one [switch] are pairwise distinct, distinct event-base
    objects have distinct addresses, and [ESP_ERR_NO_MEM] is an error code. *)

Definition esp_err_t := Z.
Definition esp_event_base_t := Z.

Inductive log_arg : Type :=
| arg_str (s : string)
| arg_cstr (p : list byte)
| arg_int (z : Z).

Class sdk_headers : Type := {
  (* esp_err.h, nvs.h *)
  ESP_OK : esp_err_t;
  ESP_ERR_NO_MEM : esp_err_t;
  ESP_ERR_NVS_NO_FREE_PAGES : esp_err_t;
  ESP_ERR_NVS_NEW_VERSION_FOUND : esp_err_t;
  (* event bases *)
  WIFI_PROV_EVENT : esp_event_base_t;
  WIFI_EVENT : esp_event_base_t;
  IP_EVENT : esp_event_base_t;
  PROTOCOMM_TRANSPORT_BLE_EVENT : esp_event_base_t;
  PROTOCOMM_SECURITY_SESSION_EVENT : esp_event_base_t;
  ESP_EVENT_ANY_ID : Z;
  (* wifi_provisioning/manager.h *)
  WIFI_PROV_START : Z;
  WIFI_PROV_CRED_RECV : Z;
  WIFI_PROV_CRED_FAIL : Z;
  WIFI_PROV_CRED_SUCCESS : Z;
  WIFI_PROV_END : Z;
  WIFI_PROV_STA_AUTH_ERROR : Z;
  WIFI_PROV_SECURITY_1 : Z;
  (* esp_wifi_types.h, esp_netif_types.h *)
  WIFI_EVENT_STA_START : Z;
  WIFI_EVENT_STA_DISCONNECTED : Z;
  WIFI_EVENT_SCAN_DONE : Z;
  IP_EVENT_STA_GOT_IP : Z;
  WIFI_IF_STA : Z;
  IPSTR : string;
  IP2STR : Z -> list log_arg;
  (* protocomm *)
  PROTOCOMM_TRANSPORT_BLE_CONNECTED : Z;
  PROTOCOMM_TRANSPORT_BLE_DISCONNECTED : Z;
  PROTOCOMM_SECURITY_SESSION_SETUP_OK : Z;
  PROTOCOMM_SECURITY_SESSION_INVALID_SECURITY_PARAMS : Z;
  PROTOCOMM_SECURITY_SESSION_CREDENTIALS_MISMATCH : Z;
  (* driver/gpio.h, FreeRTOS *)
  GPIO_MODE_OUTPUT : Z;
  portTICK_PERIOD_MS : Z;
  (* side conditions *)
  no_mem_is_error : ESP_ERR_NO_MEM <> ESP_OK;
  event_bases_distinct :
    NoDup [WIFI_PROV_EVENT; WIFI_EVENT; IP_EVENT;
           PROTOCOMM_TRANSPORT_BLE_EVENT; PROTOCOMM_SECURITY_SESSION_EVENT];
  wifi_prov_labels_distinct :
    NoDup [WIFI_PROV_START; WIFI_PROV_CRED_RECV; WIFI_PROV_CRED_FAIL;
           WIFI_PROV_CRED_SUCCESS; WIFI_PROV_END];
  wifi_event_labels_distinct :
    NoDup [WIFI_EVENT_STA_START; WIFI_EVENT_STA_DISCONNECTED; WIFI_EVENT_SCAN_DONE];
  ble_labels_distinct :
    NoDup [PROTOCOMM_TRANSPORT_BLE_CONNECTED; PROTOCOMM_TRANSPORT_BLE_DISCONNECTED];
  session_labels_distinct :
    NoDup [PROTOCOMM_SECURITY_SESSION_SETUP_OK;
           PROTOCOMM_SECURITY_SESSION_INVALID_SECURITY_PARAMS;
           PROTOCOMM_SECURITY_SESSION_CREDENTIALS_MISMATCH]
}.

(** ** The calls the file makes

    [call] lists every SDK or libc function the file calls, with the
    arguments of the call; [ret_type] is what the call hands back: its return
    value and, for an out-parameter, the value it leaves there. *)

Definition NULL : Z := 0.

(** The address of a function of this file, as passed to the SDK. *)
Variant fn_ptr : Type := fn_event_handler | fn_custom_prov_data_handler.

Variant esp_log_level_t : Type := ESP_LOG_ERROR | ESP_LOG_INFO.
Variant wifi_init_config_t : Type := WIFI_INIT_CONFIG_DEFAULT.
Variant wifi_prov_scheme_t : Type := wifi_prov_scheme_ble.
Variant wifi_prov_event_handler_t : Type :=
  WIFI_PROV_SCHEME_BLE_EVENT_HANDLER_FREE_BTDM.

Record wifi_prov_mgr_config_t : Type := {
  scheme : wifi_prov_scheme_t;
  scheme_event_handler : wifi_prov_event_handler_t
}.

(** [uint8_t eth_mac[6]] *)
Record mac_addr : Type := {
  mac0 : byte; mac1 : byte; mac2 : byte; mac3 : byte; mac4 : byte; mac5 : byte
}.

Inductive call : Type :=
| esp_log_write (level : esp_log_level_t) (tag fmt : string) (args : list log_arg)
| esp_error_check_failed_without_abort (rc : esp_err_t)
| nvs_flash_init
| nvs_flash_erase
| esp_netif_init
| esp_event_loop_create_default
| esp_event_handler_register (event_base : esp_event_base_t) (event_id : Z)
                             (handler : fn_ptr) (handler_arg : Z)
| esp_netif_create_default_wifi_sta
| esp_wifi_init (cfg : wifi_init_config_t)
| esp_wifi_connect
| esp_wifi_get_mac (ifx : Z)
| wifi_prov_mgr_init (config : wifi_prov_mgr_config_t)
| wifi_prov_mgr_deinit
| wifi_prov_mgr_is_provisioned
| wifi_prov_mgr_reset_sm_state_on_failure
| wifi_prov_mgr_reset_sm_state_for_reprovision
| wifi_prov_scheme_ble_set_service_uuid (uuid128 : list byte)
| wifi_prov_mgr_endpoint_create (ep_name : string)
| wifi_prov_mgr_disable_auto_stop (cleanup_delay : Z)
| wifi_prov_mgr_start_provisioning (security : Z) (sec_params : string)
                                   (service_name : list byte) (service_key : Z)
| wifi_prov_mgr_endpoint_register (ep_name : string) (handler : fn_ptr) (user_ctx : Z)
| malloc (size : Z)
| gpio_reset_pin (gpio_num : Z)
| gpio_set_direction (gpio_num mode : Z)
| gpio_set_level (gpio_num level : Z)
| vTaskDelay (ticks : Z).

Definition ret_type (c : call) : Type :=
  match c with
  | esp_log_write _ _ _ _ => unit
  | esp_error_check_failed_without_abort _ => unit
  | wifi_prov_mgr_deinit => unit
  | vTaskDelay _ => unit
  | wifi_prov_mgr_is_provisioned => (esp_err_t * bool)%type
  | esp_wifi_get_mac _ => (esp_err_t * mac_addr)%type
  | _ => Z
  end.

(** The events of a program: a call into the SDK, answered with a
    [ret_type], or the failure of an [ESP_ERROR_CHECK], which has no answer
    because [_esp_error_check_failed] does not return. *)
Variant appE : Type -> Type :=
| Call (c : call) : appE (ret_type c)
| esp_error_check_failed (rc : esp_err_t) : appE Empty_set.

Definition prog (R : Type) : Type := itree appE R.

Definition do_call (c : call) : prog (ret_type c) := ITree.trigger (Call c).

Definition abort {R} (rc : esp_err_t) : prog R :=
  v <- ITree.trigger (esp_error_check_failed rc);; match v : Empty_set with end.

(** ** Control structures of C *)

(** [switch (v) { case l: a; break; ... default: d }] where every case ends
    in [break]. *)
Fixpoint switch {A} (v : Z) (cases : list (Z * A)) (default : A) : A :=
  match cases with
  | [] => default
  | (l, a) :: cases' => if v =? l then a else switch v cases' default
  end.

(** [while (cond) body] over the variables [s] the loop changes. *)
Definition while_ {St} (cond : St -> bool) (body : St -> prog St) : St -> prog St :=
  ITree.iter (fun s => if cond s then s' <- body s;; Ret (inl s') else Ret (inr s)).

(** [!x] *)
Definition c_not (x : Z) : Z := if x =? 0 then 1 else 0.

(** An integer used as a condition. *)
Definition c_true (x : Z) : bool := negb (x =? 0).

(** A buffer of bytes behind a [uint8_t *]: where it is and what it holds;
    [None] is the null pointer. *)
Record block : Type := { addr : Z; contents : list byte }.
Definition uint8_ptr : Type := option block.

(** [strdup(s)]: a block from [malloc] of [strlen(s) + 1] bytes holding a
    copy of the string and its NUL, or the null pointer when [malloc] fails. *)
Definition strdup (s : list byte) : prog uint8_ptr :=
  p <- do_call (malloc (Libc.strlen s + 1));;
  if p =? NULL then Ret None
  else Ret (Some {| addr := p; contents := Libc.c_str s ++ [x00] |}).

(** What the handler reads behind [void *event_data], at each of the three
    types it casts the pointer to. *)
Record wifi_sta_config_t : Type := { ssid : list byte; password : list byte }.
Record event_data_t : Type := {
  as_wifi_sta_config : wifi_sta_config_t;
  as_fail_reason : Z;
  as_got_ip : Z
}.

(** ** The functions of app_main.c *)

Section AppMain.

Context `{H : sdk_headers}.

(** Modelled from the spec: the macro ESP_ERROR_CHECK of esp_err.h is not
    in the source; a value other than ESP_OK makes it abort (the erase
    path of init_esp is the one wrapped in it, the first nvs_flash_init is
    not and goes on without abort). *)
Definition ESP_ERROR_CHECK (x : prog esp_err_t) : prog unit :=
  err_rc_ <- x;;
  if err_rc_ =? ESP_OK then Ret tt else abort err_rc_.

(** Modelled from the spec: the macro ESP_ERROR_CHECK_WITHOUT_ABORT of
    esp_err.h is not in the source; a value other than ESP_OK is reported
    (one call of the SDK) and the program goes on with that value. *)
Definition ESP_ERROR_CHECK_WITHOUT_ABORT (x : prog esp_err_t) : prog esp_err_t :=
  err_rc_ <- x;;
  if err_rc_ =? ESP_OK then Ret err_rc_
  else do_call (esp_error_check_failed_without_abort err_rc_);; Ret err_rc_.

(** Modelled from the spec: the logging macros of esp_log.h are not in
    the source; each is one call of the SDK's log writer at its level, with
    the tag, the format and the arguments of the source line. *)
Definition ESP_LOGI (tag fmt : string) (args : list log_arg) : prog unit :=
  do_call (esp_log_write ESP_LOG_INFO tag fmt args).

Definition ESP_LOGE (tag fmt : string) (args : list log_arg) : prog unit :=
  do_call (esp_log_write ESP_LOG_ERROR tag fmt args).

Definition TAG : string := "app".

Definition skip : prog unit := Ret tt.

(** Event handler for catching system events.  The two formats that span
    lines hold the line feed and the tab that the C literals write as
    escapes. *)
Definition event_handler (arg : Z) (event_base : esp_event_base_t)
           (event_id : Z) (event_data : event_data_t) : prog unit :=
  if event_base =? WIFI_PROV_EVENT then
    switch event_id
      [ (WIFI_PROV_START,
          ESP_LOGI TAG "Provisioning started" []);
        (WIFI_PROV_CRED_RECV,
          let wifi_sta_cfg := as_wifi_sta_config event_data in
          ESP_LOGI TAG
            "Received Wi-Fi credentials
	SSID     : %s
	Password : %s"
            [arg_cstr (ssid wifi_sta_cfg); arg_cstr (password wifi_sta_cfg)]);
        (WIFI_PROV_CRED_FAIL,
          let reason := as_fail_reason event_data in
          ESP_LOGE TAG
            "Provisioning failed!
	Reason : %s
	Please reset to factory and retry provisioning"
            [arg_str (if reason =? WIFI_PROV_STA_AUTH_ERROR
                      then "Wi-Fi station authentication failed"
                      else "Wi-Fi access-point not found")];;
          ESP_LOGI TAG
            "Failed to connect with provisioned AP, reseting provisioned credentials" [];;
          do_call wifi_prov_mgr_reset_sm_state_on_failure;;
          skip);
        (WIFI_PROV_CRED_SUCCESS,
          ESP_LOGI TAG "Provisioning successful" [];;
          do_call wifi_prov_mgr_reset_sm_state_for_reprovision;;
          skip);
        (WIFI_PROV_END,
          ESP_LOGI TAG "Provisioning ENDED" [];;
          (* De-initialize manager once provisioning is finished *)
          do_call wifi_prov_mgr_deinit)
      ] skip
  else if event_base =? WIFI_EVENT then
    switch event_id
      [ (WIFI_EVENT_STA_START,
          ESP_LOGI TAG "WiFi Started in STA mode" [];;
          (* Check if app is provisioned; the answer carries the return
             value and what the call leaves in [provisioned] *)
          r <- do_call wifi_prov_mgr_is_provisioned;;
          ESP_ERROR_CHECK (Ret (fst r));;
          let provisioned := snd r in
          if provisioned then
            ESP_LOGI TAG "WiFi credentials are present, so attempt to connect" [];;
            ESP_ERROR_CHECK_WITHOUT_ABORT (do_call esp_wifi_connect);;
            skip
          else skip);
        (WIFI_EVENT_STA_DISCONNECTED,
          ESP_LOGI TAG "Disconnected" []);
        (WIFI_EVENT_SCAN_DONE,
          ESP_LOGI TAG "WiFi Scan Complete" [])
      ] skip
  else if (event_base =? IP_EVENT) && (event_id =? IP_EVENT_STA_GOT_IP) then
    let event := as_got_ip event_data in
    ESP_LOGI TAG ("Connected with IP Address:" ++ IPSTR)%string (IP2STR event)
  else if event_base =? PROTOCOMM_TRANSPORT_BLE_EVENT then
    switch event_id
      [ (PROTOCOMM_TRANSPORT_BLE_CONNECTED,
          ESP_LOGI TAG "BLE transport: Connected!" []);
        (PROTOCOMM_TRANSPORT_BLE_DISCONNECTED,
          ESP_LOGI TAG "BLE transport: Disconnected!" [])
      ] skip
  else if event_base =? PROTOCOMM_SECURITY_SESSION_EVENT then
    switch event_id
      [ (PROTOCOMM_SECURITY_SESSION_SETUP_OK,
          ESP_LOGI TAG "Secured session established!" []);
        (PROTOCOMM_SECURITY_SESSION_INVALID_SECURITY_PARAMS,
          ESP_LOGE TAG
            "Received invalid security parameters for establishing secure session!" []);
        (PROTOCOMM_SECURITY_SESSION_CREDENTIALS_MISMATCH,
          ESP_LOGE TAG
            "Received incorrect username and/or PoP for establishing secure session!" [])
      ] skip
  else skip.

Definition get_device_service_name (max : nat) : prog (list byte) :=
  let ssid_prefix := "Kaivac_" in
  r <- do_call (esp_wifi_get_mac WIFI_IF_STA);;
  let eth_mac := snd r in
  Ret (Libc.snprintf max
         (ssid_prefix
          ++ Libc.fmt_02X (Libc.byte_val (mac3 eth_mac)) ++ "_"
          ++ Libc.fmt_02X (Libc.byte_val (mac4 eth_mac)) ++ "_"
          ++ Libc.fmt_02X (Libc.byte_val (mac5 eth_mac)))%string).

(** What a call of the endpoint handler leaves behind: its return value
    and the contents of [*outbuf] and [*outlen]. *)
Record handler_result : Type := {
  ret : esp_err_t;
  outbuf : uint8_ptr;
  outlen : Z
}.

(** Handler for the optional provisioning endpoint registered by the
    application.  [outbuf0] and [outlen0] are what [*outbuf] and [*outlen]
    hold on entry. *)
Definition custom_prov_data_handler (session_id : Z) (inbuf : uint8_ptr) (inlen : Z)
           (outbuf0 : uint8_ptr) (outlen0 : Z) (priv_data : Z) : prog handler_result :=
  match inbuf with
  | Some b => ESP_LOGI TAG "Received data: %.*s" [arg_int inlen; arg_cstr (contents b)]
  | None => skip
  end;;
  let response := Libc.char_array "SUCCESS" in
  p <- strdup response;;
  match p with
  | None =>
      ESP_LOGE TAG "System out of memory" [];;
      Ret {| ret := ESP_ERR_NO_MEM; outbuf := None; outlen := outlen0 |}
  | Some _ =>
      (* +1 for NULL terminating byte *)
      Ret {| ret := ESP_OK; outbuf := p; outlen := Libc.strlen response + 1 |}
  end.

Definition init_esp : prog unit :=
  (* Initialize NVS partition *)
  ret <- do_call nvs_flash_init;;
  (if (ret =? ESP_ERR_NVS_NO_FREE_PAGES) || (ret =? ESP_ERR_NVS_NEW_VERSION_FOUND) then
     (* NVS partition was truncated and needs to be erased *)
     ESP_ERROR_CHECK (do_call nvs_flash_erase);;
     (* Retry nvs_flash_init *)
     ESP_ERROR_CHECK (do_call nvs_flash_init)
   else skip);;
  (* Initialize TCP/IP *)
  ESP_ERROR_CHECK (do_call esp_netif_init);;
  (* Initialize the event loop *)
  ESP_ERROR_CHECK (do_call esp_event_loop_create_default);;
  (* Register our event handler for Wi-Fi, IP and Provisioning related events *)
  ESP_ERROR_CHECK (do_call (esp_event_handler_register
                              WIFI_PROV_EVENT ESP_EVENT_ANY_ID fn_event_handler NULL));;
  ESP_ERROR_CHECK (do_call (esp_event_handler_register
                              PROTOCOMM_TRANSPORT_BLE_EVENT ESP_EVENT_ANY_ID fn_event_handler NULL));;
  ESP_ERROR_CHECK (do_call (esp_event_handler_register
                              PROTOCOMM_SECURITY_SESSION_EVENT ESP_EVENT_ANY_ID fn_event_handler NULL));;
  ESP_ERROR_CHECK (do_call (esp_event_handler_register
                              WIFI_EVENT ESP_EVENT_ANY_ID fn_event_handler NULL));;
  ESP_ERROR_CHECK (do_call (esp_event_handler_register
                              IP_EVENT IP_EVENT_STA_GOT_IP fn_event_handler NULL));;
  (* Initialize Wi-Fi including netif with default config *)
  do_call esp_netif_create_default_wifi_sta;;
  let cfg := WIFI_INIT_CONFIG_DEFAULT in
  ESP_ERROR_CHECK (do_call (esp_wifi_init cfg)).

Definition custom_service_uuid : list byte :=
  [ xb4; xdf; x5a; x1c; x3f; x6b; xf4; xbf;
    xea; x4a; x82; x03; x04; x90; x1a; x02 ].

Definition init_prov : prog unit :=
  (* Configuration for the provisioning manager *)
  let config := {| scheme := wifi_prov_scheme_ble;
                   scheme_event_handler := WIFI_PROV_SCHEME_BLE_EVENT_HANDLER_FREE_BTDM |} in
  ESP_ERROR_CHECK (do_call (wifi_prov_mgr_init config));;
  (* Determine BLE device name: char service_name[16] *)
  service_name <- get_device_service_name 16;;
  let security := WIFI_PROV_SECURITY_1 in
  let pop := "abcd1234" in
  let sec_params := pop in
  let service_key := NULL in
  ESP_ERROR_CHECK (do_call (wifi_prov_scheme_ble_set_service_uuid custom_service_uuid));;
  ESP_ERROR_CHECK (do_call (wifi_prov_mgr_endpoint_create "custom-data"));;
  ESP_ERROR_CHECK (do_call (wifi_prov_mgr_disable_auto_stop 1000));;
  ESP_ERROR_CHECK (do_call (wifi_prov_mgr_start_provisioning
                              security sec_params service_name service_key));;
  do_call (wifi_prov_mgr_endpoint_register "custom-data" fn_custom_prov_data_handler NULL);;
  skip.

(** One pass of [for (int i = 0; i < interval; i++)]: the loop changes
    [i] and the static [led_state]. *)
Definition blink_body (led_gpio led_delay_ms : Z) (s : Z * Z) : prog (Z * Z) :=
  let '(i, led_state) := s in
  do_call (gpio_set_level led_gpio led_state);;
  let led_state := c_not led_state in
  do_call (vTaskDelay (Z.quot led_delay_ms portTICK_PERIOD_MS));;
  Ret (i + 1, led_state).

(** One pass of [while (1)]. *)
Definition heartbeat_body (led_gpio led_delay_ms interval : Z) (led_state : Z) : prog Z :=
  ESP_LOGI TAG "===== ===== ===== < App Heartbeat > ===== ===== =====" [];;
  s <- while_ (fun s => fst s <? interval) (blink_body led_gpio led_delay_ms) (0, led_state);;
  Ret (snd s).

Definition app_main : prog unit :=
  init_esp;;
  init_prov;;
  let app_heartbeat_delay_ms := 5000 in
  let led_state := 0 in
  let led_gpio := 5 in
  do_call (gpio_reset_pin led_gpio);;
  do_call (gpio_set_direction led_gpio GPIO_MODE_OUTPUT);;
  let led_delay_ms := 1000 in
  let interval := Z.quot app_heartbeat_delay_ms led_delay_ms in
  while_ (fun _ => c_true 1) (heartbeat_body led_gpio led_delay_ms interval) led_state;;
  Ret tt.

End AppMain.

(** ** Running a program against the SDK

    The SDK is an oracle: given the calls answered so far, it answers the
    next one.  [run] executes a program for at most [fuel] steps and yields
    how it ended, the history of calls with their answers in the order they
    were made, and the fuel left. *)

Definition entry : Type := { c : call & ret_type c }.
Definition history : Type := list entry.
Definition sdk_t : Type := history -> forall c : call, ret_type c.

Definition answered (c : call) (r : ret_type c) : entry := existT ret_type c r.
Definition calls (h : history) : list call := List.map (@projT1 call ret_type) h.

Variant outcome (R : Type) : Type :=
| Returned (r : R)
| Aborted (rc : esp_err_t)
| Running.
Arguments Returned {R} r.
Arguments Aborted {R} rc.
Arguments Running {R}.

Definition result (R : Type) : Type := (outcome R * history * nat)%type.

Fixpoint run {R} (fuel : nat) (sdk : sdk_t) (t : prog R) (h : history) {struct fuel}
  : result R :=
  match observe t with
  | RetF r => (Returned r, h, fuel)
  | TauF t' =>
      match fuel with
      | O => (Running, h, O)
      | S fuel' => run fuel' sdk t' h
      end
  | VisF e k =>
      match fuel with
      | O => (Running, h, O)
      | S fuel' =>
          match e in appE T return (T -> prog R) -> result R with
          | Call c => fun k => run fuel' sdk (k (sdk h c)) (h ++ [answered c (sdk h c)])
          | esp_error_check_failed rc => fun _ => (Aborted rc, h, fuel')
          end k
      end
  end.

Definition outcome_of {R} (x : result R) : outcome R := fst (fst x).
Definition history_of {R} (x : result R) : history := snd (fst x).

(** A program after the one before it has ended. *)
Definition and_then {R U} (x : result R) (k : R -> nat -> history -> result U) : result U :=
  match x with
  | (Returned r, h, fuel) => k r fuel h
  | (Aborted rc, h, fuel) => (Aborted rc, h, fuel)
  | (Running, h, fuel) => (Running, h, fuel)
  end.

(** One set of header values, for running the programs on concrete
    inputs.  The error codes are those of esp_err.h and nvs.h; an event
    base is the address of a string in the firmware image, so the five
    bases are given five distinct addresses; no theorem on all headers
    depends on any of these values. *)
#[refine] Instance esp_idf : sdk_headers := {|
  ESP_OK := 0;
  ESP_ERR_NO_MEM := 0x101;
  ESP_ERR_NVS_NO_FREE_PAGES := 0x110d;
  ESP_ERR_NVS_NEW_VERSION_FOUND := 0x1110;
  WIFI_PROV_EVENT := 0x3f400010;
  WIFI_EVENT := 0x3f400020;
  IP_EVENT := 0x3f400030;
  PROTOCOMM_TRANSPORT_BLE_EVENT := 0x3f400040;
  PROTOCOMM_SECURITY_SESSION_EVENT := 0x3f400050;
  ESP_EVENT_ANY_ID := -1;
  WIFI_PROV_START := 1;
  WIFI_PROV_CRED_RECV := 2;
  WIFI_PROV_CRED_FAIL := 3;
  WIFI_PROV_CRED_SUCCESS := 4;
  WIFI_PROV_END := 5;
  WIFI_PROV_STA_AUTH_ERROR := 0;
  WIFI_PROV_SECURITY_1 := 1;
  WIFI_EVENT_STA_START := 2;
  WIFI_EVENT_STA_DISCONNECTED := 5;
  WIFI_EVENT_SCAN_DONE := 1;
  IP_EVENT_STA_GOT_IP := 0;
  WIFI_IF_STA := 0;
  IPSTR := "%d.%d.%d.%d";
  IP2STR := fun ip => [arg_int (Z.land ip 255);
                       arg_int (Z.land (Z.shiftr ip 8) 255);
                       arg_int (Z.land (Z.shiftr ip 16) 255);
                       arg_int (Z.land (Z.shiftr ip 24) 255)];
  PROTOCOMM_TRANSPORT_BLE_CONNECTED := 0;
  PROTOCOMM_TRANSPORT_BLE_DISCONNECTED := 1;
  PROTOCOMM_SECURITY_SESSION_SETUP_OK := 0;
  PROTOCOMM_SECURITY_SESSION_INVALID_SECURITY_PARAMS := 1;
  PROTOCOMM_SECURITY_SESSION_CREDENTIALS_MISMATCH := 2;
  GPIO_MODE_OUTPUT := 2;
  portTICK_PERIOD_MS := 10
|}.
Proof.
  - discriminate.
  - repeat constructor; cbn; intuition discriminate.
  - repeat constructor; cbn; intuition discriminate.
  - repeat constructor; cbn; intuition discriminate.
  - repeat constructor; cbn; intuition discriminate.
  - repeat constructor; cbn; intuition discriminate.
Defined.

Section Oracles.

Context `{H : sdk_headers}.

(** An SDK in which every call succeeds: the station is provisioned, the
    MAC address is 24:0A:C4:0A:FF:3C and [malloc] hands out one address. *)
Definition sdk_ok : sdk_t := fun _ c =>
  match c return ret_type c with
  | esp_log_write _ _ _ _ => tt
  | esp_error_check_failed_without_abort _ => tt
  | wifi_prov_mgr_deinit => tt
  | vTaskDelay _ => tt
  | wifi_prov_mgr_is_provisioned => (ESP_OK, true)
  | esp_wifi_get_mac _ =>
      (ESP_OK,
       {| mac0 := x24; mac1 := x0a; mac2 := xc4; mac3 := x0a; mac4 := xff; mac5 := x3c |})
  | malloc _ => 0x3ffb0000
  | esp_netif_create_default_wifi_sta => 0x3ffc0000
  | _ => ESP_OK
  end.

(** The same SDK when [malloc] hands out another address. *)
Definition sdk_second_block : sdk_t := fun h c =>
  match c return ret_type c with
  | malloc _ => 0x3ffb0040
  | c' => sdk_ok h c'
  end.

(** The same SDK when [malloc] has no memory left. *)
Definition sdk_no_mem : sdk_t := fun h c =>
  match c return ret_type c with
  | malloc _ => NULL
  | c' => sdk_ok h c'
  end.

(** An SDK whose NVS partition has no free pages until it is erased. *)
Definition sdk_nvs_full : sdk_t := fun h c =>
  match c return ret_type c with
  | nvs_flash_init =>
      if existsb (fun c' => match c' with nvs_flash_erase => true | _ => false end) (calls h)
      then ESP_OK else ESP_ERR_NVS_NO_FREE_PAGES
  | c' => sdk_ok h c'
  end.


(** An event with nothing behind [event_data]. *)
Definition no_event_data : event_data_t :=
  {| as_wifi_sta_config := {| ssid := []; password := [] |};
     as_fail_reason := 0;
     as_got_ip := 0 |}.

End Oracles.

(** ** Properties of runs

    Classes of calls, the lists of calls a run is compared with, and the
    predicates on histories and programs that the theorems state. *)

(** [maintains sdk P t h Post]: started after the history [h], the program
    [t] keeps [P] true of the history however long it runs, and when it
    returns [Post] holds of its result and of the history then. *)
Definition maintains (sdk : sdk_t) {R} (P : history -> Prop) (t : prog R) (h : history)
           (Post : R -> history -> Prop) : Prop :=
  forall fuel : nat,
    match run fuel sdk t h with
    | (Returned r, h', _) => P h' /\ Post r h'
    | (_, h', _) => P h'
    end.

(** [emits Q t]: every call [t] makes satisfies [Q], under every SDK. *)
Definition emits {R} (Q : call -> bool) (t : prog R) : Prop :=
  forall (sdk : sdk_t) (fuel : nat) (h : history),
  exists l, history_of (run fuel sdk t h) = h ++ l /\ forallb Q (calls l) = true.

(** The blocks a history has asked [malloc] for: the size of each request
    and the address that answered it. *)
Definition allocation (e : entry) : option (Z * Z) :=
  match e with
  | existT _ c r =>
      match c return ret_type c -> option (Z * Z) with
      | malloc size => fun p => Some (size, p)
      | _ => fun _ => None
      end r
  end.

Fixpoint allocations (h : history) : list (Z * Z) :=
  match h with
  | [] => []
  | e :: h' =>
      match allocation e with
      | Some a => a :: allocations h'
      | None => allocations h'
      end
  end.

(** The bytes of the reply of the custom endpoint: the text and its NUL. *)
Definition SUCCESS_bytes : list byte := [x53; x55; x43; x43; x45; x53; x53; x00].

(** The sixteen hexadecimal digits, uppercase. *)
Definition upper_hex : string := "0123456789ABCDEF".

Definition hex_char (d : nat) : ascii :=
  match String.get d upper_hex with
  | Some c => c
  | None => "?"%char
  end.

(** The two hexadecimal digits of a byte: the high nibble, then the low. *)
Definition hex_pair (b : byte) : string :=
  let n := N.to_nat (Byte.to_N b) in
  String (hex_char (n / 16)) (String (hex_char (n mod 16)) "").

(** The name derived from the last three bytes of a MAC address. *)
Definition service_name_of (m : mac_addr) : string :=
  ("Kaivac_" ++ hex_pair (mac3 m) ++ "_" ++ hex_pair (mac4 m) ++ "_" ++ hex_pair (mac5 m))%string.

Definition is_nvs_call (c : call) : bool :=
  match c with
  | nvs_flash_init | nvs_flash_erase => true
  | _ => false
  end.

Definition is_start_provisioning (c : call) : bool :=
  match c with
  | wifi_prov_mgr_start_provisioning _ _ _ _ => true
  | _ => false
  end.

(** How many times a list of calls starts the provisioning. *)
Definition count_start_provisioning (l : list call) : nat :=
  List.length (filter is_start_provisioning l).

Definition is_log (c : call) : bool :=
  match c with
  | esp_log_write _ _ _ _ => true
  | esp_error_check_failed_without_abort _ => true
  | _ => false
  end.

(** The three calls into the provisioning manager that the specification
    names. *)
Definition named_in_spec (c : call) : bool :=
  match c with
  | wifi_prov_mgr_start_provisioning _ _ _ _ => true
  | wifi_prov_mgr_reset_sm_state_on_failure => true
  | wifi_prov_mgr_deinit => true
  | _ => false
  end.

(** The calls [event_handler] makes besides logging. *)
Definition event_handler_sdk_call (c : call) : bool :=
  match c with
  | wifi_prov_mgr_reset_sm_state_on_failure => true
  | wifi_prov_mgr_reset_sm_state_for_reprovision => true
  | wifi_prov_mgr_deinit => true
  | wifi_prov_mgr_is_provisioned => true
  | esp_wifi_connect => true
  | _ => false
  end.

(** The calls [app_main] makes before the heartbeat loop. *)
Definition startup_sdk_call (c : call) : bool :=
  match c with
  | nvs_flash_init | nvs_flash_erase => true
  | esp_netif_init | esp_event_loop_create_default => true
  | esp_event_handler_register _ _ _ _ => true
  | esp_netif_create_default_wifi_sta | esp_wifi_init _ => true
  | wifi_prov_mgr_init _ | esp_wifi_get_mac _ => true
  | wifi_prov_scheme_ble_set_service_uuid _ => true
  | wifi_prov_mgr_endpoint_create _ | wifi_prov_mgr_disable_auto_stop _ => true
  | wifi_prov_mgr_start_provisioning _ _ _ _ => true
  | wifi_prov_mgr_endpoint_register _ _ _ => true
  | gpio_reset_pin _ | gpio_set_direction _ _ => true
  | _ => false
  end.

(** The calls of the heartbeat loop besides logging. *)
Definition heartbeat_sdk_call (c : call) : bool :=
  match c with
  | gpio_set_level _ _ | vTaskDelay _ => true
  | _ => false
  end.

Definition is_malloc (c : call) : bool :=
  match c with
  | malloc _ => true
  | _ => false
  end.

(** A registration names [event_handler] as the callback; other calls
    register nothing. *)
Definition registers_event_handler (c : call) : bool :=
  match c with
  | esp_event_handler_register _ _ fn_event_handler _ => true
  | esp_event_handler_register _ _ _ _ => false
  | _ => true
  end.

(** The event bases a list of calls registers a callback for, in order. *)
Definition registered_bases (l : list call) : list esp_event_base_t :=
  flat_map (fun c => match c with
                     | esp_event_handler_register event_base _ _ _ => [event_base]
                     | _ => []
                     end) l.

(** The calls made inside the heartbeat loop. *)
Definition in_heartbeat_loop (c : call) : bool :=
  match c with
  | esp_log_write _ _ _ _ => true
  | gpio_set_level _ _ => true
  | vTaskDelay _ => true
  | _ => false
  end.

Definition is_heartbeat_log (c : call) : bool :=
  match c with
  | esp_log_write ESP_LOG_INFO _ fmt _ =>
      String.eqb fmt "===== ===== ===== < App Heartbeat > ===== ===== ====="
  | _ => false
  end.

(** The pin and level of each [gpio_set_level] of a list of calls, in
    order. *)
Definition gpio_writes (l : list call) : list (Z * Z) :=
  flat_map (fun c => match c with
                     | gpio_set_level gpio_num level => [(gpio_num, level)]
                     | _ => []
                     end) l.

Definition is_gpio_set_level (c : call) : bool :=
  match c with
  | gpio_set_level _ _ => true
  | _ => false
  end.

(** [n] writes to GPIO 5 whose levels alternate, starting with 0. *)
Definition blinking (n : nat) : list (Z * Z) :=
  List.map (fun k => (5, Z.of_nat k mod 2)) (seq 0 n).



Definition count_heartbeats (l : list call) : nat :=
  List.length (filter is_heartbeat_log l).

Section Traces.

Context `{H : sdk_headers}.

(** The statements of [init_esp] after the NVS partition is initialised. *)
Definition init_esp_after_nvs : prog unit :=
  ESP_ERROR_CHECK (do_call esp_netif_init);;
  ESP_ERROR_CHECK (do_call esp_event_loop_create_default);;
  ESP_ERROR_CHECK (do_call (esp_event_handler_register
                              WIFI_PROV_EVENT ESP_EVENT_ANY_ID fn_event_handler NULL));;
  ESP_ERROR_CHECK (do_call (esp_event_handler_register
                              PROTOCOMM_TRANSPORT_BLE_EVENT ESP_EVENT_ANY_ID fn_event_handler NULL));;
  ESP_ERROR_CHECK (do_call (esp_event_handler_register
                              PROTOCOMM_SECURITY_SESSION_EVENT ESP_EVENT_ANY_ID fn_event_handler NULL));;
  ESP_ERROR_CHECK (do_call (esp_event_handler_register
                              WIFI_EVENT ESP_EVENT_ANY_ID fn_event_handler NULL));;
  ESP_ERROR_CHECK (do_call (esp_event_handler_register
                              IP_EVENT IP_EVENT_STA_GOT_IP fn_event_handler NULL));;
  do_call esp_netif_create_default_wifi_sta;;
  let cfg := WIFI_INIT_CONFIG_DEFAULT in
  ESP_ERROR_CHECK (do_call (esp_wifi_init cfg)).

(** The calls of [init_esp_after_nvs] when none of its checks fails. *)
Definition init_esp_after_nvs_calls : list call :=
  [ esp_netif_init;
    esp_event_loop_create_default;
    esp_event_handler_register WIFI_PROV_EVENT ESP_EVENT_ANY_ID fn_event_handler NULL;
    esp_event_handler_register PROTOCOMM_TRANSPORT_BLE_EVENT ESP_EVENT_ANY_ID fn_event_handler NULL;
    esp_event_handler_register PROTOCOMM_SECURITY_SESSION_EVENT ESP_EVENT_ANY_ID fn_event_handler NULL;
    esp_event_handler_register WIFI_EVENT ESP_EVENT_ANY_ID fn_event_handler NULL;
    esp_event_handler_register IP_EVENT IP_EVENT_STA_GOT_IP fn_event_handler NULL;
    esp_netif_create_default_wifi_sta;
    esp_wifi_init WIFI_INIT_CONFIG_DEFAULT ].

(** The calls of [init_esp] when none of its checks fails; [erase] tells
    whether the NVS partition had to be erased. *)
Definition init_esp_calls (erase : bool) : list call :=
  nvs_flash_init
    :: (if erase then [nvs_flash_erase; nvs_flash_init] else [])
    ++ init_esp_after_nvs_calls.

(** The calls of [init_prov] when none of its checks fails; [service_name]
    is what [get_device_service_name] left in the buffer. *)
Definition init_prov_calls (service_name : list byte) : list call :=
  [ wifi_prov_mgr_init {| scheme := wifi_prov_scheme_ble;
                          scheme_event_handler := WIFI_PROV_SCHEME_BLE_EVENT_HANDLER_FREE_BTDM |};
    esp_wifi_get_mac WIFI_IF_STA;
    wifi_prov_scheme_ble_set_service_uuid custom_service_uuid;
    wifi_prov_mgr_endpoint_create "custom-data";
    wifi_prov_mgr_disable_auto_stop 1000;
    wifi_prov_mgr_start_provisioning WIFI_PROV_SECURITY_1 "abcd1234" service_name NULL;
    wifi_prov_mgr_endpoint_register "custom-data" fn_custom_prov_data_handler NULL ].

(** The event bases [event_handler] tells apart. *)
Definition handled_bases : list esp_event_base_t :=
  [WIFI_PROV_EVENT; WIFI_EVENT; IP_EVENT;
   PROTOCOMM_TRANSPORT_BLE_EVENT; PROTOCOMM_SECURITY_SESSION_EVENT].

(** The handler reacts to a base when some event of that base makes it
    call something. *)
Definition reacts (event_base : esp_event_base_t) : Prop :=
  exists (arg event_id : Z) (event_data : event_data_t) (sdk : sdk_t) (fuel : nat),
    calls (history_of (run fuel sdk (event_handler arg event_base event_id event_data) []))
    <> [].

(** The calls before the heartbeat loop when no check fails. *)
Definition startup_calls (erase : bool) (service_name : list byte) : list call :=
  init_esp_calls erase ++ init_prov_calls service_name
    ++ [gpio_reset_pin 5; gpio_set_direction 5 GPIO_MODE_OUTPUT].

(** A list of calls starts with the whole of [init_esp] and then the
    whole of [init_prov]. *)
Definition initialised (l : list call) : Prop :=
  exists erase service_name rest,
    l = init_esp_calls erase ++ init_prov_calls service_name ++ rest.

(** Every call of the heartbeat loop comes after the whole start-up. *)
Definition loop_after_init (h : history) : Prop :=
  forall l1 c l2,
    calls h = l1 ++ c :: l2 -> in_heartbeat_loop c = true -> initialised l1.

End Traces.

(** ** Error codes, events and the LED in a history *)

(** The error code in the answer of a call, for the calls that return an
    [esp_err_t]. *)
Definition esp_err_of (e : entry) : option esp_err_t :=
  match e with
  | existT _ c r =>
      match c return ret_type c -> option esp_err_t with
      | esp_log_write _ _ _ _ => fun _ => None
      | esp_error_check_failed_without_abort _ => fun _ => None
      | wifi_prov_mgr_deinit => fun _ => None
      | vTaskDelay _ => fun _ => None
      | esp_netif_create_default_wifi_sta => fun _ => None
      | malloc _ => fun _ => None
      | wifi_prov_mgr_is_provisioned => fun r => Some (fst r)
      | esp_wifi_get_mac _ => fun r => Some (fst r)
      | _ => fun r => Some r
      end r
  end.

(** The calls whose result the file passes to ESP_ERROR_CHECK somewhere. *)
Definition is_checked (c : call) : bool :=
  match c with
  | nvs_flash_init | nvs_flash_erase => true
  | esp_netif_init | esp_event_loop_create_default => true
  | esp_event_handler_register _ _ _ _ => true
  | esp_wifi_init _ => true
  | wifi_prov_mgr_init _ => true
  | wifi_prov_scheme_ble_set_service_uuid _ => true
  | wifi_prov_mgr_endpoint_create _ | wifi_prov_mgr_disable_auto_stop _ => true
  | wifi_prov_mgr_start_provisioning _ _ _ _ => true
  | wifi_prov_mgr_is_provisioned => true
  | _ => false
  end.

Definition is_gpio_call (c : call) : bool :=
  match c with
  | gpio_reset_pin _ | gpio_set_direction _ _ | gpio_set_level _ _ => true
  | _ => false
  end.

Section Aborts.

Context `{H : sdk_headers}.

(** The entry [e] is a checked call that answered the error [rc]. *)
Definition failed_check (rc : esp_err_t) (e : entry) : Prop :=
  is_checked (projT1 e) = true /\ esp_err_of e = Some rc /\ rc <> ESP_OK.

(** An entry that answered ESP_OK, or has no error code. *)
Definition answered_ok (e : entry) : bool :=
  match esp_err_of e with
  | Some rc => rc =? ESP_OK
  | None => true
  end.

(** An entry that is no obstacle: its call is not one of the checked
    ones, or it answered ESP_OK. *)
Definition passed (e : entry) : bool :=
  negb (is_checked (projT1 e)) || answered_ok e.

(** What a run that stops at the first failed check has done after the
    calls [l]: when it was aborted, the last call is a checked one that
    failed, the abort carries its error code, and the calls before it
    passed; when it returned, all calls passed. *)
Definition stopped_at_first_failure {R} (o : outcome R) (l : history) : Prop :=
  match o with
  | Aborted rc =>
      exists l0 e, l = l0 ++ [e] /\ failed_check rc e /\ forallb passed l0 = true
  | Returned _ => forallb passed l = true
  | Running => True
  end.

Definition stops_at_first_failure {R} (t : prog R) : Prop :=
  forall (sdk : sdk_t) (fuel : nat) (h : history),
  exists l,
    history_of (run fuel sdk t h) = h ++ l
    /\ stopped_at_first_failure (outcome_of (run fuel sdk t h)) l.

End Aborts.

(** An SDK in which [esp_netif_init] fails with ESP_ERR_INVALID_STATE. *)
Definition sdk_netif_fails : sdk_t := fun h c =>
  match c return ret_type c with
  | esp_netif_init => 0x103
  | c' => sdk_ok (H := esp_idf) h c'
  end.

Definition is_log_write (c : call) : bool :=
  match c with
  | esp_log_write _ _ _ _ => true
  | _ => false
  end.

Definition is_error_log (c : call) : bool :=
  match c with
  | esp_log_write ESP_LOG_ERROR _ _ _ => true
  | _ => false
  end.

Section Events.

Context `{H : sdk_headers}.

(** The events [event_handler] has a case for: a base and an id. *)
Definition handled_events : list (esp_event_base_t * Z) :=
  [ (WIFI_PROV_EVENT, WIFI_PROV_START);
    (WIFI_PROV_EVENT, WIFI_PROV_CRED_RECV);
    (WIFI_PROV_EVENT, WIFI_PROV_CRED_FAIL);
    (WIFI_PROV_EVENT, WIFI_PROV_CRED_SUCCESS);
    (WIFI_PROV_EVENT, WIFI_PROV_END);
    (WIFI_EVENT, WIFI_EVENT_STA_START);
    (WIFI_EVENT, WIFI_EVENT_STA_DISCONNECTED);
    (WIFI_EVENT, WIFI_EVENT_SCAN_DONE);
    (IP_EVENT, IP_EVENT_STA_GOT_IP);
    (PROTOCOMM_TRANSPORT_BLE_EVENT, PROTOCOMM_TRANSPORT_BLE_CONNECTED);
    (PROTOCOMM_TRANSPORT_BLE_EVENT, PROTOCOMM_TRANSPORT_BLE_DISCONNECTED);
    (PROTOCOMM_SECURITY_SESSION_EVENT, PROTOCOMM_SECURITY_SESSION_SETUP_OK);
    (PROTOCOMM_SECURITY_SESSION_EVENT, PROTOCOMM_SECURITY_SESSION_INVALID_SECURITY_PARAMS);
    (PROTOCOMM_SECURITY_SESSION_EVENT, PROTOCOMM_SECURITY_SESSION_CREDENTIALS_MISMATCH) ].

(** The events the handler logs at the error level. *)
Definition error_events : list (esp_event_base_t * Z) :=
  [ (WIFI_PROV_EVENT, WIFI_PROV_CRED_FAIL);
    (PROTOCOMM_SECURITY_SESSION_EVENT, PROTOCOMM_SECURITY_SESSION_INVALID_SECURITY_PARAMS);
    (PROTOCOMM_SECURITY_SESSION_EVENT, PROTOCOMM_SECURITY_SESSION_CREDENTIALS_MISMATCH) ].

(** The events for which the handler looks behind [event_data]. *)
Definition reads_event_data (event_base : esp_event_base_t) (event_id : Z) : bool :=
  ((event_base =? WIFI_PROV_EVENT)
   && ((event_id =? WIFI_PROV_CRED_RECV) || (event_id =? WIFI_PROV_CRED_FAIL)))
  || ((event_base =? IP_EVENT) && (event_id =? IP_EVENT_STA_GOT_IP)).

End Events.

(** An SDK in which the provisioning manager cannot tell whether the
    device is provisioned. *)
Definition sdk_manager_fails : sdk_t := fun h c =>
  match c return ret_type c with
  | wifi_prov_mgr_is_provisioned => (0x103, false)
  | c' => sdk_ok (H := esp_idf) h c'
  end.

(** An SDK in which [esp_wifi_connect] fails with ESP_ERR_WIFI_NOT_STARTED. *)
Definition sdk_connect_fails : sdk_t := fun h c =>
  match c return ret_type c with
  | esp_wifi_connect => 0x3002
  | c' => sdk_ok (H := esp_idf) h c'
  end.

(** The registrations a list of calls makes: base, id and callback. *)
Definition registrations (l : list call) : list (esp_event_base_t * Z * fn_ptr) :=
  flat_map (fun c => match c with
                     | esp_event_handler_register event_base event_id handler _ =>
                         [(event_base, event_id, handler)]
                     | _ => []
                     end) l.

(** The ticks of each [vTaskDelay] of a list of calls, in order. *)
Definition delays (l : list call) : list Z :=
  flat_map (fun c => match c with
                     | vTaskDelay ticks => [ticks]
                     | _ => []
                     end) l.

Section InStep.

Context `{H : sdk_headers}.

(** What a history has done to the LED and the log: [writes] levels
    written, [beats] heartbeat lines, [sleeps] delays of one blink each. *)
Definition tally (h : history) (writes beats sleeps : nat) : Prop :=
  List.length (gpio_writes (calls h)) = writes
  /\ count_heartbeats (calls h) = beats
  /\ delays (calls h) = repeat (1000 ÷ portTICK_PERIOD_MS) sleeps.

(** The LED and the heartbeat are in step: five writes to the LED for
    each heartbeat line, the line first, and after each write one delay
    of 1000 ms in ticks. *)
Definition in_step (h : history) : Prop :=
  let writes := List.length (gpio_writes (calls h)) in
  let beats := count_heartbeats (calls h) in
  let sleeps := delays (calls h) in
  (writes <= 5 * beats <= writes + 5)%nat
  /\ (List.length sleeps <= writes <= List.length sleeps + 1)%nat
  /\ Forall (fun ticks => ticks = 1000 ÷ portTICK_PERIOD_MS) sleeps.

End InStep.

Section GpioProtocol.

Context `{H : sdk_headers}.

(** The GPIO calls of a list of calls are those of a pin that is
    configured before it is driven: pin 5 is reset, then made an output,
    and after that only levels are written. *)
Definition gpio_protocol (l : list call) : Prop :=
  match filter is_gpio_call l with
  | [] => True
  | [c] => c = gpio_reset_pin 5
  | c1 :: c2 :: writes =>
      c1 = gpio_reset_pin 5
      /\ c2 = gpio_set_direction 5 GPIO_MODE_OUTPUT
      /\ forallb is_gpio_set_level writes = true
  end.

End GpioProtocol.

(** ** The calls of the callbacks and of the start-up, one by one *)

(** The calls of a list that are no logging. *)
Definition sdk_calls (l : list call) : list call :=
  filter (fun c => negb (is_log c)) l.

Section Expected.

Context `{H : sdk_headers}.

(** An SDK that answers ESP_OK to every call whose result is checked. *)
Definition always_ok (sdk : sdk_t) : Prop :=
  forall (h : history) (c : call),
    is_checked c = true -> answered_ok (answered c (sdk h c)) = true.

(** What [event_handler] is to call besides logging, event by event;
    [answer] is what [wifi_prov_mgr_is_provisioned] answers when asked. *)
Definition calls_on_event (event_base : esp_event_base_t) (event_id : Z)
           (answer : esp_err_t * bool) : list call :=
  if event_base =? WIFI_PROV_EVENT then
    if event_id =? WIFI_PROV_CRED_FAIL then [wifi_prov_mgr_reset_sm_state_on_failure]
    else if event_id =? WIFI_PROV_CRED_SUCCESS
         then [wifi_prov_mgr_reset_sm_state_for_reprovision]
    else if event_id =? WIFI_PROV_END then [wifi_prov_mgr_deinit]
    else []
  else if (event_base =? WIFI_EVENT) && (event_id =? WIFI_EVENT_STA_START) then
    wifi_prov_mgr_is_provisioned
      :: (if (fst answer =? ESP_OK) && snd answer then [esp_wifi_connect] else [])
  else [].

(** The calls of the heartbeat loop: its log line, a level written to
    GPIO 5, a delay of one blink. *)
Definition heartbeat_call (c : call) : bool :=
  match c with
  | esp_log_write ESP_LOG_INFO tag fmt [] =>
      String.eqb tag TAG
      && String.eqb fmt "===== ===== ===== < App Heartbeat > ===== ===== ====="
  | gpio_set_level gpio_num _ => gpio_num =? 5
  | vTaskDelay ticks => ticks =? 1000 ÷ portTICK_PERIOD_MS
  | _ => false
  end.

(** The calls of a run of [app_main]: the start-up, cut short where a
    check failed or the run was stopped, or the whole start-up and after it
    calls of the heartbeat loop only.  The service name of the start-up is
    made from the MAC address that [esp_wifi_get_mac] answered. *)
Definition start_up_then_heartbeat (h : history) : Prop :=
  (exists erase service_name rest, startup_calls erase service_name = calls h ++ rest)
  \/ (exists erase rc mac loop,
         calls h = startup_calls erase (list_byte_of_string (service_name_of mac) ++ [x00])
                     ++ loop
         /\ In (answered (esp_wifi_get_mac WIFI_IF_STA) (rc, mac)) h
         /\ forallb heartbeat_call loop = true).

End Expected.


(** The SDK in which every call succeeds, for a station with the MAC
    address [mac]. *)
Definition sdk_with_mac (mac : mac_addr) : sdk_t := fun h c =>
  match c return ret_type c with
  | esp_wifi_get_mac _ => (0, mac)
  | c' => sdk_ok (H := esp_idf) h c'
  end.

(** ** Equations of [run] *)

Section RunFacts.

Variable sdk : sdk_t.

Lemma run_unfold {R} (fuel : nat) (t : prog R) (h : history) :
  run fuel sdk t h =
  match observe t with
  | RetF r => (Returned r, h, fuel)
  | TauF t' =>
      match fuel with
      | O => (Running, h, O)
      | S fuel' => run fuel' sdk t' h
      end
  | VisF e k =>
      match fuel with
      | O => (Running, h, O)
      | S fuel' =>
          match e in appE T return (T -> prog R) -> result R with
          | Call c => fun k => run fuel' sdk (k (sdk h c)) (h ++ [answered c (sdk h c)])
          | esp_error_check_failed rc => fun _ => (Aborted rc, h, fuel')
          end k
      end
  end.
Proof. destruct fuel; reflexivity. Qed.

Lemma run_observe {R} (fuel : nat) (t t' : prog R) (h : history) :
  observe t = observe t' -> run fuel sdk t h = run fuel sdk t' h.
Proof. intros E. rewrite (run_unfold fuel t), (run_unfold fuel t'), E. reflexivity. Qed.

Lemma run_Ret {R} (fuel : nat) (r : R) (h : history) :
  run fuel sdk (Ret r) h = (Returned r, h, fuel).
Proof. rewrite run_unfold. reflexivity. Qed.

Lemma run_bind {R U} (fuel : nat) (t : prog R) (k : R -> prog U) (h : history) :
  run fuel sdk (ITree.bind t k) h =
  and_then (run fuel sdk t h) (fun r fuel' h' => run fuel' sdk (k r) h').
Proof.
  revert t h. induction fuel as [|fuel IH]; intros t h.
  - rewrite (run_observe _ _ _ _ (observe_bind t k)).
    rewrite (run_unfold 0 t). destruct (observe t) as [r|t'|X e k']; cbn.
    + reflexivity.
    + reflexivity.
    + reflexivity.
  - rewrite (run_observe _ _ _ _ (observe_bind t k)).
    rewrite (run_unfold (S fuel) t). destruct (observe t) as [r|t'|X e k']; cbn.
    + reflexivity.
    + apply IH.
    + destruct e as [c|rc]; [apply IH | reflexivity].
Qed.

Lemma run_call (fuel : nat) (c : call) (h : history) :
  run (S fuel) sdk (do_call c) h =
  (Returned (sdk h c), h ++ [answered c (sdk h c)], fuel).
Proof. cbn. apply run_Ret. Qed.

Lemma run_abort {R} (fuel : nat) (rc : esp_err_t) (h : history) :
  run (S fuel) sdk (abort rc : prog R) h = (Aborted rc, h, fuel).
Proof. reflexivity. Qed.

Lemma run_while {St} (fuel : nat) (cond : St -> bool) (body : St -> prog St) (s : St)
      (h : history) :
  run fuel sdk (while_ cond body s) h =
  if cond s then
    and_then (run fuel sdk (body s) h)
             (fun s' fuel' h' =>
                match fuel' with
                | O => (Running, h', O)
                | S fuel'' => run fuel'' sdk (while_ cond body s') h'
                end)
  else (Returned s, h, fuel).
Proof.
  unfold while_ at 1.
  rewrite (run_observe _ _
             (ITree.bind (if cond s then s' <- body s;; Ret (inl s') else Ret (inr s))
                         (fun lr => match lr with
                                    | inl l => Tau (while_ cond body l)
                                    | inr r => Ret r
                                    end)) h) by reflexivity.
  rewrite run_bind. destruct (cond s).
  - rewrite run_bind.
    destruct (run fuel sdk (body s) h) as [[[s'|rc|] h'] fuel']; cbn; try reflexivity.
    rewrite run_Ret. cbn. rewrite run_unfold. reflexivity.
  - rewrite run_Ret. cbn. apply run_Ret.
Qed.

End RunFacts.

(** ** Facts about runs *)

Section RunProperties.

Variable sdk : sdk_t.

(** More fuel does not change a run that has ended. *)
Lemma run_more_fuel {R} (fuel : nat) (t : prog R) (h : history) :
  forall o h' fuel', run fuel sdk t h = (o, h', fuel') -> o <> Running ->
  forall k, run (fuel + k) sdk t h = (o, h', (fuel' + k)%nat).
Proof.
  revert t h. induction fuel as [|fuel IH]; intros t h o h' fuel' E NR k.
  - rewrite run_unfold in E. rewrite run_unfold.
    destruct (observe t) as [r|t'|X e k'].
    + inversion E; subst. reflexivity.
    + inversion E; subst. contradiction.
    + inversion E; subst. contradiction.
  - rewrite run_unfold in E. rewrite run_unfold.
    destruct (observe t) as [r|t'|X e k']; cbn [Nat.add].
    + inversion E; subst. reflexivity.
    + apply IH; assumption.
    + destruct e as [c|rc].
      * apply IH; assumption.
      * inversion E; subst. reflexivity.
Qed.

(** The history only grows. *)
Lemma run_history_grows {R} (fuel : nat) (t : prog R) (h : history) :
  exists l, history_of (run fuel sdk t h) = h ++ l.
Proof.
  revert t h. induction fuel as [|fuel IH]; intros t h; rewrite run_unfold.
  - destruct (observe t); exists []; cbn; now rewrite app_nil_r.
  - destruct (observe t) as [r|t'|X e k'].
    + exists []. cbn. now rewrite app_nil_r.
    + apply IH.
    + destruct e as [c|rc].
      * destruct (IH (k' (sdk h c)) (h ++ [answered c (sdk h c)])) as [l Hl].
        exists (answered c (sdk h c) :: l). rewrite Hl, <- app_assoc. reflexivity.
      * exists []. cbn. now rewrite app_nil_r.
Qed.

(** A result that a run returns is a leaf of the tree. *)
Lemma run_returned_Leaf {R} (fuel : nat) (t : prog R) (h : history) :
  forall r h' fuel', run fuel sdk t h = (Returned r, h', fuel') -> Leaf r t.
Proof.
  revert t h. induction fuel as [|fuel IH]; intros t h r h' fuel' E;
    rewrite run_unfold in E; destruct (observe t) as [r0|t'|X e k'] eqn:Ob;
    try discriminate.
  - inversion E; subst. now apply LeafRet.
  - inversion E; subst. now apply LeafRet.
  - eapply LeafTau; [exact Ob | eapply IH; exact E].
  - destruct e as [c|rc]; [|discriminate].
    eapply LeafVis; [exact Ob | eapply IH; exact E].
Qed.

End RunProperties.

Lemma calls_app (h1 h2 : history) : calls (h1 ++ h2) = calls h1 ++ calls h2.
Proof. apply map_app. Qed.

Lemma calls_snoc (h : history) (c : call) (r : ret_type c) :
  calls (h ++ [answered c r]) = calls h ++ [c].
Proof. apply calls_app. Qed.

Lemma and_then_Returned {R U} (r : R) (h : history) (fuel : nat)
      (k : R -> nat -> history -> result U) :
  and_then (Returned r, h, fuel) k = k r fuel h.
Proof. reflexivity. Qed.

Lemma and_then_Aborted {R U} (rc : esp_err_t) (h : history) (fuel : nat)
      (k : R -> nat -> history -> result U) :
  and_then (Aborted rc, h, fuel) k = (Aborted rc, h, fuel).
Proof. reflexivity. Qed.

Lemma and_then_Running {R U} (h : history) (fuel : nat)
      (k : R -> nat -> history -> result U) :
  and_then (Running, h, fuel) k = (Running, h, fuel).
Proof. reflexivity. Qed.

(** One step of a run, in a hypothesis: the head of the program is a call
    (its answer gets a name), a result, a sequence or an abort. *)
Ltac run_step_in E :=
  match type of E with
  | context [@run ?R (S ?f) ?sdk (do_call ?c) ?h] =>
      let Q := fresh "Q" in
      let r := fresh "r" in
      let Er := fresh "Er" in
      assert (Q : @run R (S f) sdk (do_call c) h
                  = (@Returned R (sdk h c), h ++ [answered c (sdk h c)], f))
        by exact (run_call sdk f c h);
      remember (sdk h c) as r eqn:Er in *;
      cbn [ret_type] in r; rewrite Q in E; clear Q
  | context [run ?f ?sdk (Ret ?r) ?h] => rewrite run_Ret in E
  | context [run ?f ?sdk (ITree.bind _ _) ?h] => rewrite run_bind in E
  | context [run (S ?f) ?sdk (abort ?rc) ?h] => rewrite run_abort in E
  end;
  rewrite ?and_then_Returned, ?and_then_Aborted in E; cbv beta in E.

(** Write the fuel of the run in [E] as the sum [n]. *)
Ltac fuel_sum_in E n :=
  match type of E with
  | context [run ?f _ _ _] => replace f with n in E by reflexivity
  end.

(** The call at the head of the run in the goal. *)
Ltac run_call_step :=
  match goal with
  | |- context [@run ?R (S ?f) ?sdk (do_call ?c) ?h] =>
      let Q := fresh "Q" in
      assert (Q : @run R (S f) sdk (do_call c) h
                  = (@Returned R (sdk h c), h ++ [answered c (sdk h c)], f))
        by exact (run_call sdk f c h);
      rewrite Q; clear Q
  end.

(** ** Safety of programs: the rules of [maintains] *)

Section Safety.

Variable sdk : sdk_t.

Lemma run_fuel_le {R} (fuel : nat) (t : prog R) (h : history) :
  (snd (run fuel sdk t h) <= fuel)%nat.
Proof.
  revert t h. induction fuel as [|fuel IH]; intros t h; rewrite run_unfold.
  - destruct (observe t); cbn; lia.
  - destruct (observe t) as [r|t'|X e k'].
    + cbn; lia.
    + specialize (IH t' h). lia.
    + destruct e as [c|rc].
      * specialize (IH (k' (sdk h c)) (h ++ [answered c (sdk h c)])). lia.
      * cbn; lia.
Qed.

(** With more fuel the history goes on from where it was. *)
Lemma run_prefix {R} (fuel k : nat) (t : prog R) (h : history) :
  exists l, history_of (run (fuel + k) sdk t h) = history_of (run fuel sdk t h) ++ l.
Proof.
  revert t h. induction fuel as [|fuel IH]; intros t h.
  - cbn [Nat.add]. destruct (run_history_grows sdk k t h) as [l Hl].
    exists l. rewrite Hl. rewrite (run_unfold sdk 0).
    destruct (observe t); reflexivity.
  - cbn [Nat.add]. rewrite (run_unfold sdk (S (fuel + k))), (run_unfold sdk (S fuel)).
    destruct (observe t) as [r|t'|X e k'].
    + exists []. cbn. now rewrite app_nil_r.
    + apply IH.
    + destruct e as [c|rc].
      * apply IH.
      * exists []. cbn. now rewrite app_nil_r.
Qed.

Section Rules.

Context {R : Type} (P : history -> Prop).

Lemma maintains_Ret (r : R) (h : history) (Post : R -> history -> Prop) :
  P h -> Post r h -> maintains sdk P (Ret r) h Post.
Proof. intros Ph Po fuel. rewrite run_Ret. auto. Qed.

Lemma maintains_abort (rc : esp_err_t) (h : history) (Post : R -> history -> Prop) :
  P h -> maintains sdk P (abort rc) h Post.
Proof. intros Ph [|fuel]; [exact Ph | rewrite run_abort; exact Ph]. Qed.

Lemma maintains_weaken (t : prog R) (h : history) (Post Post' : R -> history -> Prop) :
  maintains sdk P t h Post ->
  (forall r h', Post r h' -> Post' r h') ->
  maintains sdk P t h Post'.
Proof.
  intros M W fuel. specialize (M fuel).
  destruct (run fuel sdk t h) as [[[r|rc|] h'] f']; intuition.
Qed.

Lemma maintains_bind {U} (t : prog U) (k : U -> prog R) (h : history)
      (Mid : U -> history -> Prop) (Post : R -> history -> Prop) :
  maintains sdk P t h Mid ->
  (forall u h', Mid u h' -> maintains sdk P (k u) h' Post) ->
  maintains sdk P (ITree.bind t k) h Post.
Proof.
  intros M K fuel. rewrite run_bind. specialize (M fuel).
  destruct (run fuel sdk t h) as [[[u|rc|] h'] f']; cbn [and_then]; try exact M.
  destruct M as [_ Mu]. exact (K u h' Mu f').
Qed.

End Rules.

Lemma maintains_call (P : history -> Prop) (c : call) (h : history)
      (Post : ret_type c -> history -> Prop) :
  P h ->
  P (h ++ [answered c (sdk h c)]) ->
  Post (sdk h c) (h ++ [answered c (sdk h c)]) ->
  maintains sdk P (do_call c) h Post.
Proof. intros Ph Ph' Po [|fuel]; [exact Ph | rewrite run_call; auto]. Qed.

Lemma maintains_while {St} (P : history -> Prop) (Inv : St -> history -> Prop)
      (cond : St -> bool) (body : St -> prog St) :
  (forall s h, Inv s h -> P h) ->
  (forall s h, Inv s h -> cond s = true -> maintains sdk P (body s) h Inv) ->
  forall s h, Inv s h ->
  maintains sdk P (while_ cond body s) h (fun s' h' => Inv s' h' /\ cond s' = false).
Proof.
  intros IP B s h I fuel. revert s h I.
  induction fuel as [fuel IH] using lt_wf_ind. intros s h I.
  rewrite run_while. destruct (cond s) eqn:C.
  - pose proof (B s h I C fuel) as M. pose proof (run_fuel_le fuel (body s) h) as L.
    destruct (run fuel sdk (body s) h) as [[[s'|rc|] h'] f']; cbn [and_then snd] in *;
      try exact M.
    destruct M as [Ph' I']. destruct f' as [|f'']; [exact Ph'|].
    apply IH; [lia | exact I'].
  - split; [eapply IP; exact I | auto].
Qed.

End Safety.

Section Emits.

Variable Q : call -> bool.

Lemma emits_Ret {R} (r : R) : emits Q (Ret r).
Proof.
  intros sdk fuel h. exists []. rewrite run_Ret. cbn. now rewrite app_nil_r.
Qed.

Lemma emits_abort {R} (rc : esp_err_t) : emits Q (abort rc : prog R).
Proof.
  intros sdk [|fuel] h; exists []; cbn; now rewrite app_nil_r.
Qed.

Lemma emits_call (c : call) : Q c = true -> emits Q (do_call c).
Proof.
  intros Qc sdk [|fuel] h.
  - exists []. cbn. now rewrite app_nil_r.
  - exists [answered c (sdk h c)]. rewrite run_call. cbn. now rewrite Qc.
Qed.

Lemma emits_bind {R U} (t : prog R) (k : R -> prog U) :
  emits Q t -> (forall r, emits Q (k r)) -> emits Q (ITree.bind t k).
Proof.
  intros Et Ek sdk fuel h. rewrite run_bind.
  destruct (Et sdk fuel h) as [l [Hl Ql]].
  destruct (run fuel sdk t h) as [[[r|rc|] h'] f']; cbn [and_then];
    unfold history_of in Hl; cbn in Hl; subst h'.
  - destruct (Ek r sdk f' (h ++ l)) as [l' [Hl' Ql']].
    exists (l ++ l'). rewrite Hl', app_assoc, calls_app, forallb_app, Ql, Ql'. auto.
  - exists l. auto.
  - exists l. auto.
Qed.

Lemma emits_while {St} (cond : St -> bool) (body : St -> prog St) (s : St) :
  (forall s', emits Q (body s')) -> emits Q (while_ cond body s).
Proof.
  intros B sdk fuel. revert s.
  induction fuel as [fuel IH] using lt_wf_ind. intros s h.
  rewrite run_while. destruct (cond s).
  - destruct (B s sdk fuel h) as [l [Hl Ql]].
    pose proof (run_fuel_le sdk fuel (body s) h) as L.
    destruct (run fuel sdk (body s) h) as [[[s'|rc|] h'] f']; cbn [and_then snd] in *;
      unfold history_of in Hl; cbn in Hl; subst h'.
    + destruct f' as [|f''].
      * exists l. auto.
      * destruct (IH f'' ltac:(lia) s' (h ++ l)) as [l' [Hl' Ql']].
        exists (l ++ l'). rewrite Hl', app_assoc, calls_app, forallb_app, Ql, Ql'. auto.
    + exists l. auto.
    + exists l. auto.
  - exists []. cbn. now rewrite app_nil_r.
Qed.

End Emits.

Lemma emits_weaken {R} (Q Q' : call -> bool) (t : prog R) :
  (forall c, Q c = true -> Q' c = true) -> emits Q t -> emits Q' t.
Proof.
  intros W E sdk fuel h. destruct (E sdk fuel h) as [l [Hl Ql]].
  exists l. split; [exact Hl|].
  rewrite forallb_forall in *. auto.
Qed.

Section CustomEndpoint.

Context `{H : sdk_headers}.

(** What one call of the handler does, in one equation: the answer [p] of
    its single [malloc] decides the result. *)
Lemma custom_prov_data_handler_run :
  forall (sdk : sdk_t) (fuel : nat) (session_id : Z) (inbuf : uint8_ptr) (inlen : Z)
         (outbuf0 : uint8_ptr) (outlen0 priv_data : Z) (h : history),
  exists (h' : history) (p : Z) (fuel' : nat),
    run (3 + fuel) sdk
        (custom_prov_data_handler session_id inbuf inlen outbuf0 outlen0 priv_data) h
    = (Returned (if p =? NULL
                 then {| ret := ESP_ERR_NO_MEM; outbuf := None; outlen := outlen0 |}
                 else {| ret := ESP_OK;
                         outbuf := Some {| addr := p; contents := SUCCESS_bytes |};
                         outlen := 8 |}),
       h ++ h', fuel')
    /\ allocations h' = [(8, p)].
Proof.
  intros.
  remember (run _ _ _ _) as res eqn:E.
  unfold custom_prov_data_handler, strdup, ESP_LOGI, ESP_LOGE, skip in E.
  cbn [Nat.add] in E.
  destruct inbuf as [b|]; repeat run_step_in E.
  - destruct (r0 =? NULL) eqn:Ez; repeat run_step_in E;
      rewrite <- !app_assoc in E;
      eexists; exists r0; eexists; rewrite Ez; (split; [exact E | reflexivity]).
  - destruct (r =? NULL) eqn:Ez; repeat run_step_in E;
      rewrite <- ?app_assoc in E;
      eexists; exists r; eexists; rewrite Ez; (split; [exact E | reflexivity]).
Qed.

(** C4. Every call of [custom_prov_data_handler] returns.  It asks
    [malloc] once, for 8 bytes.  When the answer [p] is not null the call
    returns ESP_OK, [*outbuf] is the new block at [p] holding the NUL
    terminated text SUCCESS and [*outlen] is 8; when it is null the call
    returns ESP_ERR_NO_MEM.  ESP_ERR_NO_MEM is returned exactly when the
    allocation fails. *)
Theorem custom_prov_data_handler_result :
  forall (sdk : sdk_t) (fuel : nat) (session_id : Z) (inbuf : uint8_ptr) (inlen : Z)
         (outbuf0 : uint8_ptr) (outlen0 priv_data : Z) (h : history),
  exists (r : handler_result) (h' : history) (p : Z) (fuel' : nat),
    run (3 + fuel) sdk
        (custom_prov_data_handler session_id inbuf inlen outbuf0 outlen0 priv_data) h
    = (Returned r, h ++ h', fuel')
    /\ allocations h' = [(8, p)]
    /\ (p <> NULL ->
        ret r = ESP_OK
        /\ outbuf r = Some {| addr := p; contents := SUCCESS_bytes |}
        /\ outlen r = 8)
    /\ (p = NULL -> ret r = ESP_ERR_NO_MEM /\ outbuf r = None /\ outlen r = outlen0)
    /\ (ret r = ESP_ERR_NO_MEM <-> p = NULL)
    /\ (ret r = ESP_OK \/ ret r = ESP_ERR_NO_MEM).
Proof.
  intros.
  destruct (custom_prov_data_handler_run sdk fuel session_id inbuf inlen outbuf0 outlen0
              priv_data h) as (h' & p & fuel' & E & A).
  eexists; exists h', p, fuel'. split; [exact E|]. split; [exact A|].
  pose proof no_mem_is_error.
  destruct (Z.eqb_spec p NULL); cbn; intuition congruence.
Qed.

(** C9. Two calls of [custom_prov_data_handler] that both return ESP_OK
    leave the same bytes behind [*outbuf], the NUL terminated text SUCCESS,
    and the same [*outlen], 8, whatever their session, input buffer, input
    length, private data and SDK. *)
Theorem custom_prov_data_handler_output_independent :
  forall (sdk sdk' : sdk_t) (fuel1 fuel2 : nat)
         (session_id1 session_id2 : Z) (inbuf1 inbuf2 : uint8_ptr) (inlen1 inlen2 : Z)
         (outbuf1 outbuf2 : uint8_ptr) (outlen1 outlen2 priv_data1 priv_data2 : Z)
         (h1 h2 h1' h2' : history) (r1 r2 : handler_result) (left1 left2 : nat),
    run fuel1 sdk
        (custom_prov_data_handler session_id1 inbuf1 inlen1 outbuf1 outlen1 priv_data1) h1
    = (Returned r1, h1', left1) ->
    run fuel2 sdk'
        (custom_prov_data_handler session_id2 inbuf2 inlen2 outbuf2 outlen2 priv_data2) h2
    = (Returned r2, h2', left2) ->
    ret r1 = ESP_OK ->
    ret r2 = ESP_OK ->
    option_map contents (outbuf r1) = Some SUCCESS_bytes
    /\ option_map contents (outbuf r2) = option_map contents (outbuf r1)
    /\ outlen r1 = 8
    /\ outlen r2 = outlen r1.
Proof.
  intros sdk sdk' fuel1 fuel2 sid1 sid2 inbuf1 inbuf2 inlen1 inlen2 ob1 ob2 ol1 ol2 pd1 pd2
         h1 h2 h1' h2' r1 r2 left1 left2 E1 E2 OK1 OK2.
  pose proof no_mem_is_error as NM.
  destruct (custom_prov_data_handler_run sdk fuel1 sid1 inbuf1 inlen1 ob1 ol1 pd1 h1)
    as (l1 & p1 & f1 & R1 & _).
  destruct (custom_prov_data_handler_run sdk' fuel2 sid2 inbuf2 inlen2 ob2 ol2 pd2 h2)
    as (l2 & p2 & f2 & R2 & _).
  apply (run_more_fuel sdk) with (k := 3%nat) in E1; [|discriminate].
  apply (run_more_fuel sdk') with (k := 3%nat) in E2; [|discriminate].
  rewrite Nat.add_comm, R1 in E1. rewrite Nat.add_comm, R2 in E2.
  inversion E1; subst r1. inversion E2; subst r2.
  destruct (p1 =? NULL); [cbn in OK1; congruence|].
  destruct (p2 =? NULL); [cbn in OK2; congruence|].
  cbn. auto.
Qed.

End CustomEndpoint.

(** C9 at concrete inputs: a call with an input buffer in session 1 and a
    call without one in session 2. *)
Lemma custom_prov_data_handler_output_independent_witness :
  let r1 := {| ret := 0;
               outbuf := Some {| addr := 0x3ffb0000; contents := SUCCESS_bytes |};
               outlen := 8 |} in
  let r2 := {| ret := 0;
               outbuf := Some {| addr := 0x3ffb0040; contents := SUCCESS_bytes |};
               outlen := 8 |} in
  option_map contents (outbuf r1) = Some SUCCESS_bytes
  /\ option_map contents (outbuf r2) = option_map contents (outbuf r1)
  /\ outlen r1 = 8
  /\ outlen r2 = outlen r1.
Proof.
  intros r1 r2.
  eapply (custom_prov_data_handler_output_independent
            (H := esp_idf) sdk_ok sdk_second_block 5 9 1 2
            (Some {| addr := 0x3ffb1000; contents := [x68; x69] |}) None 2 0 None None 0 7 0 0
            [] [] _ _ r1 r2); reflexivity.
Defined.

(** ** The device service name *)

Lemma fmt_02X_byte (b : byte) : Libc.fmt_02X (Libc.byte_val b) = hex_pair b.
Proof. destruct b; reflexivity. Qed.

Lemma hex_char_not_NUL (d : nat) : Byte.eqb (byte_of_ascii (hex_char d)) x00 = false.
Proof.
  unfold hex_char, upper_hex.
  do 16 (destruct d as [|d]; [reflexivity|]). reflexivity.
Qed.

Lemma hex_pair_length (b : byte) : String.length (hex_pair b) = 2%nat.
Proof. reflexivity. Qed.

Lemma service_name_of_length (m : mac_addr) : String.length (service_name_of m) = 15%nat.
Proof. reflexivity. Qed.

Lemma list_byte_of_string_length (s : string) :
  List.length (list_byte_of_string s) = String.length s.
Proof.
  unfold list_byte_of_string. rewrite length_map.
  induction s as [|c s IH]; cbn; [reflexivity | now rewrite IH].
Qed.

(** [snprintf] stores the whole text when the buffer has room for it and
    its NUL. *)
Lemma snprintf_fits (max : nat) (out : string) :
  (String.length out < max)%nat ->
  Libc.snprintf max out = list_byte_of_string out ++ [x00].
Proof.
  intros L. destruct max as [|m]; [lia|]. cbn.
  rewrite firstn_all2; [reflexivity|]. rewrite list_byte_of_string_length. lia.
Qed.

(** [snprintf] cuts the text to [max - 1] characters otherwise. *)
Lemma snprintf_truncates (max : nat) (out : string) :
  (0 < max <= String.length out)%nat ->
  List.length (Libc.snprintf max out) = max
  /\ Libc.snprintf max out = firstn (max - 1) (list_byte_of_string out) ++ [x00].
Proof.
  intros L. destruct max as [|m]; [lia|]. cbn [Libc.snprintf].
  rewrite length_app, length_firstn, list_byte_of_string_length. cbn.
  rewrite Nat.sub_0_r. split; [lia | reflexivity].
Qed.

Section ServiceName.

Context `{H : sdk_headers}.

Lemma get_device_service_name_run (sdk : sdk_t) (fuel max : nat) (h : history) :
  run (S fuel) sdk (get_device_service_name max) h =
  (Returned (Libc.snprintf max
               (service_name_of (snd (sdk h (esp_wifi_get_mac WIFI_IF_STA))))),
   h ++ [answered (esp_wifi_get_mac WIFI_IF_STA) (sdk h (esp_wifi_get_mac WIFI_IF_STA))],
   fuel).
Proof.
  unfold get_device_service_name.
  rewrite run_bind, run_call. cbn [and_then]. rewrite run_Ret.
  rewrite !fmt_02X_byte. reflexivity.
Qed.

(** C8. With a buffer of [max >= 16] bytes, [get_device_service_name]
    stores 16 bytes: the 15 characters of the name, which are the text
    Kaivac_ and the two uppercase hexadecimal digits of each of the bytes
    3, 4 and 5 of the MAC address that [esp_wifi_get_mac] gave for the
    station interface, separated by underscores, and then the NUL.  Nothing
    of the name is cut off; 16 is the size [init_prov] uses. *)
Theorem get_device_service_name_written :
  forall (sdk : sdk_t) (fuel max : nat) (h : history),
    (16 <= max)%nat ->
    exists (rc : esp_err_t) (mac : mac_addr) (written : list byte),
      run (S fuel) sdk (get_device_service_name max) h =
      (Returned written, h ++ [answered (esp_wifi_get_mac WIFI_IF_STA) (rc, mac)], fuel)
      /\ written =
         list_byte_of_string
           ("Kaivac_" ++ hex_pair (mac3 mac) ++ "_" ++ hex_pair (mac4 mac)
                      ++ "_" ++ hex_pair (mac5 mac))%string ++ [x00]
      /\ List.length written = 16%nat
      /\ Libc.strlen written = 15.
Proof.
  intros sdk fuel max h L.
  destruct (sdk h (esp_wifi_get_mac WIFI_IF_STA)) as [rc mac] eqn:A.
  exists rc, mac. eexists. split.
  - rewrite get_device_service_name_run, A. cbn [snd]. reflexivity.
  - rewrite snprintf_fits by (rewrite service_name_of_length; lia).
    split; [reflexivity|].
    destruct mac as [m0 m1 m2 m3 m4 m5]. cbn [mac3 mac4 mac5].
    split; [reflexivity|].
    unfold service_name_of, hex_pair.
    cbn -[hex_char Nat.div Nat.modulo Byte.eqb byte_of_ascii Z.add].
    rewrite !hex_char_not_NUL. reflexivity.
Qed.

End ServiceName.

(** ** Bootstrap: init_esp *)

Section InitEsp.

Context `{H : sdk_headers}.

Lemma init_esp_split :
  init_esp =
  (ret <- do_call nvs_flash_init;;
   (if (ret =? ESP_ERR_NVS_NO_FREE_PAGES) || (ret =? ESP_ERR_NVS_NEW_VERSION_FOUND) then
      ESP_ERROR_CHECK (do_call nvs_flash_erase);;
      ESP_ERROR_CHECK (do_call nvs_flash_init)
    else skip);;
   init_esp_after_nvs).
Proof. reflexivity. Qed.

(** A run of [init_esp_after_nvs] with enough fuel ends: it returns after
    all its calls, or a check aborts it after some of them.  It starts with
    TCP/IP and goes on with the event loop; it never touches NVS. *)
Lemma init_esp_after_nvs_run (sdk : sdk_t) (fuel : nat) (h : history) :
  exists o l fuel',
    run (10 + fuel) sdk init_esp_after_nvs h = (o, h ++ l, fuel')
    /\ match o with
       | Returned _ => calls l = init_esp_after_nvs_calls
       | Aborted rc =>
           rc <> ESP_OK
           /\ exists rest, init_esp_after_nvs_calls = calls l ++ rest
       | Running => False
       end
    /\ (exists l', l = answered esp_netif_init (sdk h esp_netif_init) :: l')
    /\ (sdk h esp_netif_init = ESP_OK ->
        exists rest, calls l = esp_netif_init :: esp_event_loop_create_default :: rest)
    /\ existsb is_nvs_call (calls l) = false.
Proof.
  remember (run _ _ _ _) as res eqn:E.
  unfold init_esp_after_nvs, ESP_ERROR_CHECK in E. cbn [Nat.add] in E.
  repeat (repeat run_step_in E;
          match type of E with
          | context [if ?r =? ESP_OK then _ else _] =>
              destruct (Z.eqb_spec r ESP_OK)
          end);
    repeat run_step_in E;
    rewrite <- ?app_assoc in E; cbn [app] in E;
    (eexists; eexists; eexists; split; [exact E|]);
    (split; [cbn; try reflexivity; (split; [assumption|]); eexists; reflexivity|]);
    (split; [eexists; reflexivity|]);
    (split; [|reflexivity]);
    intros OK; try contradiction; eexists; reflexivity.
Qed.

(** C6. When the first [nvs_flash_init] answers
    ESP_ERR_NVS_NO_FREE_PAGES or ESP_ERR_NVS_NEW_VERSION_FOUND, [init_esp]
    calls [nvs_flash_erase] and then [nvs_flash_init] once more.  A failure
    of either aborts.  When both succeed it goes on with [esp_netif_init]
    and, if that succeeds, [esp_event_loop_create_default], and makes no
    further NVS call. *)
Theorem init_esp_erases_and_retries_once :
  forall (sdk : sdk_t) (fuel : nat) (h : history),
    let r0 := sdk h nvs_flash_init in
    let h1 := h ++ [answered nvs_flash_init r0] in
    let r1 := sdk h1 nvs_flash_erase in
    let h2 := h1 ++ [answered nvs_flash_erase r1] in
    let r2 := sdk h2 nvs_flash_init in
    let h3 := h2 ++ [answered nvs_flash_init r2] in
    r0 = ESP_ERR_NVS_NO_FREE_PAGES \/ r0 = ESP_ERR_NVS_NEW_VERSION_FOUND ->
    exists o h' fuel',
      run (14 + fuel) sdk init_esp h = (o, h', fuel')
      /\ (r1 <> ESP_OK -> o = Aborted r1 /\ h' = h2)
      /\ (r1 = ESP_OK -> r2 <> ESP_OK -> o = Aborted r2 /\ h' = h3)
      /\ (r1 = ESP_OK -> r2 = ESP_OK ->
          exists l,
            h' = h3 ++ answered esp_netif_init (sdk h3 esp_netif_init) :: l
            /\ (sdk h3 esp_netif_init = ESP_OK ->
                exists rest, calls l = esp_event_loop_create_default :: rest)
            /\ existsb is_nvs_call (calls l) = false
            /\ (o = Returned tt ->
                calls (answered esp_netif_init (sdk h3 esp_netif_init) :: l)
                = init_esp_after_nvs_calls)).
Proof.
  intros sdk fuel h. cbv zeta. intros Hr0.
  remember (run _ _ _ _) as res eqn:E.
  rewrite init_esp_split in E. unfold ESP_ERROR_CHECK in E. cbn [Nat.add] in E.
  repeat run_step_in E.
  replace ((r =? ESP_ERR_NVS_NO_FREE_PAGES) || (r =? ESP_ERR_NVS_NEW_VERSION_FOUND))
    with true in E
    by (symmetry; apply orb_true_iff; rewrite !Z.eqb_eq; exact Hr0).
  repeat run_step_in E.

  destruct (Z.eqb_spec r0 ESP_OK) as [OK1|KO1].
  - repeat run_step_in E.
    destruct (Z.eqb_spec r1 ESP_OK) as [OK2|KO2].
    + repeat run_step_in E.
      match type of E with
      | _ = run _ _ _ ?h3 =>
          destruct (init_esp_after_nvs_run sdk (1 + fuel) h3)
            as (o & l & f' & R & Ho & [l' Hl] & Hloop & Hnvs)
      end.
      cbn [Nat.add] in R. rewrite R in E. subst res l.
      eexists; eexists; eexists.
      split; [reflexivity|]. repeat split; try contradiction.
      intros _ _. exists l'. split; [reflexivity|]. split; [|split].
      * intros OK3. destruct (Hloop OK3) as [rest Hrest].
        exists rest. cbn in Hrest. now inversion Hrest.
      * cbn in Hnvs. exact Hnvs.
      * intros ->. exact Ho.
    + repeat run_step_in E. subst res.
      eexists; eexists; eexists. split; [reflexivity|].
      repeat split; try contradiction.
  - repeat run_step_in E. subst res.
    eexists; eexists; eexists. split; [reflexivity|].
    repeat split; try contradiction.
Qed.

End InitEsp.

(** ** Provisioning: init_prov *)

Section InitProv.

Context `{H : sdk_headers}.

(** A run of [init_prov] with enough fuel ends: it returns after all its
    calls, or a check aborts it after some of them.  The service name it
    passes on is the one made from the MAC address, whole. *)
Lemma init_prov_run (sdk : sdk_t) (fuel : nat) (h : history) :
  exists o l fuel' mac,
    run (8 + fuel) sdk init_prov h = (o, h ++ l, fuel')
    /\ match o with
       | Returned _ =>
           calls l = init_prov_calls (list_byte_of_string (service_name_of mac) ++ [x00])
       | Aborted rc =>
           rc <> ESP_OK
           /\ exists rest,
               init_prov_calls (list_byte_of_string (service_name_of mac) ++ [x00])
               = calls l ++ rest
       | Running => False
       end.
Proof.
  remember (run _ _ _ _) as res eqn:E.
  unfold init_prov, ESP_ERROR_CHECK, skip in E. cbn [Nat.add] in E.
  repeat run_step_in E.
  destruct (Z.eqb_spec r ESP_OK).
  2:{ repeat run_step_in E.
      eexists; eexists; eexists;
        exists {| mac0 := x00; mac1 := x00; mac2 := x00; mac3 := x00; mac4 := x00; mac5 := x00 |}.
      split; [exact E|]. split; [assumption|]. eexists. reflexivity. }
  repeat run_step_in E.
  rewrite get_device_service_name_run, and_then_Returned in E. cbv beta in E.
  remember (sdk _ (esp_wifi_get_mac _)) as m eqn:Em.
  rewrite snprintf_fits in E by (rewrite service_name_of_length; lia).
  repeat (repeat run_step_in E;
          match type of E with
          | context [if ?r =? ESP_OK then _ else _] =>
              destruct (Z.eqb_spec r ESP_OK)
          end);
    repeat run_step_in E;
    rewrite <- ?app_assoc in E; cbn [app] in E;
    (eexists; eexists; eexists; exists (snd m); split; [exact E|]);
    cbn; try reflexivity; (split; [assumption|]); eexists; reflexivity.
Qed.

End InitProv.

(** ** The event handler *)

Ltac solve_emits :=
  repeat first
    [ apply emits_Ret
    | apply emits_abort
    | match goal with
      | |- emits ?Q (do_call ?c) => exact (emits_call Q c eq_refl)
      end
    | apply emits_bind; [| intros ?]
    | apply emits_while; intros ?
    | match goal with
      | |- emits _ (if ?b then _ else _) => destruct b
      | |- emits _ (match ?x with Some _ => _ | None => _ end) => destruct x
      | |- emits _ (match ?x with (_, _) => _ end) => destruct x
      end ].

(** The pairwise differences in a list without duplicates. *)
Ltac split_NoDup :=
  repeat match goal with
         | N : NoDup (_ :: _) |- _ =>
             apply NoDup_cons_iff in N; cbn [In] in N; destruct N
         | N : NoDup [] |- _ => clear N
         end.

(** Decide a comparison of two header constants, or of anything else. *)
Ltac eqb_case :=
  match goal with
  | |- context [?a =? ?b] =>
      destruct (Z.eqb_spec a b); [try (exfalso; intuition congruence)|]
  end.

(** Two header constants that the side conditions tell apart. *)
Ltac differ a b := rewrite (proj2 (Z.eqb_neq a b)) by intuition congruence.

(** Decide the comparison at the head of the program being run. *)
Ltac head_case_in E :=
  match type of E with
  | context [run _ _ (if ?a =? ?b then _ else _) _] =>
      destruct (Z.eqb_spec a b);
      [try (exfalso; intuition congruence) | try (exfalso; intuition congruence)]
  end.

Ltac run_event_in E := repeat first [run_step_in E | head_case_in E].

Section EventHandler.

Context `{H : sdk_headers}.

Lemma event_handler_emits (arg : Z) (event_base : esp_event_base_t) (event_id : Z)
      (event_data : event_data_t) :
  emits (fun c => is_log c || event_handler_sdk_call c)
        (event_handler arg event_base event_id event_data).
Proof.
  unfold event_handler, switch, ESP_LOGI, ESP_LOGE, ESP_ERROR_CHECK,
    ESP_ERROR_CHECK_WITHOUT_ABORT, skip.
  solve_emits.
Qed.

Lemma custom_prov_data_handler_emits (session_id : Z) (inbuf : uint8_ptr) (inlen : Z)
      (outbuf0 : uint8_ptr) (outlen0 priv_data : Z) :
  emits (fun c => is_log c || is_malloc c)
        (custom_prov_data_handler session_id inbuf inlen outbuf0 outlen0 priv_data).
Proof.
  unfold custom_prov_data_handler, strdup, ESP_LOGI, ESP_LOGE, skip.
  solve_emits.
Qed.

Lemma app_main_emits :
  emits (fun c => is_log c || startup_sdk_call c || heartbeat_sdk_call c) app_main.
Proof.
  unfold app_main, init_esp, init_prov, get_device_service_name, heartbeat_body,
    blink_body, ESP_LOGI, ESP_ERROR_CHECK, skip.
  solve_emits.
Qed.

(** The runs of the handler on the events that make it call the SDK. *)

Lemma event_handler_cred_fail (sdk : sdk_t) (fuel : nat) (arg : Z)
      (event_data : event_data_t) (h : history) :
  exists l,
    run (3 + fuel) sdk
        (event_handler arg WIFI_PROV_EVENT WIFI_PROV_CRED_FAIL event_data) h
    = (Returned tt, h ++ l, fuel)
    /\ calls l =
       [ esp_log_write ESP_LOG_ERROR TAG
           "Provisioning failed!
	Reason : %s
	Please reset to factory and retry provisioning"
           [arg_str (if as_fail_reason event_data =? WIFI_PROV_STA_AUTH_ERROR
                     then "Wi-Fi station authentication failed"
                     else "Wi-Fi access-point not found")];
         esp_log_write ESP_LOG_INFO TAG
           "Failed to connect with provisioned AP, reseting provisioned credentials" [];
         wifi_prov_mgr_reset_sm_state_on_failure ].
Proof.
  pose proof wifi_prov_labels_distinct. split_NoDup.
  remember (run _ _ _ _) as res eqn:E.
  unfold event_handler, switch, ESP_LOGI, ESP_LOGE, skip in E. cbn [Nat.add] in E.
  rewrite Z.eqb_refl in E.
  run_event_in E.
  rewrite <- ?app_assoc in E. eexists. split; [exact E | reflexivity].
Qed.

Lemma event_handler_cred_success (sdk : sdk_t) (fuel : nat) (arg : Z)
      (event_data : event_data_t) (h : history) :
  exists l,
    run (2 + fuel) sdk
        (event_handler arg WIFI_PROV_EVENT WIFI_PROV_CRED_SUCCESS event_data) h
    = (Returned tt, h ++ l, fuel)
    /\ calls l =
       [ esp_log_write ESP_LOG_INFO TAG "Provisioning successful" [];
         wifi_prov_mgr_reset_sm_state_for_reprovision ].
Proof.
  pose proof wifi_prov_labels_distinct. split_NoDup.
  remember (run _ _ _ _) as res eqn:E.
  unfold event_handler, switch, ESP_LOGI, ESP_LOGE, skip in E. cbn [Nat.add] in E.
  rewrite Z.eqb_refl in E.
  run_event_in E.
  rewrite <- ?app_assoc in E. eexists. split; [exact E | reflexivity].
Qed.

Lemma event_handler_end (sdk : sdk_t) (fuel : nat) (arg : Z)
      (event_data : event_data_t) (h : history) :
  exists l,
    run (2 + fuel) sdk
        (event_handler arg WIFI_PROV_EVENT WIFI_PROV_END event_data) h
    = (Returned tt, h ++ l, fuel)
    /\ calls l =
       [ esp_log_write ESP_LOG_INFO TAG "Provisioning ENDED" [];
         wifi_prov_mgr_deinit ].
Proof.
  pose proof wifi_prov_labels_distinct. split_NoDup.
  remember (run _ _ _ _) as res eqn:E.
  unfold event_handler, switch, ESP_LOGI, ESP_LOGE, skip in E. cbn [Nat.add] in E.
  rewrite Z.eqb_refl in E.
  run_event_in E.
  rewrite <- ?app_assoc in E. destruct r0.
  eexists. split; [exact E | reflexivity].
Qed.

(** On WIFI_EVENT_STA_START the handler asks whether the device is
    provisioned, aborts if the question fails, and connects when the answer
    is yes. *)
Lemma event_handler_sta_start (sdk : sdk_t) (fuel : nat) (arg : Z)
      (event_data : event_data_t) (h : history) :
  exists o l fuel',
    run (6 + fuel) sdk
        (event_handler arg WIFI_EVENT WIFI_EVENT_STA_START event_data) h
    = (o, h ++ l, fuel')
    /\ exists rc provisioned,
        firstn 2 l =
        [ answered (esp_log_write ESP_LOG_INFO TAG "WiFi Started in STA mode" []) tt;
          answered wifi_prov_mgr_is_provisioned (rc, provisioned) ]
        /\ (rc <> ESP_OK -> o = Aborted rc /\ calls (skipn 2 l) = [])
        /\ (rc = ESP_OK -> provisioned = false -> o = Returned tt /\ calls (skipn 2 l) = [])
        /\ (rc = ESP_OK -> provisioned = true ->
            o = Returned tt
            /\ firstn 2 (calls (skipn 2 l)) =
               [ esp_log_write ESP_LOG_INFO TAG
                   "WiFi credentials are present, so attempt to connect" [];
                 esp_wifi_connect ]).
Proof.
  pose proof wifi_event_labels_distinct. pose proof event_bases_distinct. split_NoDup.
  remember (run _ _ _ _) as res eqn:E.
  unfold event_handler, switch, ESP_LOGI, ESP_LOGE, ESP_ERROR_CHECK,
    ESP_ERROR_CHECK_WITHOUT_ABORT, skip in E. cbn [Nat.add] in E.
  rewrite (Z.eqb_refl WIFI_EVENT) in E.
  run_event_in E.
  - destruct r, r0 as [rc [|]]; cbn [fst snd] in *; run_event_in E;
      rewrite <- ?app_assoc in E; cbn [app] in E;
      (eexists; eexists; eexists; split; [exact E|]);
      exists rc; eexists; (split; [reflexivity|]);
      repeat split; try congruence; try discriminate.
  - destruct r, r0 as [rc prov]; cbn [fst snd] in *.
    rewrite <- ?app_assoc in E; cbn [app] in E.
    eexists; eexists; eexists; split; [exact E|].
    exists rc, prov. split; [reflexivity|].
    repeat split; try congruence.
Qed.

(** An event of a base that is none of the five does nothing. *)
Lemma event_handler_other_base (arg : Z) (event_base : esp_event_base_t) (event_id : Z)
      (event_data : event_data_t) :
  ~ In event_base handled_bases ->
  event_handler arg event_base event_id event_data = skip.
Proof.
  intros N. unfold handled_bases in N. cbn [In] in N.
  unfold event_handler.
  rewrite (proj2 (Z.eqb_neq event_base WIFI_PROV_EVENT)) by intuition congruence.
  rewrite (proj2 (Z.eqb_neq event_base WIFI_EVENT)) by intuition congruence.
  rewrite (proj2 (Z.eqb_neq event_base IP_EVENT)) by intuition congruence.
  rewrite (proj2 (Z.eqb_neq event_base PROTOCOMM_TRANSPORT_BLE_EVENT))
    by intuition congruence.
  rewrite (proj2 (Z.eqb_neq event_base PROTOCOMM_SECURITY_SESSION_EVENT))
    by intuition congruence.
  reflexivity.
Qed.

Lemma reacts_iff (event_base : esp_event_base_t) :
  reacts event_base <-> In event_base handled_bases.
Proof.
  split.
  - intros (arg & id & data & sdk & fuel & R).
    destruct (in_dec Z.eq_dec event_base handled_bases) as [I|N]; [exact I|].
    exfalso. apply R. rewrite (event_handler_other_base _ _ _ _ N).
    unfold skip. rewrite run_Ret. reflexivity.
  - pose proof event_bases_distinct. split_NoDup.
    intros I. unfold handled_bases in I. cbn [In] in I.
    destruct I as [<-|[<-|[<-|[<-|[<-|[]]]]]].
    + exists 0, WIFI_PROV_START, no_event_data, sdk_ok, 1%nat.
      unfold event_handler, switch, ESP_LOGI. rewrite !Z.eqb_refl.
      cbn. intros X; discriminate X.
    + exists 0, WIFI_EVENT_STA_START, no_event_data, sdk_ok, 1%nat.
      unfold event_handler.
      differ WIFI_EVENT WIFI_PROV_EVENT.
      unfold switch, ESP_LOGI. rewrite !Z.eqb_refl.
      cbn. intros X; discriminate X.
    + exists 0, IP_EVENT_STA_GOT_IP, no_event_data, sdk_ok, 1%nat.
      unfold event_handler.
      differ IP_EVENT WIFI_PROV_EVENT. differ IP_EVENT WIFI_EVENT.
      rewrite !Z.eqb_refl.
      unfold ESP_LOGI. cbn. intros X; discriminate X.
    + exists 0, PROTOCOMM_TRANSPORT_BLE_CONNECTED, no_event_data, sdk_ok, 1%nat.
      unfold event_handler.
      differ PROTOCOMM_TRANSPORT_BLE_EVENT WIFI_PROV_EVENT.
      differ PROTOCOMM_TRANSPORT_BLE_EVENT WIFI_EVENT.
      differ PROTOCOMM_TRANSPORT_BLE_EVENT IP_EVENT.
      cbn [andb]. unfold switch, ESP_LOGI. rewrite !Z.eqb_refl.
      cbn. intros X; discriminate X.
    + exists 0, PROTOCOMM_SECURITY_SESSION_SETUP_OK, no_event_data, sdk_ok, 1%nat.
      unfold event_handler.
      differ PROTOCOMM_SECURITY_SESSION_EVENT WIFI_PROV_EVENT.
      differ PROTOCOMM_SECURITY_SESSION_EVENT WIFI_EVENT.
      differ PROTOCOMM_SECURITY_SESSION_EVENT IP_EVENT.
      differ PROTOCOMM_SECURITY_SESSION_EVENT PROTOCOMM_TRANSPORT_BLE_EVENT.
      cbn [andb]. unfold switch, ESP_LOGI. rewrite !Z.eqb_refl.
      cbn. intros X; discriminate X.
Qed.

End EventHandler.

(** ** Registration and the calls of the callbacks *)

Lemma forallb_prefix {A} (f : A -> bool) (l l1 l2 : list A) :
  l = l1 ++ l2 -> forallb f l = true -> forallb f l1 = true.
Proof. intros ->. rewrite forallb_app. now intros [? ?]%andb_true_iff. Qed.

Lemma count_start_provisioning_prefix (l l1 l2 : list call) :
  l = l1 ++ l2 -> (count_start_provisioning l1 <= count_start_provisioning l)%nat.
Proof.
  intros ->. unfold count_start_provisioning. rewrite filter_app, length_app. lia.
Qed.

Section Claims.

Context `{H : sdk_headers}.

(** A run of [init_esp] with enough fuel ends: it returns after all its
    calls, or a check aborts it after some of them. *)
Lemma init_esp_run (sdk : sdk_t) (fuel : nat) (h : history) :
  exists o l fuel' erase,
    run (14 + fuel) sdk init_esp h = (o, h ++ l, fuel')
    /\ match o with
       | Returned _ => calls l = init_esp_calls erase
       | Aborted rc =>
           rc <> ESP_OK /\ exists rest, init_esp_calls erase = calls l ++ rest
       | Running => False
       end.
Proof.
  remember (run _ _ _ _) as res eqn:E.
  rewrite init_esp_split in E. unfold ESP_ERROR_CHECK, skip in E. cbn [Nat.add] in E.
  repeat run_step_in E.
  destruct ((r =? ESP_ERR_NVS_NO_FREE_PAGES) || (r =? ESP_ERR_NVS_NEW_VERSION_FOUND)).
  - repeat run_step_in E.
    destruct (Z.eqb_spec r0 ESP_OK) as [OK1|KO1]; repeat run_step_in E.
    + destruct (Z.eqb_spec r1 ESP_OK) as [OK2|KO2]; repeat run_step_in E.
      * match type of E with
        | _ = run _ _ _ ?h3 =>
            destruct (init_esp_after_nvs_run sdk (1 + fuel) h3)
              as (o & l & f' & R & Ho & _)
        end.
        fuel_sum_in E (10 + (1 + fuel))%nat. rewrite R in E. rewrite <- !app_assoc in E.
        exists o; eexists; exists f', true. split; [exact E|].
        rewrite !calls_app. unfold init_esp_calls.
        destruct o as [[]|rc|]; [now rewrite Ho | | exact Ho].
        destruct Ho as [N [rest Hr]]. split; [exact N|].
        exists rest. rewrite Hr. cbn. reflexivity.
      * rewrite <- !app_assoc in E.
        eexists; eexists; eexists; exists true. split; [exact E|].
        split; [exact KO2|]. eexists. reflexivity.
    + rewrite <- !app_assoc in E.
      eexists; eexists; eexists; exists true. split; [exact E|].
      split; [exact KO1|]. eexists. reflexivity.
  - repeat run_step_in E.
    match type of E with
    | _ = run _ _ _ ?h1 =>
        destruct (init_esp_after_nvs_run sdk (3 + fuel) h1)
          as (o & l & f' & R & Ho & _)
    end.
    fuel_sum_in E (10 + (3 + fuel))%nat. rewrite R in E. rewrite <- !app_assoc in E.
    exists o; eexists; exists f', false. split; [exact E|].
    rewrite !calls_app. unfold init_esp_calls.
    destruct o as [[]|rc|]; [now rewrite Ho | | exact Ho].
    destruct Ho as [N [rest Hr]]. split; [exact N|].
    exists rest. rewrite Hr. cbn. reflexivity.
Qed.

End Claims.

(** C1 as the specification states it fails: no set of four bases is the
    set of bases the handler reacts to. *)
Lemma event_handler_bases_not_four :
  ~ (exists l : list esp_event_base_t,
        NoDup l /\ List.length l = 4%nat
        /\ forall event_base, reacts (H := esp_idf) event_base <-> In event_base l).
Proof.
  intros (l & ND & L & R).
  assert (I : incl (handled_bases (H := esp_idf)) l).
  { intros b Hb. apply R, reacts_iff. exact Hb. }
  pose proof (NoDup_incl_length (event_bases_distinct (sdk_headers := esp_idf)) I) as Len.
  cbn in Len. lia.
Qed.

(** The three calls that the specification names are not all the handler
    makes: on WIFI_PROV_CRED_SUCCESS it calls
    [wifi_prov_mgr_reset_sm_state_for_reprovision], which is neither
    logging nor one of the three. *)
Lemma event_handler_calls_beyond_spec :
  ~ (forall (arg : Z) (event_base : esp_event_base_t) (event_id : Z)
            (event_data : event_data_t),
        emits (fun c => is_log c || named_in_spec c)
              (event_handler (H := esp_idf) arg event_base event_id event_data)).
Proof.
  intros E.
  destruct (E 0 WIFI_PROV_EVENT WIFI_PROV_CRED_SUCCESS no_event_data sdk_ok 5%nat [])
    as [l [Hl Ql]].
  vm_compute in Hl. subst l. vm_compute in Ql. discriminate Ql.
Qed.

(** ** The heartbeat loop *)

Lemma gpio_writes_app (l1 l2 : list call) :
  gpio_writes (l1 ++ l2) = gpio_writes l1 ++ gpio_writes l2.
Proof. apply flat_map_app. Qed.



Lemma blinking_length (n : nat) : List.length (blinking n) = n.
Proof. unfold blinking. now rewrite length_map, length_seq. Qed.




Ltac maintains_call_step :=
  match goal with
  | |- maintains ?sdk ?P (do_call ?c) ?h ?Post =>
      refine (maintains_call sdk P c h Post _ _ _)
  end.

Lemma maintains_of_emits (sdk : sdk_t) {R} (P : history -> Prop) (Q : call -> bool)
      (t : prog R) (h : history) :
  emits Q t ->
  (forall l, forallb Q (calls l) = true -> P (h ++ l)) ->
  maintains sdk P t h (fun _ h' => exists l, h' = h ++ l /\ forallb Q (calls l) = true).
Proof.
  intros E HP fuel. destruct (E sdk fuel h) as [l [Hl Ql]].
  destruct (run fuel sdk t h) as [[o h'] f']. unfold history_of in Hl. cbn in Hl.
  subst h'. destruct o; eauto.
Qed.

Lemma emits_anything {R} (t : prog R) : emits (fun _ => true) t.
Proof.
  intros sdk fuel h. destruct (run_history_grows sdk fuel t h) as [l Hl].
  exists l. split; [exact Hl|]. apply forallb_forall. reflexivity.
Qed.

Section Heartbeat.

Context `{H : sdk_headers}.

Lemma init_esp_emits : emits (fun c => negb (in_heartbeat_loop c)) init_esp.
Proof. unfold init_esp, ESP_ERROR_CHECK, skip. solve_emits. Qed.

Lemma init_prov_emits : emits (fun c => negb (in_heartbeat_loop c)) init_prov.
Proof.
  unfold init_prov, get_device_service_name, ESP_ERROR_CHECK, skip. solve_emits.
Qed.

Variable sdk : sdk_t.




End Heartbeat.

(** ** Order of the start-up and the loop *)

Lemma maintains_history (sdk : sdk_t) {R} (P : history -> Prop) (t : prog R) (h : history)
      (Post : R -> history -> Prop) :
  maintains sdk P t h Post -> forall fuel, P (history_of (run fuel sdk t h)).
Proof.
  intros M fuel. specialize (M fuel).
  destruct (run fuel sdk t h) as [[[r|rc|] h'] f']; cbn; tauto.
Qed.

Lemma maintains_post_and (sdk : sdk_t) {R} (P : history -> Prop) (t : prog R) (h : history)
      (Post1 Post2 : R -> history -> Prop) :
  maintains sdk P t h Post1 ->
  (forall fuel r h' fuel', run fuel sdk t h = (Returned r, h', fuel') -> Post2 r h') ->
  maintains sdk P t h (fun r h' => Post1 r h' /\ Post2 r h').
Proof.
  intros M Q fuel. specialize (M fuel). specialize (Q fuel).
  destruct (run fuel sdk t h) as [[[r|rc|] h'] f']; try exact M.
  destruct M as [Ph P1]. repeat split; try assumption. eapply Q. reflexivity.
Qed.

Section Order.

Context `{H : sdk_headers}.

Lemma startup_calls_no_loop (erase : bool) (service_name : list byte) :
  forallb (fun c => negb (in_heartbeat_loop c)) (startup_calls erase service_name) = true.
Proof. now destruct erase. Qed.

Lemma no_loop_call_loop_after_init (h : history) :
  forallb (fun c => negb (in_heartbeat_loop c)) (calls h) = true -> loop_after_init h.
Proof.
  intros N l1 c l2 E L. rewrite E, forallb_app in N.
  apply andb_true_iff in N as [_ N]. cbn in N. now rewrite L in N.
Qed.

Lemma started_loop_after_init (h : history) (erase : bool) (service_name : list byte)
      (rest : list call) :
  calls h = startup_calls erase service_name ++ rest -> loop_after_init h.
Proof.
  intros E l1 c l2 E' L. rewrite E in E'.
  apply app_eq_app in E' as [l' [[E1 E2]|[E1 E2]]].
  - destruct l' as [|c' l''].
    + rewrite app_nil_r in E1. subst l1.
      exists erase, service_name. eexists. unfold startup_calls.
      reflexivity.
    + cbn in E2. inversion E2; subst c' l2.
      pose proof (startup_calls_no_loop erase service_name) as N.
      rewrite E1, forallb_app in N. apply andb_true_iff in N as [_ N].
      cbn in N. now rewrite L in N.
  - subst l1. exists erase, service_name. eexists. unfold startup_calls.
    rewrite <- !app_assoc. reflexivity.
Qed.

Variable sdk : sdk_t.

Lemma init_esp_returned (fuel : nat) (h h' : history) (fuel' : nat) :
  run fuel sdk init_esp h = (Returned tt, h', fuel') ->
  exists l erase, h' = h ++ l /\ calls l = init_esp_calls erase.
Proof.
  intros R. apply (run_more_fuel sdk) with (k := 14%nat) in R; [|discriminate].
  destruct (init_esp_run sdk fuel h) as (o & l & f' & erase & R' & Ho).
  rewrite Nat.add_comm, R' in R. inversion R; subst.
  exists l, erase. auto.
Qed.

Lemma init_prov_returned (fuel : nat) (h h' : history) (fuel' : nat) :
  run fuel sdk init_prov h = (Returned tt, h', fuel') ->
  exists l mac,
    h' = h ++ l
    /\ calls l = init_prov_calls (list_byte_of_string (service_name_of mac) ++ [x00]).
Proof.
  intros R. apply (run_more_fuel sdk) with (k := 8%nat) in R; [|discriminate].
  destruct (init_prov_run sdk fuel h) as (o & l & f' & mac & R' & Ho).
  rewrite Nat.add_comm, R' in R. inversion R; subst.
  exists l, mac. auto.
Qed.

Lemma app_main_loop_after_init :
  maintains sdk loop_after_init app_main [] (fun _ _ => False).
Proof.
  unfold app_main. cbv zeta.
  eapply maintains_bind.
  { apply maintains_post_and
      with (Post2 := fun _ h' => exists erase, calls h' = init_esp_calls erase).
    - apply (maintains_of_emits sdk _ _ _ _ init_esp_emits).
      intros l N. now apply no_loop_call_loop_after_init.
    - intros fuel [] h' f' R. apply init_esp_returned in R as (l & erase & -> & E).
      now exists erase. }
  cbv beta. intros _ h1 [_ [erase E1]].
  eapply maintains_bind.
  { apply maintains_post_and
      with (Post2 := fun _ h' => exists name,
                         calls h' = init_esp_calls erase ++ init_prov_calls name).
    - apply (maintains_of_emits sdk _ _ _ _ init_prov_emits).
      intros l N. apply no_loop_call_loop_after_init.
      rewrite calls_app, forallb_app, N, E1. now destruct erase.
    - intros fuel [] h' f' R. apply init_prov_returned in R as (l & mac & -> & E).
      eexists. rewrite calls_app, E1, E. reflexivity. }
  cbv beta. intros _ h2 [_ [name E2]].
  eapply maintains_bind.
  { maintains_call_step.
    - apply no_loop_call_loop_after_init. rewrite E2. now destruct erase.
    - apply no_loop_call_loop_after_init. rewrite calls_snoc, E2. now destruct erase.
    - instantiate (1 := fun _ h' =>
                          calls h' = init_esp_calls erase ++ init_prov_calls name
                                       ++ [gpio_reset_pin 5]).
      cbv beta. rewrite calls_snoc, E2, <- app_assoc. reflexivity. }
  cbv beta. intros _ h3 E3.
  eapply maintains_bind.
  { maintains_call_step.
    - apply no_loop_call_loop_after_init. rewrite E3. now destruct erase.
    - apply no_loop_call_loop_after_init. rewrite calls_snoc, E3. now destruct erase.
    - instantiate (1 := fun _ h' => calls h' = startup_calls erase name).
      cbv beta. rewrite calls_snoc, E3. unfold startup_calls.
      rewrite <- !app_assoc. reflexivity. }
  cbv beta. intros _ h4 E4.
  eapply maintains_bind.
  - apply maintains_while
      with (Inv := fun (_ : Z) h' => exists rest, calls h' = startup_calls erase name ++ rest).
    + intros _ h' [rest E]. eapply started_loop_after_init, E.
    + intros led h' [rest E] _.
      eapply maintains_weaken.
      * apply (maintains_of_emits sdk _ _ _ _ (emits_anything _)).
        intros l _. eapply started_loop_after_init.
        rewrite calls_app, E, <- app_assoc. reflexivity.
      * cbv beta. intros _ h'' (l & -> & _).
        eexists. rewrite calls_app, E, <- app_assoc. reflexivity.
    + exists []. now rewrite app_nil_r.
  - cbv beta. intros s h' [_ C]. discriminate C.
Qed.

End Order.

(** ** The loop goes on *)

Lemma count_heartbeats_app (l1 l2 : list call) :
  count_heartbeats (l1 ++ l2) = (count_heartbeats l1 + count_heartbeats l2)%nat.
Proof. unfold count_heartbeats. now rewrite filter_app, length_app. Qed.

Section Progress.

Context `{H : sdk_headers}.
Variable sdk : sdk_t.

(** One pass of the blink loop: the level is written to GPIO 5, the state
    is negated, and the task sleeps. *)
Lemma blink_body_run (fuel : nat) (led_delay_ms i led : Z) (h : history) :
  exists l,
    run (2 + fuel) sdk (blink_body 5 led_delay_ms (i, led)) h
    = (Returned (i + 1, c_not led), h ++ l, fuel)
    /\ calls l = [gpio_set_level 5 led; vTaskDelay (led_delay_ms ÷ portTICK_PERIOD_MS)].
Proof.
  remember (run _ _ _ _) as res eqn:E.
  unfold blink_body in E. cbv zeta in E. cbn [Nat.add] in E.
  repeat run_step_in E. rewrite <- app_assoc in E.
  eexists. split; [exact E | reflexivity].
Qed.

(** The blink loop from [i] up to [interval]. *)
Lemma blink_loop_run (led_delay_ms interval : Z) (n : nat) :
  forall (fuel : nat) (i led : Z) (h : history),
    i + Z.of_nat n = interval ->
    exists l led',
      run (3 * n + fuel) sdk
          (while_ (fun s => fst s <? interval) (blink_body 5 led_delay_ms) (i, led)) h
      = (Returned (interval, led'), h ++ l, fuel)
      /\ List.length (gpio_writes (calls l)) = n
      /\ count_heartbeats (calls l) = 0%nat.
Proof.
  induction n as [|n IH]; intros fuel i led h Hi.
  - rewrite run_while. cbn [fst].
    replace (i <? interval) with false by (symmetry; apply Z.ltb_ge; lia).
    exists [], led. rewrite app_nil_r. replace i with interval by lia.
    repeat split.
  - rewrite run_while. cbn [fst].
    replace (i <? interval) with true by (symmetry; apply Z.ltb_lt; lia).
    replace (3 * S n + fuel)%nat with (2 + (S (3 * n + fuel)))%nat by lia.
    destruct (blink_body_run (S (3 * n + fuel)) led_delay_ms i led h) as [l [R C]].
    rewrite R, and_then_Returned.
    destruct (IH fuel (i + 1) (c_not led) (h ++ l) ltac:(lia)) as (l' & led' & R' & W' & C').
    rewrite R'. exists (l ++ l'), led'. rewrite app_assoc.
    split; [reflexivity|].
    rewrite calls_app, gpio_writes_app, length_app, count_heartbeats_app, W', C', C.
    split; reflexivity.
Qed.

(** One pass of the heartbeat loop: a log line and five writes. *)
Lemma heartbeat_body_run (fuel : nat) (led : Z) (h : history) :
  exists l led',
    run (16 + fuel) sdk (heartbeat_body 5 1000 (5000 ÷ 1000) led) h
    = (Returned led', h ++ l, fuel)
    /\ List.length (gpio_writes (calls l)) = 5%nat
    /\ count_heartbeats (calls l) = 1%nat.
Proof.
  unfold heartbeat_body, ESP_LOGI.
  rewrite run_bind.
  change (16 + fuel)%nat with (S (3 * 5 + fuel)).
  run_call_step.
  rewrite and_then_Returned, run_bind.
  match goal with
  | |- context [run _ sdk (while_ _ _ _) ?h1] =>
      destruct (blink_loop_run 1000 (5000 ÷ 1000) 5 fuel 0 led h1 eq_refl)
        as (l & led' & R & W & C)
  end.
  rewrite R, and_then_Returned, run_Ret. cbn [snd].
  eexists; exists led'. rewrite <- app_assoc. split; [reflexivity|].
  rewrite calls_app, gpio_writes_app, length_app, count_heartbeats_app, W, C.
  split; reflexivity.
Qed.

(** [n] passes of a loop around the heartbeat body whose condition stays
    true. *)
Lemma heartbeat_loop_progress (cond : Z -> bool) (n : nat) :
  (forall led, cond led = true) ->
  forall (fuel : nat) (led : Z) (h : history),
  exists l led',
    run (17 * n + fuel) sdk
        (while_ cond (heartbeat_body 5 1000 (5000 ÷ 1000)) led) h
    = run fuel sdk (while_ cond (heartbeat_body 5 1000 (5000 ÷ 1000)) led') (h ++ l)
    /\ List.length (gpio_writes (calls l)) = (5 * n)%nat
    /\ count_heartbeats (calls l) = n.
Proof.
  intros C1. induction n as [|n IH]; intros fuel led h.
  - exists [], led. rewrite app_nil_r. repeat split.
  - rewrite run_while, (C1 led).
    replace (17 * S n + fuel)%nat with (16 + S (17 * n + fuel))%nat by lia.
    destruct (heartbeat_body_run (S (17 * n + fuel)) led h) as (l & led' & R & W & C).
    rewrite R, and_then_Returned.
    destruct (IH fuel led' (h ++ l)) as (l' & led'' & R' & W' & C').
    rewrite R'. exists (l ++ l'), led''. rewrite app_assoc.
    split; [reflexivity|].
    rewrite calls_app, gpio_writes_app, length_app, count_heartbeats_app, W, C, W', C'.
    split; lia.
Qed.

End Progress.

Lemma forallb_prefix_app {A} (f : A -> bool) (l1 l2 : list A) :
  forallb f (l1 ++ l2) = true -> forallb f l1 = true.
Proof. rewrite forallb_app. now intros [? ?]%andb_true_iff. Qed.

Section AppMainProgress.

Context `{H : sdk_headers}.
Variable sdk : sdk_t.

(** Either the start-up aborts, before any call of the loop, or the loop
    gets to any number of heartbeats, with five writes to the LED each. *)
Lemma app_main_progress (n : nat) :
  exists fuel,
    (exists rc,
        outcome_of (run fuel sdk app_main []) = Aborted rc
        /\ forallb (fun c => negb (in_heartbeat_loop c))
                   (calls (history_of (run fuel sdk app_main []))) = true)
    \/ (n <= count_heartbeats (calls (history_of (run fuel sdk app_main [])))
        /\ 5 * n <= List.length (gpio_writes (calls (history_of (run fuel sdk app_main [])))))%nat.
Proof.
  destruct (init_esp_run sdk 0 []) as (o1 & l1 & f0 & erase & R1 & Ho1).
  cbn [app] in R1.
  destruct o1 as [[]|rc1|]; [| |contradiction].
  2:{ exists (14 + 0)%nat. left. exists rc1.
      unfold app_main. rewrite run_bind, R1, and_then_Aborted.
      unfold outcome_of, history_of. cbn [fst snd].
      destruct Ho1 as [_ [rest Hr]]. split; [reflexivity|].
      apply (forallb_prefix_app _ _ rest). rewrite <- Hr. now destruct erase. }
  destruct (init_prov_run sdk 0 l1) as (o2 & l2 & g0 & mac & R2 & Ho2).
  apply (run_more_fuel sdk) with (k := (8 + (2 + 17 * n))%nat) in R1; [|discriminate].
  destruct o2 as [[]|rc2|]; [| |contradiction].
  2:{ apply (run_more_fuel sdk) with (k := (f0 + (2 + 17 * n))%nat) in R2; [|discriminate].
      exists (14 + 0 + (8 + (2 + 17 * n)))%nat. left. exists rc2.
      unfold app_main. rewrite run_bind, R1, and_then_Returned.
      replace (f0 + (8 + (2 + 17 * n)))%nat with (8 + 0 + (f0 + (2 + 17 * n)))%nat by lia.
      rewrite run_bind, R2, and_then_Aborted.
      unfold outcome_of, history_of. cbn [fst snd].
      destruct Ho2 as [_ [rest Hr]]. split; [reflexivity|].
      rewrite calls_app, forallb_app, Ho1. apply andb_true_iff. split.
      - now destruct erase.
      - apply (forallb_prefix_app _ _ rest). rewrite <- Hr. reflexivity. }
  apply (run_more_fuel sdk) with (k := (f0 + (2 + 17 * n))%nat) in R2; [|discriminate].
  exists (14 + 0 + (8 + (2 + 17 * n)))%nat. right.
  remember (run _ sdk app_main []) as res eqn:E.
  unfold app_main in E. cbv zeta in E.
  rewrite run_bind, R1, and_then_Returned in E.
  replace (f0 + (8 + (2 + 17 * n)))%nat with (8 + 0 + (f0 + (2 + 17 * n)))%nat in E by lia.
  rewrite run_bind, R2, and_then_Returned in E.
  replace (g0 + (f0 + (2 + 17 * n)))%nat with (S (S (17 * n + (g0 + f0))))%nat in E by lia.
  repeat run_step_in E.
  match type of E with
  | _ = and_then (run _ _ (while_ ?cond _ ?led) ?h4) _ =>
      destruct (heartbeat_loop_progress sdk cond n (fun _ => eq_refl) (g0 + f0) led h4)
        as (l & led' & R & W & C);
      destruct (run_history_grows sdk (g0 + f0)
                  (while_ cond (heartbeat_body 5 1000 (5000 ÷ 1000)) led') (h4 ++ l))
        as [l' Hl']
  end.
  rewrite R in E.
  assert (Hh : exists pre post, history_of res = pre ++ l ++ post).
  { destruct (run (g0 + f0) sdk _ _) as [[[s|rc|] hh] ff] eqn:Er'.
    all: unfold history_of in Hl'; cbn [fst snd] in Hl'; subst hh.
    all: rewrite ?and_then_Returned, ?and_then_Aborted, ?and_then_Running in E.
    all: try (rewrite run_Ret in E).
    all: subst res; unfold history_of; cbn [fst snd].
    all: eexists; exists l'; rewrite <- (app_assoc _ l l'); reflexivity. }
  destruct Hh as (pre & post & ->).
  rewrite !calls_app, !count_heartbeats_app, !gpio_writes_app, !length_app, W, C.
  split; lia.
Qed.

End AppMainProgress.

(** ** [app_main] *)


Section AppMainClaims.

Context `{H : sdk_headers}.

(** No leaf: whatever the SDK answers, [app_main] has no result to
    return. *)
Lemma app_main_no_leaf (r : unit) : ~ Leaf r app_main.
Proof.
  intros L. unfold app_main in L. cbv zeta in L.
  apply Leaf_bind_inv in L as (? & _ & L).
  apply Leaf_bind_inv in L as (? & _ & L).
  apply Leaf_bind_inv in L as (? & _ & L).
  apply Leaf_bind_inv in L as (? & _ & L).
  apply Leaf_bind_inv in L as (s & L & _).
  unfold while_ in L.
  refine (Leaf_iter_inv _ _ (fun _ => True) (fun _ => False) _ I s L).
  intros led lr _ Llr. change (c_true 1) with true in Llr. cbv iota in Llr.
  apply Leaf_bind_inv in Llr as (led' & _ & Llr).
  apply Leaf_Ret_inv in Llr. subst lr. exact I.
Qed.


End AppMainClaims.

(** ** The claims on concrete inputs *)

(** C6 on an SDK whose NVS partition is full until erased: [init_esp]
    erases, retries once and goes on with TCP/IP. *)
Lemma init_esp_erases_and_retries_once_witness :
  sdk_nvs_full [] nvs_flash_init = ESP_ERR_NVS_NO_FREE_PAGES
  /\ exists o h' fuel',
      run 14 sdk_nvs_full init_esp [] = (o, h', fuel')
      /\ firstn 4 (calls h')
         = [nvs_flash_init; nvs_flash_erase; nvs_flash_init; esp_netif_init].
Proof.
  split; [reflexivity|].
  assert (Full : sdk_nvs_full [] nvs_flash_init = ESP_ERR_NVS_NO_FREE_PAGES
                 \/ sdk_nvs_full [] nvs_flash_init = ESP_ERR_NVS_NEW_VERSION_FOUND)
    by (left; reflexivity).
  destruct (init_esp_erases_and_retries_once (H := esp_idf) sdk_nvs_full 0 [] Full)
    as (o & h' & fuel' & R & _ & _ & Hok).
  exists o, h', fuel'. split; [exact R|].
  destruct (Hok eq_refl eq_refl) as (l & -> & _). reflexivity.
Defined.

(** C8 with the 16 bytes of [init_prov]. *)
Lemma get_device_service_name_written_witness :
  (16 <= 16)%nat
  /\ exists rc mac written,
      run 1 sdk_ok (get_device_service_name 16) []
      = (Returned written, [answered (esp_wifi_get_mac WIFI_IF_STA) (rc, mac)], 0%nat)
      /\ List.length written = 16%nat
      /\ Libc.strlen written = 15.
Proof.
  split; [apply le_n|].
  destruct (get_device_service_name_written (H := esp_idf) sdk_ok 0 16 [] (le_n 16))
    as (rc & mac & written & R & _ & L & S).
  exists rc, mac, written. auto.
Defined.

(** The service name of the station 24:0A:C4:0A:FF:3C. *)
Example service_name_example :
  outcome_of (run 1 sdk_ok (get_device_service_name 16) [])
  = Returned (list_byte_of_string "Kaivac_0A_FF_3C" ++ [x00]).
Proof. reflexivity. Qed.

(** A buffer of 10 bytes gets the first 9 characters and the NUL. *)
Example service_name_truncated :
  outcome_of (run 1 sdk_ok (get_device_service_name 10) [])
  = Returned (list_byte_of_string "Kaivac_0A" ++ [x00]).
Proof. reflexivity. Qed.

Example fmt_02X_examples :
  Libc.fmt_02X 0 = "00" /\ Libc.fmt_02X 10 = "0A" /\ Libc.fmt_02X 255 = "FF"
  /\ Libc.fmt_02X 4660 = "1234".
Proof. repeat split. Qed.

(** The endpoint handler with and without memory. *)
Example custom_prov_data_handler_ok :
  outcome_of (run 3 sdk_ok (custom_prov_data_handler 1 None 0 None 0 0) [])
  = Returned {| ret := 0;
                outbuf := Some {| addr := 0x3ffb0000; contents := SUCCESS_bytes |};
                outlen := 8 |}.
Proof. reflexivity. Qed.

Example custom_prov_data_handler_no_mem :
  outcome_of (run 3 sdk_no_mem (custom_prov_data_handler 1 None 0 None 7 0) [])
  = Returned {| ret := 0x101; outbuf := None; outlen := 7 |}.
Proof. reflexivity. Qed.

(** The first calls of [app_main] when everything succeeds. *)
Example app_main_example :
  calls (history_of (run 40 sdk_ok app_main []))
  = startup_calls false (list_byte_of_string "Kaivac_0A_FF_3C" ++ [x00])
      ++ [ esp_log_write ESP_LOG_INFO "app"
             "===== ===== ===== < App Heartbeat > ===== ===== =====" [];
           gpio_set_level 5 0; vTaskDelay 100;
           gpio_set_level 5 1; vTaskDelay 100;
           gpio_set_level 5 0; vTaskDelay 100;
           gpio_set_level 5 1; vTaskDelay 100;
           gpio_set_level 5 0; vTaskDelay 100;
           esp_log_write ESP_LOG_INFO "app"
             "===== ===== ===== < App Heartbeat > ===== ===== =====" [];
           gpio_set_level 5 1; vTaskDelay 100 ].
Proof. vm_compute. reflexivity. Qed.

(** A failing check aborts [app_main] before the loop. *)
Example app_main_aborts :
  run 40 (fun h c => match c return ret_type c with
                     | esp_netif_init => 0x103
                     | c' => sdk_ok h c'
                     end) app_main []
  = (Aborted 0x103, [answered nvs_flash_init 0; answered esp_netif_init 0x103], 37%nat).
Proof. vm_compute. reflexivity. Qed.

(** * Further properties of the code *)

(** ** Stopping at the first failed check *)

Section FirstFailure.

Context `{H : sdk_headers}.

Lemma stopped_nil {R} (o : outcome R) :
  (forall rc, o <> Aborted rc) -> stopped_at_first_failure o [].
Proof. destruct o as [r|rc|]; intros N; [reflexivity | now destruct (N rc) | exact I]. Qed.

(** What was done before a part of the run that stopped at its first
    failure, if it passed, can be put in front. *)
Lemma stopped_app {R} (o : outcome R) (l1 l2 : history) :
  forallb passed l1 = true ->
  stopped_at_first_failure o l2 -> stopped_at_first_failure o (l1 ++ l2).
Proof.
  intros P1. destruct o as [r|rc|]; cbn.
  - intros P2. now rewrite forallb_app, P1, P2.
  - intros (l0 & e & -> & F & P0). exists (l1 ++ l0), e.
    rewrite <- app_assoc, forallb_app, P1, P0. auto.
  - auto.
Qed.

Lemma stops_Ret {R} (r : R) : stops_at_first_failure (Ret r).
Proof.
  intros sdk fuel h. exists []. rewrite run_Ret. cbn. now rewrite app_nil_r.
Qed.

(** A call whose result is not checked. *)
Lemma stops_call (c : call) : is_checked c = false -> stops_at_first_failure (do_call c).
Proof.
  intros U sdk [|fuel] h.
  - exists []. cbn. now rewrite app_nil_r.
  - exists [answered c (sdk h c)]. rewrite run_call.
    unfold history_of, outcome_of.
    cbn [fst snd stopped_at_first_failure forallb]. unfold passed.
    cbn [projT1 answered]. now rewrite U.
Qed.

Lemma stops_bind {R U} (t : prog R) (k : R -> prog U) :
  stops_at_first_failure t -> (forall r, stops_at_first_failure (k r)) ->
  stops_at_first_failure (ITree.bind t k).
Proof.
  intros Ft Fk sdk fuel h. rewrite run_bind.
  destruct (Ft sdk fuel h) as [l1 [Hl1 S1]].
  destruct (run fuel sdk t h) as [[[r|rc1|] h1] f1];
    unfold history_of, outcome_of in Hl1, S1; cbn [fst snd] in Hl1, S1; subst h1.
  - rewrite and_then_Returned.
    destruct (Fk r sdk f1 (h ++ l1)) as [l2 [Hl2 S2]].
    exists (l1 ++ l2). rewrite Hl2, app_assoc. split; [reflexivity|].
    now apply stopped_app.
  - rewrite and_then_Aborted. exists l1. auto.
  - rewrite and_then_Running. exists l1. auto.
Qed.

(** ESP_ERROR_CHECK around one call. *)
Lemma stops_check (c : call) (x : prog esp_err_t) :
  is_checked c = true ->
  (forall (sdk : sdk_t) (fuel : nat) (h : history),
      exists (r : ret_type c) (rc : esp_err_t),
        run (S fuel) sdk x h = (Returned rc, h ++ [answered c r], fuel)
        /\ esp_err_of (answered c r) = Some rc) ->
  (forall (sdk : sdk_t) (h : history), run 0 sdk x h = (Running, h, 0%nat)) ->
  stops_at_first_failure (ESP_ERROR_CHECK x).
Proof.
  intros C X X0 sdk [|fuel] h.
  - exists []. unfold ESP_ERROR_CHECK. rewrite run_bind, X0, and_then_Running.
    cbn. now rewrite app_nil_r.
  - unfold ESP_ERROR_CHECK. rewrite run_bind.
    destruct (X sdk fuel h) as (r & rc & Rx & Ee). rewrite Rx, and_then_Returned.
    exists [answered c r].
    destruct (Z.eqb_spec rc ESP_OK) as [OK|KO].
    + rewrite run_Ret. split; [reflexivity|].
      unfold outcome_of. cbn [fst stopped_at_first_failure forallb].
      unfold passed, answered_ok.
      rewrite Ee, OK, Z.eqb_refl, orb_true_r. reflexivity.
    + destruct fuel as [|fuel].
      * split; [reflexivity | exact I].
      * rewrite run_abort. split; [reflexivity|].
        exists [], (answered c r). repeat split; assumption.
Qed.

End FirstFailure.

Section FirstFailureLoops.

Context `{H : sdk_headers}.

Lemma stops_while {St} (cond : St -> bool) (body : St -> prog St) (s : St) :
  (forall s', stops_at_first_failure (body s')) ->
  stops_at_first_failure (while_ cond body s).
Proof.
  intros B sdk fuel. revert s.
  induction fuel as [fuel IH] using lt_wf_ind. intros s h.
  rewrite run_while. destruct (cond s).
  - destruct (B s sdk fuel h) as [l1 [Hl1 S1]].
    pose proof (run_fuel_le sdk fuel (body s) h) as L.
    destruct (run fuel sdk (body s) h) as [[[s'|rc1|] h1] f1];
      unfold history_of, outcome_of in Hl1, S1; cbn [fst snd] in Hl1, S1, L; subst h1.
    + rewrite and_then_Returned. destruct f1 as [|f1'].
      * exists l1. split; [reflexivity | exact I].
      * destruct (IH f1' ltac:(lia) s' (h ++ l1)) as [l2 [Hl2 S2]].
        exists (l1 ++ l2). rewrite Hl2, app_assoc. split; [reflexivity|].
        now apply stopped_app.
    + rewrite and_then_Aborted. exists l1. auto.
    + rewrite and_then_Running. exists l1. auto.
  - exists []. cbn. now rewrite app_nil_r.
Qed.

End FirstFailureLoops.

Ltac solve_stops :=
  repeat first
    [ apply stops_Ret
    | match goal with
      | |- stops_at_first_failure (do_call ?c) => exact (stops_call c eq_refl)
      | |- stops_at_first_failure (ESP_ERROR_CHECK (do_call ?c)) =>
          refine (stops_check c (do_call c) eq_refl _ (fun _ _ => eq_refl));
          let sdk := fresh "sdk" in
          let fuel := fresh "fuel" in
          let h := fresh "h" in
          intros sdk fuel h; exists (sdk h c), (sdk h c);
          split; [exact (run_call sdk fuel c h) | reflexivity]
      end
    | apply stops_bind; [| intros ?]
    | apply stops_while; intros ?
    | match goal with
      | |- stops_at_first_failure (if ?b then _ else _) => destruct b
      | |- stops_at_first_failure (match ?x with (_, _) => _ end) => destruct x
      end ].

Section StartUpAborts.

Context `{H : sdk_headers}.

(** The statements of [init_esp] after the first [nvs_flash_init]. *)
Lemma init_esp_rest_stops (ret : esp_err_t) :
  stops_at_first_failure
    ((if (ret =? ESP_ERR_NVS_NO_FREE_PAGES) || (ret =? ESP_ERR_NVS_NEW_VERSION_FOUND) then
        ESP_ERROR_CHECK (do_call nvs_flash_erase);;
        ESP_ERROR_CHECK (do_call nvs_flash_init)
      else skip);;
     init_esp_after_nvs).
Proof. unfold init_esp_after_nvs, skip. solve_stops. Qed.

Lemma init_prov_stops : stops_at_first_failure init_prov.
Proof. unfold init_prov, get_device_service_name, skip. solve_stops. Qed.

Lemma heartbeat_stops :
  stops_at_first_failure
    (do_call (gpio_reset_pin 5);;
     do_call (gpio_set_direction 5 GPIO_MODE_OUTPUT);;
     while_ (fun _ => c_true 1) (heartbeat_body 5 1000 (5000 ÷ 1000)) 0;;
     Ret tt).
Proof. unfold heartbeat_body, blink_body, ESP_LOGI. solve_stops. Qed.

End StartUpAborts.

Section StartUpOutcome.

Context `{H : sdk_headers}.

Lemma failed_not_passed (rc : esp_err_t) (e : entry) :
  failed_check rc e -> passed e = false.
Proof.
  intros (C & E & N). unfold passed, answered_ok. rewrite C, E.
  now apply Z.eqb_neq in N as ->.
Qed.

(** A run that stopped at its first failure returned exactly when all its
    calls passed, if it ended. *)
Lemma stopped_returned_iff {R} (o : outcome R) (l : history) :
  o <> Running -> stopped_at_first_failure o l ->
  ((exists r, o = Returned r) <-> forallb passed l = true).
Proof.
  destruct o as [r|rc|]; cbn; intros NR S; [| |contradiction].
  - split; [auto | eauto].
  - destruct S as (l0 & e & -> & F & _). split.
    + intros [r X]. discriminate X.
    + rewrite forallb_app. cbn. rewrite (failed_not_passed _ _ F), andb_false_r.
      discriminate.
Qed.

(** A program that stops at its first failed check and makes no checked
    call is not aborted. *)
Lemma stops_no_abort {R} (t : prog R) :
  stops_at_first_failure t -> emits (fun c => negb (is_checked c)) t ->
  forall (sdk : sdk_t) (fuel : nat) (h : history) (rc : esp_err_t),
    outcome_of (run fuel sdk t h) <> Aborted rc.
Proof.
  intros F E sdk fuel h rc A.
  destruct (E sdk fuel h) as [l2 [Hl2 Q]].
  destruct (F sdk fuel h) as [l [Hl S]].
  rewrite Hl in Hl2. apply app_inv_head in Hl2. subst l2.
  rewrite A in S. destruct S as (l0 & e & -> & (C & _) & _).
  rewrite calls_app, forallb_app in Q. apply andb_true_iff in Q as [_ Q].
  destruct e as [c r]. cbn in Q, C. rewrite C in Q. discriminate.
Qed.

Lemma init_esp_stops (sdk : sdk_t) (fuel : nat) (h : history) :
  exists l,
    history_of (run fuel sdk init_esp h) = h ++ l
    /\ match l with
       | [] => outcome_of (run fuel sdk init_esp h) = Running
       | e0 :: l' =>
           projT1 e0 = nvs_flash_init
           /\ stopped_at_first_failure (outcome_of (run fuel sdk init_esp h)) l'
       end.
Proof.
  destruct fuel as [|fuel].
  - exists []. cbn. now rewrite app_nil_r.
  - rewrite init_esp_split, run_bind, run_call, and_then_Returned.
    destruct (init_esp_rest_stops (sdk h nvs_flash_init) sdk fuel
                (h ++ [answered nvs_flash_init (sdk h nvs_flash_init)])) as [l' [Hl' S']].
    exists (answered nvs_flash_init (sdk h nvs_flash_init) :: l').
    rewrite Hl', <- app_assoc. auto.
Qed.

(** X10. A run of [init_esp] that has ended stopped at the first failed
    check.  After the first [nvs_flash_init], whose answer is not checked,
    it returned exactly when every call it made passed, that is, answered
    ESP_OK or has no error code to check; and when it was aborted, the last
    call is a checked call that answered an error, the abort carries that
    error code, and all calls before it passed. *)
Theorem init_esp_stops_at_first_failed_check :
  forall (sdk : sdk_t) (fuel : nat) (h : history) (o : outcome unit) (h' : history)
         (fuel' : nat),
    run fuel sdk init_esp h = (o, h', fuel') ->
    o <> Running ->
    exists (r0 : esp_err_t) (l : history),
      h' = h ++ answered nvs_flash_init r0 :: l
      /\ (o = Returned tt <-> forallb passed l = true)
      /\ (forall rc, o = Aborted rc ->
          exists l0 e, l = l0 ++ [e] /\ failed_check rc e /\ forallb passed l0 = true).
Proof.
  intros sdk fuel h o h' fuel' R NR.
  destruct (init_esp_stops sdk fuel h) as [l [Hl S]].
  rewrite R in Hl, S. unfold history_of, outcome_of in Hl, S. cbn [fst snd] in Hl, S.
  destruct l as [|[c r0] l']; [contradiction|]. destruct S as [C S]. cbn in C. subst c.
  exists r0, l'. split; [exact Hl|]. split.
  - rewrite <- (stopped_returned_iff o l' NR S). split; [eauto | now intros [[] X]].
  - intros rc ->. exact S.
Qed.

(** X12. A run of [init_prov] that has ended stopped at the first
    failed check: it returned exactly when every checked call it made
    answered ESP_OK, whatever [esp_wifi_get_mac] and
    [wifi_prov_mgr_endpoint_register] answered; and when it was aborted,
    the last call is a checked call that answered an error, the abort
    carries that error code, and all checked calls before it answered
    ESP_OK. *)
Theorem init_prov_stops_at_first_failed_check :
  forall (sdk : sdk_t) (fuel : nat) (h : history) (o : outcome unit) (h' : history)
         (fuel' : nat),
    run fuel sdk init_prov h = (o, h', fuel') ->
    o <> Running ->
    exists l : history,
      h' = h ++ l
      /\ (o = Returned tt <-> forallb passed l = true)
      /\ (forall rc, o = Aborted rc ->
          exists l0 e, l = l0 ++ [e] /\ failed_check rc e /\ forallb passed l0 = true).
Proof.
  intros sdk fuel h o h' fuel' R NR.
  destruct (init_prov_stops sdk fuel h) as [l [Hl S]].
  rewrite R in Hl, S. unfold history_of, outcome_of in Hl, S. cbn [fst snd] in Hl, S.
  exists l. split; [exact Hl|]. split.
  - rewrite <- (stopped_returned_iff o l NR S). split; [eauto | now intros [[] X]].
  - intros rc ->. exact S.
Qed.

Lemma init_esp_emits_start_up :
  emits (fun c => negb (in_heartbeat_loop c) && negb (is_gpio_call c)) init_esp.
Proof. unfold init_esp, ESP_ERROR_CHECK, skip. solve_emits. Qed.

Lemma init_prov_emits_start_up :
  emits (fun c => negb (in_heartbeat_loop c) && negb (is_gpio_call c)) init_prov.
Proof.
  unfold init_prov, get_device_service_name, ESP_ERROR_CHECK, skip. solve_emits.
Qed.

Lemma heartbeat_emits_unchecked :
  emits (fun c => negb (is_checked c))
    (do_call (gpio_reset_pin 5);;
     do_call (gpio_set_direction 5 GPIO_MODE_OUTPUT);;
     while_ (fun _ => c_true 1) (heartbeat_body 5 1000 (5000 ÷ 1000)) 0;;
     Ret tt).
Proof. unfold heartbeat_body, blink_body, ESP_LOGI. solve_emits. Qed.

(** X14. [app_main] aborts during the start-up only: when a run of it is
    aborted, the last call is a checked call of [init_esp] or [init_prov]
    that answered an error, the abort carries that error code, and no call
    to the GPIO, no delay and no log line has been made.  The results of
    the GPIO calls are never checked. *)
Theorem app_main_aborts_only_at_start_up :
  forall (sdk : sdk_t) (fuel : nat) (h : history) (rc : esp_err_t) (h' : history)
         (fuel' : nat),
    run fuel sdk app_main h = (Aborted rc, h', fuel') ->
    exists l0 e,
      h' = h ++ l0 ++ [e]
      /\ failed_check rc e
      /\ forallb (fun c => negb (in_heartbeat_loop c) && negb (is_gpio_call c))
                 (calls (l0 ++ [e])) = true.
Proof.
  intros sdk fuel h rc h' fuel' R.
  unfold app_main in R. cbv zeta in R. rewrite run_bind in R.
  destruct (init_esp_emits_start_up sdk fuel h) as [l1 [Hl1 Q1]].
  destruct (init_esp_stops sdk fuel h) as [l1' [Hl1' S1]].
  rewrite Hl1 in Hl1'. apply app_inv_head in Hl1'. subst l1'.
  destruct (run fuel sdk init_esp h) as [[[[]|rc1|] h1] f1];
    unfold history_of, outcome_of in Hl1, S1; cbn [fst snd] in Hl1, S1; subst h1.
  - rewrite and_then_Returned, run_bind in R.
    destruct (init_prov_emits_start_up sdk f1 (h ++ l1)) as [l2 [Hl2 Q2]].
    destruct (init_prov_stops sdk f1 (h ++ l1)) as [l2' [Hl2' S2]].
    rewrite Hl2 in Hl2'. apply app_inv_head in Hl2'. subst l2'.
    destruct (run f1 sdk init_prov (h ++ l1)) as [[[[]|rc2|] h2] f2];
      unfold history_of, outcome_of in Hl2, S2; cbn [fst snd] in Hl2, S2; subst h2.
    + rewrite and_then_Returned in R.
      exfalso. apply (stops_no_abort _ heartbeat_stops heartbeat_emits_unchecked
                        sdk f2 ((h ++ l1) ++ l2) rc).
      unfold outcome_of. now rewrite R.
    + rewrite and_then_Aborted in R. inversion R; subst.
      destruct S2 as (l0 & e & -> & F & _).
      exists (l1 ++ l0), e. rewrite <- !app_assoc. split; [reflexivity|].
      split; [exact F|]. rewrite calls_app, forallb_app, Q1, Q2. reflexivity.
    + rewrite and_then_Running in R. discriminate.
  - rewrite and_then_Aborted in R. inversion R; subst.
    destruct l1 as [|e0 l1']; [discriminate|]. destruct S1 as [_ (l0 & e & -> & F & _)].
    exists (e0 :: l0), e. split; [reflexivity|]. split; [exact F | exact Q1].
  - rewrite and_then_Running in R. discriminate.
Qed.

End StartUpOutcome.

(** ** The event handler, event by event *)

(** Split the negation of a disjunction of equalities. *)
Ltac split_not_or :=
  repeat match goal with
         | N : ~ (_ \/ _) |- _ => apply Decidable.not_or in N; destruct N
         | N : ~ False |- _ => clear N
         end.

(** Decide the condition at the head of the program being run. *)
Ltac cond_case_in E :=
  match type of E with
  | context [run _ _ (if (?a =? ?b) && (?c =? ?d) then _ else _) _] =>
      destruct (Z.eqb_spec a b); [destruct (Z.eqb_spec c d)|]; cbn [andb] in E
  | context [run _ _ (if ?a =? ?b then _ else _) _] => destruct (Z.eqb_spec a b)
  | context [run _ _ (if ?b then _ else _) _] => destruct b
  end.

Ltac pair_answer :=
  match goal with
  | r : (esp_err_t * bool)%type |- _ => destruct r as [? ?]; cbn [fst snd] in *
  end.

Ltac run_cases_in E := repeat first [run_step_in E | pair_answer | cond_case_in E].

Ltac in_list := solve [repeat first [left; reflexivity | right]].

Ltac not_in_list :=
  let X := fresh "X" in
  cbn [In]; intros X; repeat destruct X as [X|X]; solve [congruence | contradiction].

Section EventCases.

Context `{H : sdk_headers}.

Lemma event_handler_cases (sdk : sdk_t) (fuel : nat) (arg : Z)
      (event_base : esp_event_base_t) (event_id : Z) (event_data : event_data_t)
      (h : history) :
  exists o l fuel',
    run (5 + fuel) sdk (event_handler arg event_base event_id event_data) h
    = (o, h ++ l, fuel')
    /\ o <> Running
    /\ (List.length l <= 5)%nat
    /\ match l with
       | [] => ~ In (event_base, event_id) handled_events /\ o = Returned tt
       | e :: _ => In (event_base, event_id) handled_events /\ is_log_write (projT1 e) = true
       end
    /\ (existsb is_error_log (calls l) = true <-> In (event_base, event_id) error_events)
    /\ (forall rc, o = Aborted rc ->
        event_base = WIFI_EVENT /\ event_id = WIFI_EVENT_STA_START
        /\ rc <> ESP_OK
        /\ exists provisioned,
            l = [ answered (esp_log_write ESP_LOG_INFO TAG "WiFi Started in STA mode" []) tt;
                  answered wifi_prov_mgr_is_provisioned (rc, provisioned) ]).
Proof.
  pose proof event_bases_distinct. pose proof wifi_prov_labels_distinct.
  pose proof wifi_event_labels_distinct. pose proof ble_labels_distinct.
  pose proof session_labels_distinct.
  split_NoDup. split_not_or.
  remember (run _ _ _ _) as res eqn:E.
  unfold event_handler, switch, ESP_LOGI, ESP_LOGE, ESP_ERROR_CHECK,
    ESP_ERROR_CHECK_WITHOUT_ABORT, skip in E. cbn [Nat.add] in E.
  run_cases_in E; try (exfalso; congruence).
  all: rewrite <- ?app_assoc in E; cbn [app] in E.
  all: first [ (eexists; eexists; eexists; split; [exact E|])
             | (eexists; exists []; eexists; split; [rewrite app_nil_r; exact E|]) ].
  all: split; [discriminate|].
  all: split; [cbn; lia|].
  all: try subst event_base.
  all: try subst event_id.
  all: cbv beta iota.
  all: (split; [split; [first [in_list | not_in_list] | reflexivity]|]).
  all: (split;
        [unfold calls; cbn [List.map existsb projT1 answered is_error_log orb];
         first [ split; [intros _; in_list | reflexivity]
               | split; [discriminate | not_in_list] ]|]).
  all: intros rc X; try discriminate X.
  all: injection X as <-.
  all: (split; [reflexivity|]); (split; [reflexivity|]); (split; [assumption|]).
  all: match goal with u : unit |- _ => destruct u end.
  all: eexists; reflexivity.
Qed.

End EventCases.

Section EventProperties.

Context `{H : sdk_headers}.

(** X1. [event_handler] calls the SDK exactly on the fourteen events it
    has a case for.  On such an event its first call is a log line; on any
    other event, of a known base with an unknown id or of an unknown base,
    it returns without a call.  No event makes it call more than five
    times. *)
Theorem event_handler_calls_exactly_on_its_events :
  forall (sdk : sdk_t) (fuel : nat) (arg : Z) (event_base : esp_event_base_t)
         (event_id : Z) (event_data : event_data_t) (h : history),
  exists o l fuel',
    run (5 + fuel) sdk (event_handler arg event_base event_id event_data) h
    = (o, h ++ l, fuel')
    /\ (l <> [] <-> In (event_base, event_id) handled_events)
    /\ (l = [] -> o = Returned tt)
    /\ (forall e l', l = e :: l' -> is_log_write (projT1 e) = true)
    /\ (List.length l <= 5)%nat.
Proof.
  intros.
  destruct (event_handler_cases sdk fuel arg event_base event_id event_data h)
    as (o & l & f' & R & _ & L & M & _).
  exists o, l, f'. split; [exact R|].
  destruct l as [|e l'].
  - destruct M as [N O].
    split; [split; [intros X; now destruct X | intros I; contradiction]|].
    split; [intros _; exact O|]. split; [discriminate | exact L].
  - destruct M as [I W].
    split; [split; [intros _; exact I | discriminate]|].
    split; [discriminate|]. split; [|exact L].
    intros e0 l0 X. now injection X as <- <-.
Qed.

(** X2. [event_handler] writes a log line at the error level exactly on
    three events: WIFI_PROV_CRED_FAIL and the two failures of the security
    session, invalid security parameters and mismatched credentials.  On
    no other event does it write one. *)
Theorem event_handler_logs_errors_for_three_events :
  forall (sdk : sdk_t) (fuel : nat) (arg : Z) (event_base : esp_event_base_t)
         (event_id : Z) (event_data : event_data_t) (h : history),
  exists o l fuel',
    run (5 + fuel) sdk (event_handler arg event_base event_id event_data) h
    = (o, h ++ l, fuel')
    /\ (existsb is_error_log (calls l) = true <-> In (event_base, event_id) error_events).
Proof.
  intros.
  destruct (event_handler_cases sdk fuel arg event_base event_id event_data h)
    as (o & l & f' & R & _ & _ & _ & Err & _).
  exists o, l, f'. auto.
Qed.

(** X3. The only way [event_handler] aborts: the event is
    WIFI_EVENT_STA_START of WIFI_EVENT and [wifi_prov_mgr_is_provisioned]
    answered an error.  The abort carries that error code, and the handler
    has made two calls by then, the log line and the question. *)
Theorem event_handler_aborts_only_when_is_provisioned_fails :
  forall (sdk : sdk_t) (fuel : nat) (arg : Z) (event_base : esp_event_base_t)
         (event_id : Z) (event_data : event_data_t) (h : history)
         (rc : esp_err_t) (h' : history) (fuel' : nat),
    run fuel sdk (event_handler arg event_base event_id event_data) h
    = (Aborted rc, h', fuel') ->
    event_base = WIFI_EVENT /\ event_id = WIFI_EVENT_STA_START
    /\ rc <> ESP_OK
    /\ exists provisioned,
        h' = h ++ [ answered (esp_log_write ESP_LOG_INFO TAG "WiFi Started in STA mode" []) tt;
                    answered wifi_prov_mgr_is_provisioned (rc, provisioned) ].
Proof.
  intros sdk fuel arg event_base event_id event_data h rc h' fuel' R.
  apply (run_more_fuel sdk) with (k := 5%nat) in R; [|discriminate].
  destruct (event_handler_cases sdk fuel arg event_base event_id event_data h)
    as (o & l & f' & R' & _ & _ & _ & _ & A).
  rewrite Nat.add_comm, R' in R. injection R as -> <- _.
  destruct (A rc eq_refl) as (B & I & N & prov & ->). eauto.
Qed.

(** X4. [event_handler] looks behind [event_data] on three events only:
    WIFI_PROV_CRED_RECV, WIFI_PROV_CRED_FAIL and IP_EVENT_STA_GOT_IP.  On
    every other event it is the same program whatever [event_data] and
    [arg] are, so a null [event_data] does no harm there. *)
Theorem event_handler_ignores_event_data :
  forall (arg arg' : Z) (event_base : esp_event_base_t) (event_id : Z)
         (event_data event_data' : event_data_t),
    reads_event_data event_base event_id = false ->
    event_handler arg event_base event_id event_data
    = event_handler arg' event_base event_id event_data'.
Proof.
  intros arg arg' event_base event_id event_data event_data'.
  pose proof event_bases_distinct as D. split_NoDup. split_not_or.
  unfold reads_event_data, event_handler, switch.
  destruct (Z.eqb_spec event_base WIFI_PROV_EVENT) as [->|NP].
  - differ WIFI_PROV_EVENT IP_EVENT. cbn [andb orb].
    destruct (event_id =? WIFI_PROV_START); [reflexivity|].
    destruct (event_id =? WIFI_PROV_CRED_RECV); [discriminate|].
    destruct (event_id =? WIFI_PROV_CRED_FAIL); [discriminate|].
    reflexivity.
  - cbn [andb orb].
    destruct (event_base =? WIFI_EVENT); [reflexivity|].
    destruct (event_base =? IP_EVENT); cbn [andb]; [|reflexivity].
    destruct (event_id =? IP_EVENT_STA_GOT_IP); [discriminate | reflexivity].
Qed.

(** X5. On WIFI_PROV_CRED_RECV the handler makes one call and returns:
    an info log line whose arguments are the SSID and the password of the
    credentials received, as they are. *)
Theorem event_handler_logs_the_credentials :
  forall (sdk : sdk_t) (fuel : nat) (arg : Z) (event_data : event_data_t) (h : history),
    run (1 + fuel) sdk
        (event_handler arg WIFI_PROV_EVENT WIFI_PROV_CRED_RECV event_data) h
    = (Returned tt,
       h ++ [ answered
                (esp_log_write ESP_LOG_INFO TAG
                   "Received Wi-Fi credentials
	SSID     : %s
	Password : %s"
                   [ arg_cstr (ssid (as_wifi_sta_config event_data));
                     arg_cstr (password (as_wifi_sta_config event_data)) ]) tt ],
       fuel).
Proof.
  intros. pose proof wifi_prov_labels_distinct. split_NoDup. split_not_or.
  remember (run _ _ _ _) as res eqn:E.
  unfold event_handler, switch, ESP_LOGI in E. cbn [Nat.add] in E.
  rewrite Z.eqb_refl in E.
  run_cases_in E; try (exfalso; congruence).
  destruct r. exact E.
Qed.

(** X6. On WIFI_EVENT_STA_START of a provisioned device the handler
    calls [esp_wifi_connect].  A failure of the connection is reported,
    through ESP_ERROR_CHECK_WITHOUT_ABORT, and the handler returns all the
    same; a success is followed by nothing. *)
Theorem event_handler_connect_failure_is_not_fatal :
  forall (sdk : sdk_t) (fuel : nat) (arg : Z) (event_data : event_data_t) (h : history),
    let h1 := h ++ [answered (esp_log_write ESP_LOG_INFO TAG "WiFi Started in STA mode" []) tt] in
    let h2 := h1 ++ [ answered wifi_prov_mgr_is_provisioned (ESP_OK, true);
                      answered (esp_log_write ESP_LOG_INFO TAG
                                  "WiFi credentials are present, so attempt to connect" []) tt ] in
    let rc := sdk h2 esp_wifi_connect in
    sdk h1 wifi_prov_mgr_is_provisioned = (ESP_OK, true) ->
    exists fuel',
      run (5 + fuel) sdk (event_handler arg WIFI_EVENT WIFI_EVENT_STA_START event_data) h
      = (Returned tt,
         h2 ++ answered esp_wifi_connect rc
            :: (if rc =? ESP_OK then []
                else [answered (esp_error_check_failed_without_abort rc) tt]),
         fuel').
Proof.
  intros sdk fuel arg event_data h. cbv zeta. intros P.
  pose proof event_bases_distinct. pose proof wifi_event_labels_distinct.
  split_NoDup. split_not_or.
  remember (run _ _ _ _) as res eqn:E.
  unfold event_handler, switch, ESP_LOGI, ESP_ERROR_CHECK,
    ESP_ERROR_CHECK_WITHOUT_ABORT, skip in E. cbn [Nat.add] in E.
  rewrite (proj2 (Z.eqb_neq WIFI_EVENT WIFI_PROV_EVENT)) in E by congruence.
  rewrite !Z.eqb_refl in E.
  repeat run_step_in E. destruct r.
  rewrite P in Er0. subst r0. cbn [fst snd] in E. rewrite Z.eqb_refl in E.
  repeat run_step_in E. destruct r.
  rewrite <- ?app_assoc in *. cbn [app] in *. subst r0.
  match goal with
  | |- context [if ?rc =? ESP_OK then _ else _] => destruct (Z.eqb_spec rc ESP_OK)
  end; repeat run_step_in E.
  - rewrite <- ?app_assoc in E. cbn [app] in E. eexists. exact E.
  - destruct r. rewrite <- ?app_assoc in E. cbn [app] in E. eexists. exact E.
Qed.

End EventProperties.

(** ** The service name and its buffer *)

Lemma strlen_no_NUL (l : list byte) :
  forallb (fun b => negb (Byte.eqb b x00)) l = true ->
  Libc.strlen (l ++ [x00]) = Z.of_nat (List.length l).
Proof.
  induction l as [|b l IH]; [reflexivity|].
  cbn [forallb]. intros [Nb Nl]%andb_true_iff.
  cbn [app Libc.strlen List.length]. apply negb_true_iff in Nb. rewrite Nb, (IH Nl). lia.
Qed.

Lemma forallb_firstn {A} (f : A -> bool) (n : nat) (l : list A) :
  forallb f l = true -> forallb f (firstn n l) = true.
Proof.
  intros F. rewrite <- (firstn_skipn n l), forallb_app in F.
  now apply andb_true_iff in F as [F _].
Qed.

Lemma service_name_of_no_NUL (m : mac_addr) :
  forallb (fun b => negb (Byte.eqb b x00)) (list_byte_of_string (service_name_of m)) = true.
Proof.
  destruct m as [m0 m1 m2 m3 m4 m5]. unfold service_name_of, hex_pair.
  cbn -[hex_char Nat.div Nat.modulo Byte.eqb byte_of_ascii].
  rewrite !hex_char_not_NUL. reflexivity.
Qed.

Lemma hex_char_inj (d1 d2 : nat) :
  (d1 < 16)%nat -> (d2 < 16)%nat -> hex_char d1 = hex_char d2 -> d1 = d2.
Proof.
  intros L1 L2.
  do 16 (destruct d1 as [|d1]; [do 16 (destruct d2 as [|d2]; [first [reflexivity | discriminate]|]); lia|]).
  lia.
Qed.

Lemma hex_pair_inj (b1 b2 : byte) : hex_pair b1 = hex_pair b2 -> b1 = b2.
Proof.
  unfold hex_pair. cbv zeta.
  pose proof (Byte.to_N_bounded b1) as B1. pose proof (Byte.to_N_bounded b2) as B2.
  set (n1 := N.to_nat (Byte.to_N b1)). set (n2 := N.to_nat (Byte.to_N b2)).
  intros E.
  assert (E1 : hex_char (n1 / 16) = hex_char (n2 / 16)) by (injection E as X Y; exact X).
  assert (E2 : hex_char (n1 mod 16) = hex_char (n2 mod 16)) by (injection E as X Y; exact Y).
  clear E.
  assert (L1 : (n1 < 256)%nat) by (subst n1; lia).
  assert (L2 : (n2 < 256)%nat) by (subst n2; lia).
  apply hex_char_inj in E1;
    [|apply Nat.Div0.div_lt_upper_bound; lia | apply Nat.Div0.div_lt_upper_bound; lia].
  apply hex_char_inj in E2; [|apply Nat.mod_upper_bound; lia | apply Nat.mod_upper_bound; lia].
  assert (E : n1 = n2).
  { rewrite (Nat.div_mod_eq n1 16), (Nat.div_mod_eq n2 16), E1, E2. reflexivity. }
  subst n1 n2. apply N2Nat.inj in E.
  assert (S : Some b1 = Some b2) by (rewrite <- !Byte.of_to_N, E; reflexivity).
  now injection S.
Qed.

Lemma Returned_inj {R} (a b : R) : Returned a = Returned b -> a = b.
Proof. intros E. now injection E. Qed.

(** Where the three pairs of digits stand in the name. *)
Lemma service_name_of_pairs (m : mac_addr) :
  hex_pair (mac3 m) = substring 7 2 (service_name_of m)
  /\ hex_pair (mac4 m) = substring 10 2 (service_name_of m)
  /\ hex_pair (mac5 m) = substring 13 2 (service_name_of m).
Proof. destruct m. repeat split. Qed.

Section ServiceNameProperties.

Context `{H : sdk_headers}.

(** X7. [get_device_service_name] never writes past its buffer: with a
    buffer of [max] bytes it stores min(max, 16) bytes, nothing when [max]
    is 0 and otherwise the first [max - 1] characters of the name and a
    NUL, so that the string in the buffer has min(max - 1, 15) characters.
    It does so whatever error code [esp_wifi_get_mac] answered. *)
Theorem get_device_service_name_stays_in_buffer :
  forall (sdk : sdk_t) (fuel max : nat) (h : history),
  exists (rc : esp_err_t) (mac : mac_addr) (written : list byte),
    run (S fuel) sdk (get_device_service_name max) h
    = (Returned written, h ++ [answered (esp_wifi_get_mac WIFI_IF_STA) (rc, mac)], fuel)
    /\ List.length written = Nat.min max 16
    /\ written = match max with
                 | O => []
                 | S m => firstn m (list_byte_of_string (service_name_of mac)) ++ [x00]
                 end
    /\ Libc.strlen written = Z.of_nat (Nat.min (max - 1) 15).
Proof.
  intros sdk fuel max h.
  destruct (sdk h (esp_wifi_get_mac WIFI_IF_STA)) as [rc mac] eqn:A.
  exists rc, mac. eexists. split.
  - rewrite get_device_service_name_run, A. cbn [snd]. reflexivity.
  - destruct max as [|m]; [repeat split|].
    cbn [Libc.snprintf]. split; [|split; [reflexivity|]].
    + rewrite length_app, length_firstn, list_byte_of_string_length,
        service_name_of_length. cbn [List.length]. lia.
    + rewrite strlen_no_NUL by (apply forallb_firstn, service_name_of_no_NUL).
      rewrite length_firstn, list_byte_of_string_length, service_name_of_length.
      f_equal. lia.
Qed.

(** X8. With the 16 bytes of [init_prov], two runs of
    [get_device_service_name] write the same name exactly when the MAC
    addresses agree in their last three bytes: the name tells these bytes
    and nothing of the first three. *)
Theorem service_name_tells_the_last_three_bytes :
  forall (sdk1 sdk2 : sdk_t) (fuel1 fuel2 : nat) (h1 h2 : history),
    let mac1 := snd (sdk1 h1 (esp_wifi_get_mac WIFI_IF_STA)) in
    let mac2 := snd (sdk2 h2 (esp_wifi_get_mac WIFI_IF_STA)) in
    outcome_of (run (S fuel1) sdk1 (get_device_service_name 16) h1)
    = outcome_of (run (S fuel2) sdk2 (get_device_service_name 16) h2)
    <-> mac3 mac1 = mac3 mac2 /\ mac4 mac1 = mac4 mac2 /\ mac5 mac1 = mac5 mac2.
Proof.
  intros sdk1 sdk2 fuel1 fuel2 h1 h2. cbv zeta.
  rewrite !get_device_service_name_run. unfold outcome_of. cbn [fst].
  destruct (snd (sdk1 h1 (esp_wifi_get_mac WIFI_IF_STA))) as [a0 a1 a2 a3 a4 a5].
  destruct (snd (sdk2 h2 (esp_wifi_get_mac WIFI_IF_STA))) as [b0 b1 b2 b3 b4 b5].
  cbn [mac3 mac4 mac5].
  rewrite !snprintf_fits by (rewrite service_name_of_length; lia). split.
  - intros E. apply Returned_inj, app_inv_tail in E.
    match type of E with
    | list_byte_of_string ?s1 = list_byte_of_string ?s2 =>
        assert (S : s1 = s2)
          by (rewrite <- (string_of_list_byte_of_string s1), E;
              apply string_of_list_byte_of_string);
        destruct (service_name_of_pairs {| mac0 := a0; mac1 := a1; mac2 := a2;
                                           mac3 := a3; mac4 := a4; mac5 := a5 |})
          as (P3 & P4 & P5);
        destruct (service_name_of_pairs {| mac0 := b0; mac1 := b1; mac2 := b2;
                                           mac3 := b3; mac4 := b4; mac5 := b5 |})
          as (Q3 & Q4 & Q5)
    end.
    cbn [mac3 mac4 mac5] in *. rewrite S in P3, P4, P5.
    rewrite <- Q3 in P3. rewrite <- Q4 in P4. rewrite <- Q5 in P5.
    auto using hex_pair_inj.
  - intros (-> & -> & ->). reflexivity.
Qed.

End ServiceNameProperties.

(** ** The calls of the endpoint handler and of init_prov *)

Section EndpointCalls.

Context `{H : sdk_headers}.

(** X9. The calls of [custom_prov_data_handler], in order: a log line
    with the input length and the input, only when [inbuf] is not null;
    one [malloc] of 8 bytes; and a log line at the error level, only when
    that [malloc] answered null. *)
Theorem custom_prov_data_handler_calls :
  forall (sdk : sdk_t) (fuel : nat) (session_id : Z) (inbuf : uint8_ptr) (inlen : Z)
         (outbuf0 : uint8_ptr) (outlen0 priv_data : Z) (h : history),
  exists (r : handler_result) (l : history) (p : Z) (fuel' : nat),
    run (3 + fuel) sdk
        (custom_prov_data_handler session_id inbuf inlen outbuf0 outlen0 priv_data) h
    = (Returned r, h ++ l, fuel')
    /\ allocations l = [(8, p)]
    /\ calls l =
       match inbuf with
       | Some b => [esp_log_write ESP_LOG_INFO TAG "Received data: %.*s"
                      [arg_int inlen; arg_cstr (contents b)]]
       | None => []
       end
       ++ [malloc 8]
       ++ (if p =? NULL then [esp_log_write ESP_LOG_ERROR TAG "System out of memory" []]
           else []).
Proof.
  intros.
  remember (run _ _ _ _) as res eqn:E.
  unfold custom_prov_data_handler, strdup, ESP_LOGI, ESP_LOGE, skip in E.
  cbn [Nat.add] in E.
  destruct inbuf as [b|]; repeat run_step_in E.
  - destruct (r0 =? NULL) eqn:Ez; repeat run_step_in E;
      rewrite <- !app_assoc in E;
      eexists; eexists; exists r0; eexists; rewrite Ez;
      (split; [exact E | split; reflexivity]).
  - destruct (r =? NULL) eqn:Ez; repeat run_step_in E;
      rewrite <- ?app_assoc in E;
      eexists; eexists; exists r; eexists; rewrite Ez;
      (split; [exact E | split; reflexivity]).
Qed.

End EndpointCalls.

Section InitProvProperties.

Context `{H : sdk_headers}.

(** X13. When [init_prov] starts the provisioning, it does so with
    security 1, the proof of possession abcd1234, no service key, and as
    service name the whole name made from the MAC address that
    [esp_wifi_get_mac] answered earlier in the same run.  The endpoint
    custom-data has been created before, its handler has not been
    registered yet, and the registration is the only call that may
    follow. *)
Theorem init_prov_starts_under_the_device_name :
  forall (sdk : sdk_t) (fuel : nat) (h : history),
  exists o l fuel',
    run (8 + fuel) sdk init_prov h = (o, h ++ l, fuel')
    /\ forall security pop service_name service_key l1 l2,
        calls l = l1 ++ wifi_prov_mgr_start_provisioning security pop service_name service_key
                     :: l2 ->
        security = WIFI_PROV_SECURITY_1 /\ pop = "abcd1234" /\ service_key = NULL
        /\ (exists rc mac,
               In (answered (esp_wifi_get_mac WIFI_IF_STA) (rc, mac)) l
               /\ service_name = list_byte_of_string (service_name_of mac) ++ [x00])
        /\ In (wifi_prov_mgr_endpoint_create "custom-data") l1
        /\ ~ In (wifi_prov_mgr_endpoint_register "custom-data" fn_custom_prov_data_handler NULL) l1
        /\ (l2 = []
            \/ l2 = [wifi_prov_mgr_endpoint_register "custom-data"
                       fn_custom_prov_data_handler NULL]).
Proof.
  intros sdk fuel h.
  remember (run _ _ _ _) as res eqn:E.
  unfold init_prov, ESP_ERROR_CHECK, skip in E. cbn [Nat.add] in E.
  repeat run_step_in E.
  destruct (Z.eqb_spec r ESP_OK).
  2:{ repeat run_step_in E.
      eexists; eexists; eexists. split; [exact E|].
      intros security pop service_name service_key l1 l2 C. exfalso.
      cbn in C. destruct l1 as [|? [|? ?]]; discriminate C. }
  repeat run_step_in E.
  rewrite get_device_service_name_run, and_then_Returned in E. cbv beta in E.
  remember (sdk _ (esp_wifi_get_mac _)) as m eqn:Em. destruct m as [rcm mac].
  cbn [snd] in E.
  rewrite snprintf_fits in E by (rewrite service_name_of_length; lia).
  repeat (repeat run_step_in E;
          match type of E with
          | context [if ?r =? ESP_OK then _ else _] =>
              destruct (Z.eqb_spec r ESP_OK)
          end);
    repeat run_step_in E;
    rewrite <- ?app_assoc in E; cbn [app] in E;
    (eexists; eexists; eexists; split; [exact E|]);
    intros security pop service_name service_key l1 l2 C;
    unfold calls in C; cbn [List.map projT1 answered] in C;
    repeat (destruct l1 as [|? l1]; cbn [app] in C;
            [ first [discriminate C | idtac]
            | first [discriminate C | injection C as ? C] ]).
  all: injection C as <- <- <- <- <-; subst.
  all: repeat split; try (right; reflexivity); try (left; reflexivity).
  all: try (exists rcm, mac; split; [in_list | reflexivity]).
  all: try in_list.
  all: cbn [In]; intros X; repeat destruct X as [X|X]; solve [discriminate X | contradiction].
Qed.

End InitProvProperties.

(** ** The order of the calls of init_esp *)

(** Find the place of a call in a list of calls that is known. *)
Ltac find_call C l1 :=
  repeat (destruct l1 as [|? l1]; cbn [app] in C;
          [ first [discriminate C | idtac]
          | first [discriminate C | injection C as ? C] ]).

Section InitEspOrder.

Context `{H : sdk_headers}.

(** X11. [init_esp] initialises the Wi-Fi driver last.  When
    [esp_wifi_init] is called, TCP/IP and the event loop have been
    initialised, [event_handler] has been registered five times, for any
    id of four bases and for IP_EVENT_STA_GOT_IP alone of IP_EVENT, the
    station interface has been created, and no call follows. *)
Theorem init_esp_initialises_wifi_last :
  forall (sdk : sdk_t) (fuel : nat) (h : history),
  exists o l fuel',
    run (14 + fuel) sdk init_esp h = (o, h ++ l, fuel')
    /\ forall l1 cfg l2,
        calls l = l1 ++ esp_wifi_init cfg :: l2 ->
        l2 = []
        /\ registrations l1 =
           [ (WIFI_PROV_EVENT, ESP_EVENT_ANY_ID, fn_event_handler);
             (PROTOCOMM_TRANSPORT_BLE_EVENT, ESP_EVENT_ANY_ID, fn_event_handler);
             (PROTOCOMM_SECURITY_SESSION_EVENT, ESP_EVENT_ANY_ID, fn_event_handler);
             (WIFI_EVENT, ESP_EVENT_ANY_ID, fn_event_handler);
             (IP_EVENT, IP_EVENT_STA_GOT_IP, fn_event_handler) ]
        /\ (exists l0, l1 = l0 ++ [esp_netif_create_default_wifi_sta]
                       /\ In esp_netif_init l0 /\ In esp_event_loop_create_default l0).
Proof.
  intros sdk fuel h.
  destruct (init_esp_run sdk fuel h) as (o & l & f' & erase & R & Ho).
  exists o, l, f'. split; [exact R|].
  intros l1 cfg l2 C.
  assert (P : exists rest, init_esp_calls erase = l1 ++ esp_wifi_init cfg :: l2 ++ rest).
  { destruct o as [[]|rc|]; [| |contradiction].
    - exists []. now rewrite app_nil_r, <- C.
    - destruct Ho as [_ [rest Hr]]. exists rest.
      now rewrite Hr, C, <- app_assoc. }
  destruct P as [rest P].
  unfold init_esp_calls, init_esp_after_nvs_calls in P.
  destruct erase; cbn [app] in P; find_call P l1.
  all: injection P as <- P; subst.
  all: symmetry in P; apply app_eq_nil in P as [-> _].
  all: split; [reflexivity|]; split; [reflexivity|].
  all: match goal with
       | |- exists l0, ?l1 = l0 ++ _ /\ _ => exists (removelast l1)
       end.
  all: split; [reflexivity | split; cbn [removelast]; in_list].
Qed.

End InitEspOrder.

(** ** The heartbeat and the LED in step *)

Lemma delays_app (l1 l2 : list call) : delays (l1 ++ l2) = delays l1 ++ delays l2.
Proof. apply flat_map_app. Qed.

Lemma repeat_snoc {A} (x : A) (n : nat) : repeat x n ++ [x] = repeat x (S n).
Proof. induction n as [|n IH]; [reflexivity|]. cbn. now rewrite IH. Qed.

Section InStepProof.

Context `{H : sdk_headers}.

Lemma in_step_of_tally (h : history) (writes beats sleeps : nat) :
  tally h writes beats sleeps ->
  (writes <= 5 * beats <= writes + 5)%nat ->
  (sleeps <= writes <= sleeps + 1)%nat ->
  in_step h.
Proof.
  intros (W & B & D) L1 L2. unfold in_step. cbv zeta.
  rewrite W, B, D, repeat_length. repeat split; try lia.
  apply Forall_forall. intros t I. now apply repeat_spec in I.
Qed.

Lemma tally_write (h : history) (pin level r : Z) (writes beats sleeps : nat) :
  tally h writes beats sleeps ->
  tally (h ++ [answered (gpio_set_level pin level) r]) (S writes) beats sleeps.
Proof.
  intros (W & B & D). unfold tally.
  rewrite calls_snoc, gpio_writes_app, count_heartbeats_app, delays_app, length_app, W, B, D.
  cbn. rewrite app_nil_r. repeat split; lia.
Qed.

Lemma tally_sleep (h : history) (r : unit) (writes beats sleeps : nat) :
  tally h writes beats sleeps ->
  tally (h ++ [answered (vTaskDelay (1000 ÷ portTICK_PERIOD_MS)) r]) writes beats (S sleeps).
Proof.
  intros (W & B & D). unfold tally.
  rewrite calls_snoc, gpio_writes_app, count_heartbeats_app, delays_app, length_app, W, B, D.
  cbn -[Z.quot repeat]. rewrite repeat_snoc. repeat split; lia.
Qed.

Lemma tally_beat (h : history) (r : unit) (writes beats sleeps : nat) :
  tally h writes beats sleeps ->
  tally (h ++ [answered (esp_log_write ESP_LOG_INFO TAG
                           "===== ===== ===== < App Heartbeat > ===== ===== =====" []) r])
        writes (S beats) sleeps.
Proof.
  intros (W & B & D). unfold tally.
  rewrite calls_snoc, gpio_writes_app, count_heartbeats_app, delays_app, length_app, W, B, D.
  cbn. rewrite app_nil_r. repeat split; lia.
Qed.

Lemma tally_other (h l : history) (writes beats sleeps : nat) :
  forallb (fun c => negb (in_heartbeat_loop c)) (calls l) = true ->
  tally h writes beats sleeps -> tally (h ++ l) writes beats sleeps.
Proof.
  intros N (W & B & D). unfold tally.
  rewrite calls_app, gpio_writes_app, count_heartbeats_app, delays_app, length_app, W, B, D.
  assert (Z : gpio_writes (calls l) = [] /\ count_heartbeats (calls l) = 0%nat
              /\ delays (calls l) = []).
  { clear -N. induction (calls l) as [|c cs IH]; [repeat split|].
    cbn [forallb] in N. apply andb_true_iff in N as [Nc Ncs].
    destruct (IH Ncs) as (Z1 & Z2 & Z3).
    change (c :: cs) with ([c] ++ cs).
    rewrite gpio_writes_app, count_heartbeats_app, delays_app, Z1, Z2, Z3.
    destruct c; try discriminate Nc; repeat split. }
  destruct Z as (-> & -> & ->). rewrite !app_nil_r. cbn. repeat split; lia.
Qed.

Variable sdk : sdk_t.

Lemma blink_body_in_step (i led : Z) (beats : nat) (n : nat) (h : history) :
  i = Z.of_nat n -> (n < 5)%nat ->
  tally h (5 * beats + n) (S beats) (5 * beats + n) ->
  maintains sdk in_step (blink_body 5 1000 (i, led)) h
            (fun s h' => fst s = Z.of_nat (S n)
                         /\ tally h' (5 * beats + S n) (S beats) (5 * beats + S n)).
Proof.
  intros -> L T. unfold blink_body. cbv zeta.
  apply maintains_bind
    with (Mid := fun _ h' => tally h' (S (5 * beats + n)) (S beats) (5 * beats + n)).
  - maintains_call_step.
    + apply (in_step_of_tally _ _ _ _ T); lia.
    + apply (in_step_of_tally _ _ _ _ (tally_write _ _ _ _ _ _ _ T)); lia.
    + apply tally_write, T.
  - intros _ h' T'.
    apply maintains_bind
      with (Mid := fun _ h'' => tally h'' (S (5 * beats + n)) (S beats) (S (5 * beats + n))).
    + maintains_call_step.
      * apply (in_step_of_tally _ _ _ _ T'); lia.
      * apply (in_step_of_tally _ _ _ _ (tally_sleep _ _ _ _ _ T')); lia.
      * apply tally_sleep, T'.
    + intros _ h'' T''. apply maintains_Ret.
      * apply (in_step_of_tally _ _ _ _ T''); lia.
      * cbn [fst]. split; [lia|]. now rewrite <- !plus_n_Sm.
Qed.

Lemma heartbeat_body_in_step (led : Z) (beats : nat) (h : history) :
  tally h (5 * beats) beats (5 * beats) ->
  maintains sdk in_step (heartbeat_body 5 1000 (5000 ÷ 1000) led) h
            (fun _ h' => tally h' (5 * S beats) (S beats) (5 * S beats)).
Proof.
  intros T. unfold heartbeat_body, ESP_LOGI.
  apply maintains_bind with (Mid := fun _ h' => tally h' (5 * beats) (S beats) (5 * beats)).
  - maintains_call_step.
    + apply (in_step_of_tally _ _ _ _ T); lia.
    + apply (in_step_of_tally _ _ _ _ (tally_beat _ _ _ _ _ T)); lia.
    + apply tally_beat, T.
  - intros _ h' T'.
    eapply maintains_bind.
    + apply maintains_while
        with (Inv := fun (s : Z * Z) h'' =>
                       exists n, fst s = Z.of_nat n /\ (n <= 5)%nat
                                 /\ tally h'' (5 * beats + n) (S beats) (5 * beats + n)).
      * intros s h'' (n & _ & L & T''). apply (in_step_of_tally _ _ _ _ T''); lia.
      * intros [i led'] h'' (n & Ei & L & T'') C. cbn [fst] in Ei, C.
        change (5000 ÷ 1000) with 5 in C. apply Z.ltb_lt in C.
        eapply maintains_weaken.
        -- apply (blink_body_in_step i led' beats n h'' Ei); [lia | exact T''].
        -- cbv beta. intros s h3 [Es T3]. exists (S n). repeat split; [exact Es | lia | | |];
             apply T3.
      * exists 0%nat. rewrite Nat.add_0_r. repeat split; [lia | | |]; apply T'.
    + cbv beta. intros s h'' [(n & Ei & L & T'') C]. cbn [fst] in C.
      change (5000 ÷ 1000) with 5 in C. apply Z.ltb_ge in C.
      assert (n = 5%nat) by lia. subst n.
      apply maintains_Ret.
      * apply (in_step_of_tally _ _ _ _ T''); lia.
      * replace (5 * S beats)%nat with (5 * beats + 5)%nat by lia. exact T''.
Qed.

Lemma app_main_in_step : maintains sdk in_step app_main [] (fun _ _ => False).
Proof.
  assert (Init : forall {R} (t : prog R) h,
             emits (fun c => negb (in_heartbeat_loop c)) t ->
             tally h 0 0 0 ->
             maintains sdk in_step t h (fun _ h' => tally h' 0 0 0)).
  { intros R t h E T.
    eapply maintains_weaken.
    - apply (maintains_of_emits sdk in_step _ t h E).
      intros l Ql. apply (in_step_of_tally _ _ _ _ (tally_other _ _ _ _ _ Ql T)); lia.
    - cbv beta. intros _ h' (l & -> & Ql). now apply tally_other. }
  unfold app_main. cbv zeta.
  eapply maintains_bind; [apply Init; [apply init_esp_emits | repeat split]|].
  intros ? h1 T1.
  eapply maintains_bind; [apply Init; [apply init_prov_emits | assumption]|].
  intros ? h2 T2.
  eapply maintains_bind; [apply Init; [apply emits_call; reflexivity | assumption]|].
  intros ? h3 T3.
  eapply maintains_bind; [apply Init; [apply emits_call; reflexivity | assumption]|].
  intros ? h4 T4.
  eapply maintains_bind.
  - apply maintains_while
      with (Inv := fun (_ : Z) h' => exists beats, tally h' (5 * beats) beats (5 * beats)).
    + intros s h' [beats T]. apply (in_step_of_tally _ _ _ _ T); lia.
    + intros led h' [beats T] _.
      eapply maintains_weaken; [apply heartbeat_body_in_step, T|].
      cbv beta. intros ? h'' T'. now exists (S beats).
    + now exists 0%nat.
  - cbv beta. intros s h' [_ C]. discriminate C.
Qed.

End InStepProof.

Section InStepTheorem.

Context `{H : sdk_headers}.

(** X15. In every run of [app_main] the LED and the heartbeat stay in
    step: each heartbeat line is followed by five writes to the LED before
    the next line, each write by one delay before the next write, and
    every delay is of 1000 ms divided by portTICK_PERIOD_MS ticks. *)
Theorem app_main_keeps_led_and_heartbeat_in_step :
  forall (sdk : sdk_t) (fuel : nat), in_step (history_of (run fuel sdk app_main [])).
Proof.
  intros sdk. exact (maintains_history sdk _ _ _ _ (app_main_in_step sdk)).
Qed.

End InStepTheorem.

(** ** The pin is configured before it is driven *)

Lemma filter_gpio_none (l : list call) :
  forallb (fun c => negb (in_heartbeat_loop c) && negb (is_gpio_call c)) l = true ->
  filter is_gpio_call l = [].
Proof.
  induction l as [|c l IH]; [reflexivity|]. cbn [forallb filter].
  intros [Nc Nl]%andb_true_iff. apply andb_true_iff in Nc as [_ Nc].
  apply negb_true_iff in Nc. rewrite Nc. auto.
Qed.

Lemma filter_gpio_loop (l : list call) :
  forallb in_heartbeat_loop l = true ->
  forallb is_gpio_set_level (filter is_gpio_call l) = true.
Proof.
  induction l as [|c l IH]; [reflexivity|]. cbn [forallb filter].
  intros [Nc Nl]%andb_true_iff.
  destruct c; try discriminate Nc; cbn; auto.
Qed.

Section GpioProtocolProof.

Context `{H : sdk_headers}.

Lemma heartbeat_body_emits (led : Z) :
  emits in_heartbeat_loop (heartbeat_body 5 1000 (5000 ÷ 1000) led).
Proof. unfold heartbeat_body, blink_body, ESP_LOGI. solve_emits. Qed.

Variable sdk : sdk_t.

Lemma app_main_gpio_protocol :
  maintains sdk (fun h => gpio_protocol (calls h)) app_main [] (fun _ _ => False).
Proof.
  assert (Init : forall {R} (t : prog R) h,
             emits (fun c => negb (in_heartbeat_loop c) && negb (is_gpio_call c)) t ->
             filter is_gpio_call (calls h) = [] ->
             maintains sdk (fun h => gpio_protocol (calls h)) t h
                       (fun _ h' => filter is_gpio_call (calls h') = [])).
  { intros R t h E F.
    assert (W : forall l,
               forallb (fun c => negb (in_heartbeat_loop c) && negb (is_gpio_call c))
                       (calls l) = true ->
               filter is_gpio_call (calls (h ++ l)) = []).
    { intros l Ql. now rewrite calls_app, filter_app, F, (filter_gpio_none _ Ql). }
    eapply maintains_weaken.
    - apply (maintains_of_emits sdk _ _ t h E).
      intros l Ql. unfold gpio_protocol. now rewrite (W l Ql).
    - cbv beta. intros ? h' (l & -> & Ql). now apply W. }
  unfold app_main. cbv zeta.
  eapply maintains_bind; [apply Init; [apply init_esp_emits_start_up | reflexivity]|].
  intros ? h1 F1.
  eapply maintains_bind; [apply Init; [apply init_prov_emits_start_up | assumption]|].
  intros ? h2 F2.
  eapply maintains_bind
    with (Mid := fun _ h' => filter is_gpio_call (calls h') = [gpio_reset_pin 5]).
  { maintains_call_step.
    - unfold gpio_protocol. now rewrite F2.
    - unfold gpio_protocol. rewrite calls_snoc, filter_app, F2. reflexivity.
    - rewrite calls_snoc, filter_app, F2. reflexivity. }
  intros ? h3 F3.
  eapply maintains_bind
    with (Mid := fun _ h' => filter is_gpio_call (calls h')
                             = [gpio_reset_pin 5; gpio_set_direction 5 GPIO_MODE_OUTPUT]).
  { maintains_call_step.
    - unfold gpio_protocol. now rewrite F3.
    - unfold gpio_protocol. rewrite calls_snoc, filter_app, F3. repeat split.
    - rewrite calls_snoc, filter_app, F3. reflexivity. }
  intros ? h4 F4.
  eapply maintains_bind.
  - apply maintains_while
      with (Inv := fun (_ : Z) h' =>
                     exists writes,
                       filter is_gpio_call (calls h')
                       = gpio_reset_pin 5 :: gpio_set_direction 5 GPIO_MODE_OUTPUT :: writes
                       /\ forallb is_gpio_set_level writes = true).
    + intros s h' (writes & F & W). unfold gpio_protocol. rewrite F. auto.
    + intros led h' (writes & F & W) _.
      assert (G : forall l, forallb in_heartbeat_loop (calls l) = true ->
                  exists writes',
                    filter is_gpio_call (calls (h' ++ l))
                    = gpio_reset_pin 5 :: gpio_set_direction 5 GPIO_MODE_OUTPUT :: writes'
                    /\ forallb is_gpio_set_level writes' = true).
      { intros l Ql. exists (writes ++ filter is_gpio_call (calls l)).
        rewrite calls_app, filter_app, F, forallb_app, W, (filter_gpio_loop _ Ql).
        split; reflexivity. }
      eapply maintains_weaken.
      * apply (maintains_of_emits sdk _ _ _ h' (heartbeat_body_emits led)).
        intros l Ql. destruct (G l Ql) as (writes' & F' & W').
        unfold gpio_protocol. rewrite F'. auto.
      * cbv beta. intros ? h'' (l & -> & Ql). exact (G l Ql).
    + exists []. split; [exact F4 | reflexivity].
  - cbv beta. intros s h' [_ C]. discriminate C.
Qed.

End GpioProtocolProof.

Section GpioProtocolTheorem.

Context `{H : sdk_headers}.

(** X16. [app_main] configures the pin of the LED before it drives it: in
    every run the calls to the GPIO are a reset of pin 5, then the setting
    of pin 5 to an output, each made once, and after them only writes of a
    level. *)
Theorem app_main_configures_the_pin_first :
  forall (sdk : sdk_t) (fuel : nat),
    gpio_protocol (calls (history_of (run fuel sdk app_main []))).
Proof.
  intros sdk.
  exact (maintains_history sdk _ _ _ _ (app_main_gpio_protocol sdk)).
Qed.

End GpioProtocolTheorem.

(** ** The further properties on concrete inputs *)

(** X3 on an SDK whose provisioning manager fails: the handler aborts on
    WIFI_EVENT_STA_START. *)
Lemma event_handler_aborts_only_when_is_provisioned_fails_witness :
  run 5 sdk_manager_fails
      (event_handler 0 WIFI_EVENT WIFI_EVENT_STA_START no_event_data) []
  = (Aborted 0x103,
     [ answered (esp_log_write ESP_LOG_INFO TAG "WiFi Started in STA mode" []) tt;
       answered wifi_prov_mgr_is_provisioned (0x103, false) ], 2%nat)
  /\ (WIFI_EVENT = WIFI_EVENT /\ WIFI_EVENT_STA_START = WIFI_EVENT_STA_START
      /\ 0x103 <> ESP_OK
      /\ exists provisioned,
          [ answered (esp_log_write ESP_LOG_INFO TAG "WiFi Started in STA mode" []) tt;
            answered wifi_prov_mgr_is_provisioned (0x103, false) ]
          = [] ++ [ answered (esp_log_write ESP_LOG_INFO TAG "WiFi Started in STA mode" []) tt;
                    answered wifi_prov_mgr_is_provisioned (0x103, provisioned) ]).
Proof.
  split; [reflexivity|].
  apply (event_handler_aborts_only_when_is_provisioned_fails (H := esp_idf)
           sdk_manager_fails 5 0 WIFI_EVENT WIFI_EVENT_STA_START no_event_data []
           0x103 _ 2%nat).
  reflexivity.
Defined.

(** X4 on WIFI_EVENT_STA_DISCONNECTED, with and without credentials behind
    [event_data]. *)
Lemma event_handler_ignores_event_data_witness :
  reads_event_data WIFI_EVENT WIFI_EVENT_STA_DISCONNECTED = false
  /\ event_handler 0 WIFI_EVENT WIFI_EVENT_STA_DISCONNECTED no_event_data
     = event_handler 1 WIFI_EVENT WIFI_EVENT_STA_DISCONNECTED
         {| as_wifi_sta_config := {| ssid := [x61]; password := [x62] |};
            as_fail_reason := 1;
            as_got_ip := 16777343 |}.
Proof.
  split; [reflexivity|].
  apply (event_handler_ignores_event_data (H := esp_idf)). reflexivity.
Defined.

(** X6 on an SDK whose [esp_wifi_connect] fails: the failure is reported
    and the handler returns. *)
Lemma event_handler_connect_failure_is_not_fatal_witness :
  sdk_connect_fails
    [answered (esp_log_write ESP_LOG_INFO TAG "WiFi Started in STA mode" []) tt]
    wifi_prov_mgr_is_provisioned = (ESP_OK, true)
  /\ exists fuel',
      run 5 sdk_connect_fails
          (event_handler 0 WIFI_EVENT WIFI_EVENT_STA_START no_event_data) []
      = (Returned tt,
         [ answered (esp_log_write ESP_LOG_INFO TAG "WiFi Started in STA mode" []) tt;
           answered wifi_prov_mgr_is_provisioned (ESP_OK, true);
           answered (esp_log_write ESP_LOG_INFO TAG
                       "WiFi credentials are present, so attempt to connect" []) tt;
           answered esp_wifi_connect 0x3002;
           answered (esp_error_check_failed_without_abort 0x3002) tt ],
         fuel').
Proof.
  split; [reflexivity|].
  exact (event_handler_connect_failure_is_not_fatal (H := esp_idf)
           sdk_connect_fails 0 0 no_event_data [] eq_refl).
Defined.

(** X10 on an SDK whose [esp_netif_init] fails: [init_esp] is aborted
    right after it. *)
Lemma init_esp_stops_at_first_failed_check_witness :
  run 14 sdk_netif_fails init_esp []
  = (Aborted 0x103, [answered nvs_flash_init 0; answered esp_netif_init 0x103], 11%nat)
  /\ (Aborted 0x103 : outcome unit) <> Running
  /\ exists (r0 : esp_err_t) (l : history),
      [answered nvs_flash_init 0; answered esp_netif_init 0x103]
      = [] ++ answered nvs_flash_init r0 :: l
      /\ forall rc, (Aborted 0x103 : outcome unit) = Aborted rc ->
                    exists l0 e, l = l0 ++ [e] /\ failed_check rc e
                                 /\ forallb passed l0 = true.
Proof.
  split; [reflexivity|]. split; [discriminate|].
  destruct (init_esp_stops_at_first_failed_check (H := esp_idf) sdk_netif_fails 14 []
              (Aborted 0x103) _ 11%nat eq_refl ltac:(discriminate))
    as (r0 & l & E & _ & A).
  exists r0, l. split; [exact E | exact A].
Defined.

(** X12 on an SDK in which every call succeeds: [init_prov] returns and
    all its calls passed. *)
Lemma init_prov_stops_at_first_failed_check_witness :
  run 8 sdk_ok init_prov []
  = (Returned tt, history_of (run 8 sdk_ok init_prov []), 1%nat)
  /\ (Returned tt : outcome unit) <> Running
  /\ exists l : history,
      history_of (run 8 sdk_ok init_prov []) = [] ++ l
      /\ forallb passed l = true.
Proof.
  assert (Run : run 8 sdk_ok init_prov []
                = (Returned tt, history_of (run 8 sdk_ok init_prov []), 1%nat))
    by reflexivity.
  split; [exact Run|]. split; [discriminate|].
  destruct (init_prov_stops_at_first_failed_check (H := esp_idf) sdk_ok 8 []
              (Returned tt) (history_of (run 8 sdk_ok init_prov [])) 1%nat
              Run ltac:(discriminate))
    as (l & E & R & _).
  exists l. split; [exact E | apply R; reflexivity].
Defined.

(** X14 on an SDK whose [esp_netif_init] fails: [app_main] is aborted
    after two calls. *)
Lemma app_main_aborts_only_at_start_up_witness :
  run 40 sdk_netif_fails app_main []
  = (Aborted 0x103, [answered nvs_flash_init 0; answered esp_netif_init 0x103], 37%nat)
  /\ exists l0 e,
      [answered nvs_flash_init 0; answered esp_netif_init 0x103] = [] ++ l0 ++ [e]
      /\ failed_check 0x103 e
      /\ forallb (fun c => negb (in_heartbeat_loop c) && negb (is_gpio_call c))
                 (calls (l0 ++ [e])) = true.
Proof.
  split; [reflexivity|].
  exact (app_main_aborts_only_at_start_up (H := esp_idf) sdk_netif_fails 40 [] 0x103 _
           37%nat eq_refl).
Defined.

(** * The claims on the start-up and the callbacks *)

(** ** When the start-up returns *)

(** Every entry a run adds to the history is an answer of the SDK. *)
Lemma run_answers (sdk : sdk_t) {R} (fuel : nat) (t : prog R) (h : history) :
  exists l,
    history_of (run fuel sdk t h) = h ++ l
    /\ Forall (fun e => exists h', e = answered (projT1 e) (sdk h' (projT1 e))) l.
Proof.
  revert t h. induction fuel as [|fuel IH]; intros t h; rewrite run_unfold.
  - destruct (observe t); exists []; cbn; now rewrite app_nil_r.
  - destruct (observe t) as [r|t'|X e k'].
    + exists []. cbn. now rewrite app_nil_r.
    + apply IH.
    + destruct e as [c|rc].
      * destruct (IH (k' (sdk h c)) (h ++ [answered c (sdk h c)])) as [l [Hl Fl]].
        exists (answered c (sdk h c) :: l). rewrite Hl, <- app_assoc.
        split; [reflexivity|]. constructor; [|exact Fl]. exists h. reflexivity.
      * exists []. cbn. now rewrite app_nil_r.
Qed.

Section AlwaysOk.

Context `{H : sdk_headers}.

(** Under an SDK that answers ESP_OK to the checked calls every call
    passes. *)
Lemma always_ok_passed (sdk : sdk_t) {R} (fuel : nat) (t : prog R) (h l : history) :
  always_ok sdk -> history_of (run fuel sdk t h) = h ++ l -> forallb passed l = true.
Proof.
  intros A Hl. destruct (run_answers sdk fuel t h) as [l' [Hl' F]].
  rewrite Hl in Hl'. apply app_inv_head in Hl'. subst l'.
  apply forallb_forall. intros e I. rewrite Forall_forall in F.
  destruct (F e I) as [h' E]. unfold passed.
  destruct (is_checked (projT1 e)) eqn:C; [|reflexivity].
  rewrite E. cbn [negb orb]. apply A. exact C.
Qed.

(** The SDK in which every call succeeds is one. *)
Lemma sdk_ok_always_ok : always_ok sdk_ok.
Proof.
  intros h c C. unfold answered_ok.
  destruct c; try discriminate C; cbn; apply Z.eqb_refl.
Qed.

Lemma forallb_tl {A} (f : A -> bool) (l : list A) :
  forallb f l = true -> forallb f (tl l) = true.
Proof. destruct l as [|a l]; [auto|]. cbn. now intros [_ F]%andb_true_iff. Qed.

End AlwaysOk.

Section StartUpClaims.

Context `{H : sdk_headers}.

(** C1, as the code has it.  [event_handler] dispatches on exactly five
    event bases, not four: it reacts to the events of WIFI_PROV_EVENT,
    WIFI_EVENT, IP_EVENT, PROTOCOMM_TRANSPORT_BLE_EVENT and
    PROTOCOMM_SECURITY_SESSION_EVENT and of no other base.  [init_esp]
    registers one callback, [event_handler], and no other: a run of it
    always ends, every registration it makes names [event_handler], it
    returns exactly when every call after the first [nvs_flash_init]
    passed its check, as under an SDK that answers ESP_OK to the checked
    calls, and when it returns it has made five registrations, of
    [event_handler] for these five bases. *)
Theorem event_handler_dispatches_on_five_bases :
  (forall event_base, reacts event_base <-> In event_base handled_bases)
  /\ NoDup handled_bases
  /\ List.length handled_bases = 5%nat
  /\ (forall (sdk : sdk_t) (fuel : nat) (h : history),
      exists o l fuel',
        run (14 + fuel) sdk init_esp h = (o, h ++ l, fuel')
        /\ o <> Running
        /\ forallb registers_event_handler (calls l) = true
        /\ (o = Returned tt <-> forallb passed (tl l) = true)
        /\ (always_ok sdk -> o = Returned tt)
        /\ (o = Returned tt ->
            registrations (calls l) =
            [ (WIFI_PROV_EVENT, ESP_EVENT_ANY_ID, fn_event_handler);
              (PROTOCOMM_TRANSPORT_BLE_EVENT, ESP_EVENT_ANY_ID, fn_event_handler);
              (PROTOCOMM_SECURITY_SESSION_EVENT, ESP_EVENT_ANY_ID, fn_event_handler);
              (WIFI_EVENT, ESP_EVENT_ANY_ID, fn_event_handler);
              (IP_EVENT, IP_EVENT_STA_GOT_IP, fn_event_handler) ]
            /\ registered_bases (calls l) =
               [WIFI_PROV_EVENT; PROTOCOMM_TRANSPORT_BLE_EVENT;
                PROTOCOMM_SECURITY_SESSION_EVENT; WIFI_EVENT; IP_EVENT])).
Proof.
  split; [exact reacts_iff|]. split; [exact event_bases_distinct|].
  split; [reflexivity|].
  intros sdk fuel h.
  destruct (init_esp_run sdk fuel h) as (o & l & f' & erase & R & Ho).
  destruct (init_esp_stops sdk (14 + fuel)%nat h) as [l' [Hl' S]].
  rewrite R in Hl', S. unfold history_of, outcome_of in Hl', S. cbn [fst snd] in Hl', S.
  apply app_inv_head in Hl'. subst l'.
  assert (NR : o <> Running) by (intros ->; exact Ho).
  assert (S' : stopped_at_first_failure o (tl l)).
  { destruct l as [|e0 l']; [contradiction | exact (proj2 S)]. }
  assert (Iff : o = Returned tt <-> forallb passed (tl l) = true).
  { destruct (stopped_returned_iff o (tl l) NR S') as [To From].
    split; [intros X; apply To; eauto | intros P; destruct (From P) as [[] X]; exact X]. }
  exists o, l, f'. split; [exact R|]. split; [exact NR|]. split; [|split; [exact Iff|split]].
  - destruct o as [[]|rc|]; [| |contradiction].
    + rewrite Ho. now destruct erase.
    + destruct Ho as [_ [rest Hr]].
      apply (forallb_prefix _ _ _ _ Hr). now destruct erase.
  - intros A. apply Iff, forallb_tl.
    apply (always_ok_passed sdk (14 + fuel)%nat init_esp h l A).
    now rewrite R.
  - intros ->. rewrite Ho. destruct erase; split; reflexivity.
Qed.

(** C3. On WIFI_PROV_CRED_FAIL of WIFI_PROV_EVENT the handler logs and
    calls [wifi_prov_mgr_reset_sm_state_on_failure]; on WIFI_PROV_END it
    logs and calls [wifi_prov_mgr_deinit].  [init_prov] issues
    [wifi_prov_mgr_start_provisioning] once: a run of it always ends, it
    returns exactly when every checked call it made answered ESP_OK, as
    under an SDK that answers ESP_OK to the checked calls, a run that
    returns has made the call exactly once, no run makes it twice, and a
    run makes it not at all only when an earlier check failed and aborted
    the run.  The callbacks never make it. *)
Theorem provisioning_calls :
  (forall (sdk : sdk_t) (fuel : nat) (arg : Z) (event_data : event_data_t)
          (h : history),
      exists l,
        run (3 + fuel) sdk
            (event_handler arg WIFI_PROV_EVENT WIFI_PROV_CRED_FAIL event_data) h
        = (Returned tt, h ++ l, fuel)
        /\ calls l =
           [ esp_log_write ESP_LOG_ERROR TAG
               "Provisioning failed!
	Reason : %s
	Please reset to factory and retry provisioning"
               [arg_str (if as_fail_reason event_data =? WIFI_PROV_STA_AUTH_ERROR
                         then "Wi-Fi station authentication failed"
                         else "Wi-Fi access-point not found")];
             esp_log_write ESP_LOG_INFO TAG
               "Failed to connect with provisioned AP, reseting provisioned credentials" [];
             wifi_prov_mgr_reset_sm_state_on_failure ])
  /\ (forall (sdk : sdk_t) (fuel : nat) (arg : Z) (event_data : event_data_t)
             (h : history),
      exists l,
        run (2 + fuel) sdk
            (event_handler arg WIFI_PROV_EVENT WIFI_PROV_END event_data) h
        = (Returned tt, h ++ l, fuel)
        /\ calls l =
           [ esp_log_write ESP_LOG_INFO TAG "Provisioning ENDED" [];
             wifi_prov_mgr_deinit ])
  /\ (forall (sdk : sdk_t) (fuel : nat) (h : history),
      exists o l fuel',
        run (8 + fuel) sdk init_prov h = (o, h ++ l, fuel')
        /\ o <> Running
        /\ (count_start_provisioning (calls l) <= 1)%nat
        /\ (o = Returned tt <-> forallb passed l = true)
        /\ (always_ok sdk -> o = Returned tt)
        /\ (o = Returned tt -> count_start_provisioning (calls l) = 1%nat)
        /\ (count_start_provisioning (calls l) = 0%nat ->
            exists rc l0 e,
              o = Aborted rc /\ l = l0 ++ [e] /\ failed_check rc e))
  /\ (forall (arg : Z) (event_base : esp_event_base_t) (event_id : Z)
             (event_data : event_data_t),
      emits (fun c => negb (is_start_provisioning c))
            (event_handler arg event_base event_id event_data))
  /\ (forall (session_id : Z) (inbuf : uint8_ptr) (inlen : Z)
             (outbuf0 : uint8_ptr) (outlen0 priv_data : Z),
      emits (fun c => negb (is_start_provisioning c))
            (custom_prov_data_handler session_id inbuf inlen outbuf0 outlen0 priv_data)).
Proof.
  split; [exact event_handler_cred_fail|].
  split; [exact event_handler_end|].
  split; [|split].
  - intros sdk fuel h.
    destruct (init_prov_run sdk fuel h) as (o & l & f' & mac & R & Ho).
    destruct (init_prov_stops sdk (8 + fuel)%nat h) as [l' [Hl' S]].
    rewrite R in Hl', S. unfold history_of, outcome_of in Hl', S. cbn [fst snd] in Hl', S.
    apply app_inv_head in Hl'. subst l'.
    assert (NR : o <> Running) by (intros ->; exact Ho).
    assert (Iff : o = Returned tt <-> forallb passed l = true).
    { destruct (stopped_returned_iff o l NR S) as [To From].
      split; [intros X; apply To; eauto | intros P; destruct (From P) as [[] X]; exact X]. }
    exists o, l, f'. split; [exact R|]. split; [exact NR|].
    split; [|split; [exact Iff|split; [|split]]].
    + destruct o as [[]|rc|]; [| |contradiction].
      * rewrite Ho. cbn. lia.
      * destruct Ho as [_ [rest Hr]].
        apply (count_start_provisioning_prefix _ _ _ Hr).
    + intros A. apply Iff.
      apply (always_ok_passed sdk (8 + fuel)%nat init_prov h l A). now rewrite R.
    + intros ->. rewrite Ho. reflexivity.
    + intros C0. destruct o as [[]|rc|]; [| |contradiction].
      * rewrite Ho in C0. discriminate C0.
      * destruct S as (l0 & e & -> & F & _). exists rc, l0, e. auto.
  - intros. eapply emits_weaken; [|apply event_handler_emits].
    now intros [].
  - intros. eapply emits_weaken; [|apply custom_prov_data_handler_emits].
    now intros [].
Qed.

End StartUpClaims.

(** ** [app_main] gets to the loop *)

Section AppMainRuns.

Context `{H : sdk_headers}.

(** An abort of [app_main] is the failure of a check of the start-up. *)
Lemma app_main_abort_is_failed_check (sdk : sdk_t) (fuel : nat) (rc : esp_err_t) :
  outcome_of (run fuel sdk app_main []) = Aborted rc ->
  exists l0 e,
    history_of (run fuel sdk app_main []) = l0 ++ [e]
    /\ failed_check rc e
    /\ forallb (fun c => negb (in_heartbeat_loop c) && negb (is_gpio_call c))
               (calls (l0 ++ [e])) = true.
Proof.
  destruct (run fuel sdk app_main []) as [[o h'] fuel'] eqn:R.
  unfold outcome_of, history_of. cbn [fst snd]. intros ->.
  unfold app_main in R. cbv zeta in R. rewrite run_bind in R.
  destruct (init_esp_emits_start_up sdk fuel []) as [l1 [Hl1 Q1]].
  destruct (init_esp_stops sdk fuel []) as [l1' [Hl1' S1]].
  rewrite Hl1 in Hl1'. apply app_inv_head in Hl1'. subst l1'.
  destruct (run fuel sdk init_esp []) as [[[[]|rc1|] h1] f1];
    unfold history_of, outcome_of in Hl1, S1; cbn [fst snd app] in Hl1, S1; subst h1.
  - rewrite and_then_Returned, run_bind in R.
    destruct (init_prov_emits_start_up sdk f1 l1) as [l2 [Hl2 Q2]].
    destruct (init_prov_stops sdk f1 l1) as [l2' [Hl2' S2]].
    rewrite Hl2 in Hl2'. apply app_inv_head in Hl2'. subst l2'.
    destruct (run f1 sdk init_prov l1) as [[[[]|rc2|] h2] f2];
      unfold history_of, outcome_of in Hl2, S2; cbn [fst snd] in Hl2, S2; subst h2.
    + rewrite and_then_Returned in R.
      exfalso. apply (stops_no_abort _ heartbeat_stops heartbeat_emits_unchecked
                        sdk f2 (l1 ++ l2) rc).
      unfold outcome_of. now rewrite R.
    + rewrite and_then_Aborted in R. injection R as <- <- _.
      destruct S2 as (l0 & e & -> & F & _).
      exists (l1 ++ l0), e. rewrite <- app_assoc. split; [reflexivity|].
      split; [exact F|]. rewrite calls_app, forallb_app, Q1, Q2. reflexivity.
    + rewrite and_then_Running in R. discriminate.
  - rewrite and_then_Aborted in R. injection R as <- <- _.
    destruct l1 as [|e0 l1']; [discriminate|]. destruct S1 as [_ (l0 & e & -> & F & _)].
    exists (e0 :: l0), e. split; [reflexivity|]. split; [exact F | exact Q1].
  - rewrite and_then_Running in R. discriminate.
Qed.

(** Under an SDK that answers ESP_OK to the checked calls [app_main] is
    not aborted. *)
Lemma app_main_always_ok (sdk : sdk_t) (fuel : nat) (rc : esp_err_t) :
  always_ok sdk -> outcome_of (run fuel sdk app_main []) <> Aborted rc.
Proof.
  intros A X. destruct (app_main_abort_is_failed_check sdk fuel rc X) as (l0 & e & Hh & F & _).
  pose proof (always_ok_passed sdk fuel app_main [] (l0 ++ [e]) A Hh) as P.
  rewrite forallb_app in P. apply andb_true_iff in P as [_ P]. cbn [forallb] in P.
  rewrite (failed_not_passed _ _ F) in P. discriminate P.
Qed.

(** C5. [app_main] first runs [init_esp], which registers the event
    handler, and [init_prov], which starts the provisioning, and only then
    enters the heartbeat loop: every call of the loop comes after all the
    calls of both.  It never returns: its tree has no leaf and no run of it
    returns.  A run is aborted only by a failed check of the start-up: the
    last call is then a checked call that answered an error, the abort
    carries its error code, and no call of the loop or to the GPIO has been
    made.  Otherwise the loop is entered and goes on for ever: under an SDK
    that answers ESP_OK to the checked calls the run reaches any number of
    heartbeats, with five writes to the LED each, and under any SDK it does
    so unless a check of the start-up aborts it. *)
Theorem app_main_starts_then_loops_forever :
  (forall r : unit, ~ Leaf r app_main)
  /\ (forall (sdk : sdk_t) (fuel : nat),
      outcome_of (run fuel sdk app_main []) <> Returned tt)
  /\ (forall (sdk : sdk_t) (fuel : nat),
      loop_after_init (history_of (run fuel sdk app_main [])))
  /\ (forall (sdk : sdk_t) (fuel : nat) (rc : esp_err_t),
      outcome_of (run fuel sdk app_main []) = Aborted rc ->
      exists l0 e,
        history_of (run fuel sdk app_main []) = l0 ++ [e]
        /\ failed_check rc e
        /\ forallb (fun c => negb (in_heartbeat_loop c) && negb (is_gpio_call c))
                   (calls (l0 ++ [e])) = true)
  /\ (forall (sdk : sdk_t) (n : nat),
      always_ok sdk ->
      exists fuel,
        (n <= count_heartbeats (calls (history_of (run fuel sdk app_main [])))
         /\ 5 * n <= List.length
                       (gpio_writes (calls (history_of (run fuel sdk app_main [])))))%nat)
  /\ (forall (sdk : sdk_t) (n : nat),
      exists fuel,
        (exists rc l0 e,
            outcome_of (run fuel sdk app_main []) = Aborted rc
            /\ history_of (run fuel sdk app_main []) = l0 ++ [e]
            /\ failed_check rc e)
        \/ (n <= count_heartbeats (calls (history_of (run fuel sdk app_main []))))%nat).
Proof.
  split; [exact app_main_no_leaf|]. split; [|split; [|split; [|split]]].
  - intros sdk fuel R.
    destruct (run fuel sdk app_main []) as [[o h'] f'] eqn:E.
    unfold outcome_of in R. cbn in R. subst o.
    exact (app_main_no_leaf tt (run_returned_Leaf sdk _ _ _ _ _ _ E)).
  - intros sdk. apply (maintains_history sdk _ _ _ _ (app_main_loop_after_init sdk)).
  - exact app_main_abort_is_failed_check.
  - intros sdk n A. destruct (app_main_progress sdk n) as [fuel [[rc [X _]]|B]].
    + exfalso. exact (app_main_always_ok sdk fuel rc A X).
    + exists fuel. exact B.
  - intros sdk n. destruct (app_main_progress sdk n) as [fuel [[rc [X _]]|[B _]]];
      exists fuel; [left | right; exact B].
    destruct (app_main_abort_is_failed_check sdk fuel rc X) as (l0 & e & Hh & F & _).
    exists rc, l0, e. auto.
Qed.

End AppMainRuns.

(** ** The NVS part of init_esp *)

Section NvsClaims.

Context `{H : sdk_headers}.


End NvsClaims.



(** ** The calls of the callbacks, event by event *)

(** Decide the comparisons of header constants and event ids in the
    goal from what is known of them. *)
Ltac decide_eqb :=
  repeat match goal with
         | |- context [?a =? ?b] =>
             first [ rewrite (Z.eqb_refl a)
                   | rewrite (proj2 (Z.eqb_neq a b)) by congruence
                   | rewrite (proj2 (Z.eqb_eq a b)) by congruence ]
         end.

Section CallbackCalls.

Context `{H : sdk_headers}.

(** What the handler calls besides logging, for every event. *)
Lemma event_handler_sdk_calls (sdk : sdk_t) (fuel : nat) (arg : Z)
      (event_base : esp_event_base_t) (event_id : Z) (event_data : event_data_t)
      (h : history) :
  exists o l fuel',
    run (5 + fuel) sdk (event_handler arg event_base event_id event_data) h
    = (o, h ++ l, fuel')
    /\ o <> Running
    /\ sdk_calls (calls l) =
       calls_on_event event_base event_id
         (sdk (h ++ [answered (esp_log_write ESP_LOG_INFO TAG "WiFi Started in STA mode" [])
                       tt])
              wifi_prov_mgr_is_provisioned).
Proof.
  pose proof event_bases_distinct. pose proof wifi_prov_labels_distinct.
  pose proof wifi_event_labels_distinct. pose proof ble_labels_distinct.
  pose proof session_labels_distinct.
  split_NoDup. split_not_or.
  remember (run _ _ _ _) as res eqn:E.
  unfold event_handler, switch, ESP_LOGI, ESP_LOGE, ESP_ERROR_CHECK,
    ESP_ERROR_CHECK_WITHOUT_ABORT, skip in E. cbn [Nat.add] in E.
  run_cases_in E; try (exfalso; congruence).
  all: rewrite <- ?app_assoc in E; cbn [app] in E.
  all: first [ (eexists; eexists; eexists; split; [exact E|])
             | (eexists; exists []; eexists; split; [rewrite app_nil_r; exact E|]) ].
  all: split; [discriminate|].
  all: try subst event_base.
  all: try subst event_id.
  all: repeat match goal with u : unit |- _ => destruct u end.
  all: repeat match goal with
              | Hq : (_, _) = _ |- _ => rewrite <- Hq; clear Hq
              end.
  all: unfold calls_on_event; cbn [fst snd]; decide_eqb; cbn [andb]; cbv iota.
  all: reflexivity.
Qed.

(** The endpoint handler calls nothing but [malloc], once, besides
    logging. *)
Lemma custom_prov_data_handler_sdk_calls (sdk : sdk_t) (fuel : nat) (session_id : Z)
      (inbuf : uint8_ptr) (inlen : Z) (outbuf0 : uint8_ptr) (outlen0 priv_data : Z)
      (h : history) :
  exists r l fuel',
    run (3 + fuel) sdk
        (custom_prov_data_handler session_id inbuf inlen outbuf0 outlen0 priv_data) h
    = (Returned r, h ++ l, fuel')
    /\ sdk_calls (calls l) = [malloc 8].
Proof.
  remember (run _ _ _ _) as res eqn:E.
  unfold custom_prov_data_handler, strdup, ESP_LOGI, ESP_LOGE, skip in E.
  cbn [Nat.add] in E.
  destruct inbuf as [b|]; repeat run_step_in E.
  - destruct (r0 =? NULL) eqn:Ez; repeat run_step_in E;
      rewrite <- !app_assoc in E;
      eexists; eexists; eexists; (split; [exact E | reflexivity]).
  - destruct (r =? NULL) eqn:Ez; repeat run_step_in E;
      rewrite <- ?app_assoc in E;
      eexists; eexists; eexists; (split; [exact E | reflexivity]).
Qed.

End CallbackCalls.

(** ** The calls of [app_main], in order *)

Lemma maintains_intro (sdk : sdk_t) {R} (P : history -> Prop) (t : prog R) (h : history)
      (Post : R -> history -> Prop) :
  (forall fuel, P (history_of (run fuel sdk t h))) ->
  (forall fuel r h' fuel', run fuel sdk t h = (Returned r, h', fuel') -> Post r h') ->
  maintains sdk P t h Post.
Proof.
  intros HP HPost fuel. specialize (HP fuel). specialize (HPost fuel).
  destruct (run fuel sdk t h) as [[[r|rc|] h'] f']; cbn in HP; try exact HP.
  split; [exact HP | eapply HPost; reflexivity].
Qed.

Section AppMainCalls.

Context `{H : sdk_headers}.

(** However long [init_esp] has run, its calls are the first of its
    sequence. *)
Lemma init_esp_calls_prefix (sdk : sdk_t) (fuel : nat) (h : history) :
  exists l erase rest,
    history_of (run fuel sdk init_esp h) = h ++ l
    /\ init_esp_calls erase = calls l ++ rest.
Proof.
  destruct (init_esp_run sdk fuel h) as (o & l14 & f' & erase & R & Ho).
  destruct (run_prefix sdk fuel 14 init_esp h) as [l' Hp].
  destruct (run_history_grows sdk fuel init_esp h) as [l Hl].
  rewrite Nat.add_comm, R, Hl in Hp. unfold history_of in Hp. cbn [fst snd] in Hp.
  rewrite <- app_assoc in Hp. apply app_inv_head in Hp. subst l14.
  exists l, erase. rewrite calls_app in Ho.
  destruct o as [[]|rc|]; [| |contradiction].
  - exists (calls l'). split; [exact Hl | now rewrite Ho].
  - destruct Ho as [_ [rest Hr]]. exists (calls l' ++ rest).
    split; [exact Hl | now rewrite Hr, app_assoc].
Qed.

(** A run of [init_prov] with enough fuel, with the MAC address it was
    given. *)
Lemma init_prov_run_mac (sdk : sdk_t) (fuel : nat) (h : history) :
  exists o l fuel',
    run (8 + fuel) sdk init_prov h = (o, h ++ l, fuel')
    /\ (o = Returned tt ->
        exists rc mac,
          calls l = init_prov_calls (list_byte_of_string (service_name_of mac) ++ [x00])
          /\ In (answered (esp_wifi_get_mac WIFI_IF_STA) (rc, mac)) l).
Proof.
  remember (run _ _ _ _) as res eqn:E.
  unfold init_prov, ESP_ERROR_CHECK, skip in E. cbn [Nat.add] in E.
  repeat run_step_in E.
  destruct (Z.eqb_spec r ESP_OK).
  2:{ repeat run_step_in E.
      eexists; eexists; eexists. split; [exact E | discriminate]. }
  repeat run_step_in E.
  rewrite get_device_service_name_run, and_then_Returned in E. cbv beta in E.
  remember (sdk _ (esp_wifi_get_mac _)) as m eqn:Em. destruct m as [rcm mac].
  cbn [snd] in E.
  rewrite snprintf_fits in E by (rewrite service_name_of_length; lia).
  repeat (repeat run_step_in E;
          match type of E with
          | context [if ?r =? ESP_OK then _ else _] =>
              destruct (Z.eqb_spec r ESP_OK)
          end);
    repeat run_step_in E;
    rewrite <- ?app_assoc in E; cbn [app] in E;
    (eexists; eexists; eexists; split; [exact E|]);
    try discriminate.
  intros _. exists rcm, mac. split; [reflexivity | in_list].
Qed.

Lemma init_prov_calls_prefix (sdk : sdk_t) (fuel : nat) (h : history) :
  exists l service_name rest,
    history_of (run fuel sdk init_prov h) = h ++ l
    /\ init_prov_calls service_name = calls l ++ rest.
Proof.
  destruct (init_prov_run sdk fuel h) as (o & l8 & f' & mac & R & Ho).
  destruct (run_prefix sdk fuel 8 init_prov h) as [l' Hp].
  destruct (run_history_grows sdk fuel init_prov h) as [l Hl].
  rewrite Nat.add_comm, R, Hl in Hp. unfold history_of in Hp. cbn [fst snd] in Hp.
  rewrite <- app_assoc in Hp. apply app_inv_head in Hp. subst l8.
  exists l. eexists. rewrite calls_app in Ho.
  destruct o as [[]|rc|]; [| |contradiction].
  - exists (calls l'). split; [exact Hl | now rewrite Ho].
  - destruct Ho as [_ [rest Hr]]. exists (calls l' ++ rest).
    split; [exact Hl | now rewrite Hr, app_assoc].
Qed.

Lemma init_prov_returned_mac (sdk : sdk_t) (fuel : nat) (h h' : history) (fuel' : nat) :
  run fuel sdk init_prov h = (Returned tt, h', fuel') ->
  exists l rc mac,
    h' = h ++ l
    /\ calls l = init_prov_calls (list_byte_of_string (service_name_of mac) ++ [x00])
    /\ In (answered (esp_wifi_get_mac WIFI_IF_STA) (rc, mac)) l.
Proof.
  intros R. apply (run_more_fuel sdk) with (k := 8%nat) in R; [|discriminate].
  destruct (init_prov_run_mac sdk fuel h) as (o & l & f' & R' & Ho).
  rewrite Nat.add_comm, R' in R. injection R as -> <- _.
  destruct (Ho eq_refl) as (rc & mac & C & I). exists l, rc, mac. auto.
Qed.

Lemma heartbeat_body_emits_heartbeat (led : Z) :
  emits heartbeat_call (heartbeat_body 5 1000 (5000 ÷ 1000) led).
Proof.
  assert (Call : forall c, heartbeat_call c = true -> emits heartbeat_call (do_call c))
    by (intros c Qc; exact (emits_call heartbeat_call c Qc)).
  unfold heartbeat_body, blink_body, ESP_LOGI.
  apply emits_bind; [refine (Call _ _); reflexivity|]. intros ?.
  apply emits_bind; [|intros ?; apply emits_Ret].
  apply emits_while. intros [i led'].
  apply emits_bind; [refine (Call _ _); reflexivity|]. intros ?.
  apply emits_bind; [|intros ?; apply emits_Ret].
  refine (Call _ _). cbn. apply Z.eqb_refl.
Qed.

Lemma app_main_start_up_then_heartbeat (sdk : sdk_t) :
  maintains sdk start_up_then_heartbeat app_main [] (fun _ _ => False).
Proof.
  unfold app_main. cbv zeta.
  eapply maintains_bind
    with (Mid := fun _ h' => exists erase, calls h' = init_esp_calls erase).
  { apply maintains_intro.
    - intros fuel. destruct (init_esp_calls_prefix sdk fuel []) as (l & erase & rest & Hl & P).
      rewrite Hl. cbn [app]. left. exists erase, [], (rest ++ init_prov_calls []
        ++ [gpio_reset_pin 5; gpio_set_direction 5 GPIO_MODE_OUTPUT]).
      unfold startup_calls. now rewrite P, <- app_assoc.
    - intros fuel [] h' f' R. apply init_esp_returned in R as (l & erase & -> & E).
      now exists erase. }
  intros ? h1 [erase E1].
  eapply maintains_bind
    with (Mid := fun _ h' =>
                   exists rc mac,
                     calls h' = init_esp_calls erase
                                  ++ init_prov_calls
                                       (list_byte_of_string (service_name_of mac) ++ [x00])
                     /\ In (answered (esp_wifi_get_mac WIFI_IF_STA) (rc, mac)) h').
  { apply maintains_intro.
    - intros fuel.
      destruct (init_prov_calls_prefix sdk fuel h1) as (l & name & rest & Hl & P).
      rewrite Hl. left. exists erase, name,
        (rest ++ [gpio_reset_pin 5; gpio_set_direction 5 GPIO_MODE_OUTPUT]).
      unfold startup_calls. rewrite calls_app, E1, P, <- !app_assoc. reflexivity.
    - intros fuel [] h' f' R.
      apply init_prov_returned_mac in R as (l & rc & mac & -> & E & I).
      exists rc, mac. rewrite calls_app, E1, E. split; [reflexivity|].
      apply in_or_app. now right. }
  intros ? h2 (rc & mac & E2 & I2).
  set (name := list_byte_of_string (service_name_of mac) ++ [x00]) in *.
  eapply maintains_bind
    with (Mid := fun _ h' =>
                   calls h' = init_esp_calls erase ++ init_prov_calls name
                                ++ [gpio_reset_pin 5]
                   /\ In (answered (esp_wifi_get_mac WIFI_IF_STA) (rc, mac)) h').
  { maintains_call_step.
    - left. exists erase, name, [gpio_reset_pin 5; gpio_set_direction 5 GPIO_MODE_OUTPUT].
      unfold startup_calls. now rewrite E2, <- app_assoc.
    - left. exists erase, name, [gpio_set_direction 5 GPIO_MODE_OUTPUT].
      unfold startup_calls. rewrite calls_snoc, E2, <- !app_assoc. reflexivity.
    - cbv beta. rewrite calls_snoc, E2, <- app_assoc. split; [reflexivity|].
      apply in_or_app. now left. }
  intros ? h3 [E3 I3].
  eapply maintains_bind
    with (Mid := fun _ h' =>
                   calls h' = startup_calls erase name
                   /\ In (answered (esp_wifi_get_mac WIFI_IF_STA) (rc, mac)) h').
  { maintains_call_step.
    - left. exists erase, name, [gpio_set_direction 5 GPIO_MODE_OUTPUT].
      unfold startup_calls. rewrite E3, <- !app_assoc. reflexivity.
    - left. exists erase, name, [].
      unfold startup_calls. rewrite calls_snoc, E3, <- !app_assoc, app_nil_r. reflexivity.
    - cbv beta. rewrite calls_snoc, E3. unfold startup_calls.
      rewrite <- !app_assoc. split; [reflexivity|]. apply in_or_app. now left. }
  intros ? h4 [E4 I4].
  eapply maintains_bind.
  - apply maintains_while
      with (Inv := fun (_ : Z) h' =>
                     exists loop,
                       calls h' = startup_calls erase name ++ loop
                       /\ In (answered (esp_wifi_get_mac WIFI_IF_STA) (rc, mac)) h'
                       /\ forallb heartbeat_call loop = true).
    + intros s h' (loop & E & I & Q). right. exists erase, rc, mac, loop. auto.
    + intros led h' (loop & E & I & Q) _.
      assert (G : forall l, forallb heartbeat_call (calls l) = true ->
                  exists loop',
                    calls (h' ++ l) = startup_calls erase name ++ loop'
                    /\ In (answered (esp_wifi_get_mac WIFI_IF_STA) (rc, mac)) (h' ++ l)
                    /\ forallb heartbeat_call loop' = true).
      { intros l Ql. exists (loop ++ calls l).
        rewrite calls_app, E, <- app_assoc, forallb_app, Q, Ql.
        split; [reflexivity|]. split; [|reflexivity]. apply in_or_app. now left. }
      eapply maintains_weaken.
      * apply (maintains_of_emits sdk _ _ _ h' (heartbeat_body_emits_heartbeat led)).
        intros l Ql. destruct (G l Ql) as (loop' & E' & I' & Q').
        right. exists erase, rc, mac, loop'. auto.
      * cbv beta. intros ? h'' (l & -> & Ql). exact (G l Ql).
    + exists []. rewrite app_nil_r. auto.
  - cbv beta. intros s h' [_ C]. discriminate C.
Qed.

End AppMainCalls.

Lemma count_heartbeats_none (l : list call) :
  forallb (fun c => negb (in_heartbeat_loop c)) l = true -> count_heartbeats l = 0%nat.
Proof.
  induction l as [|c l IH]; [reflexivity|]. cbn [forallb].
  intros [Nc Nl]%andb_true_iff. change (c :: l) with ([c] ++ l).
  rewrite count_heartbeats_app, (IH Nl). destruct c; try discriminate Nc; reflexivity.
Qed.

Section CallbackClaims.

Context `{H : sdk_headers}.

(** Under an SDK that answers ESP_OK to the checked calls [app_main]
    makes the whole start-up and goes on to the loop. *)
Lemma app_main_reaches_the_loop (sdk : sdk_t) :
  always_ok sdk ->
  exists fuel erase rc mac loop,
    calls (history_of (run fuel sdk app_main []))
    = startup_calls erase (list_byte_of_string (service_name_of mac) ++ [x00]) ++ loop
    /\ In (answered (esp_wifi_get_mac WIFI_IF_STA) (rc, mac))
          (history_of (run fuel sdk app_main []))
    /\ forallb heartbeat_call loop = true
    /\ (1 <= count_heartbeats loop)%nat.
Proof.
  intros A. destruct (app_main_progress sdk 1) as [fuel [[rc [X _]]|[B _]]].
  { exfalso. exact (app_main_always_ok sdk fuel rc A X). }
  exists fuel.
  pose proof (maintains_history sdk _ _ _ _ (app_main_start_up_then_heartbeat sdk) fuel) as P.
  destruct P as [(erase & name & rest & P)|(erase & rc & mac & loop & P & I & Q)].
  - exfalso. pose proof (startup_calls_no_loop erase name) as N.
    rewrite P in N. apply forallb_prefix_app in N.
    rewrite (count_heartbeats_none _ N) in B. lia.
  - exists erase, rc, mac, loop. split; [exact P|]. split; [exact I|]. split; [exact Q|].
    rewrite P, count_heartbeats_app,
      (count_heartbeats_none _ (startup_calls_no_loop erase _)) in B.
    exact B.
Qed.

(** C2, as the code has it.  Besides logging, [event_handler] calls the
    SDK on four events and on no other:
    [wifi_prov_mgr_reset_sm_state_on_failure] on WIFI_PROV_CRED_FAIL,
    [wifi_prov_mgr_reset_sm_state_for_reprovision] on
    WIFI_PROV_CRED_SUCCESS, [wifi_prov_mgr_deinit] on WIFI_PROV_END, and on
    WIFI_EVENT_STA_START [wifi_prov_mgr_is_provisioned], followed by
    [esp_wifi_connect] exactly when the answer is ESP_OK and provisioned.
    These calls are the same whatever is behind [event_data].  The
    endpoint handler calls [malloc], once, and nothing else besides
    logging.  The calls of [app_main] are those of its start-up, in their
    order: the calls of [init_esp], the calls of [init_prov] and the two
    calls that set up GPIO 5, cut short where a check fails; after the
    whole start-up come only calls of the heartbeat loop, its log line,
    levels written to GPIO 5 and delays of one blink.  The service name
    passed to [wifi_prov_mgr_start_provisioning] is made from the MAC
    address that [esp_wifi_get_mac] answered: this data of the SDK does
    flow into a later call.  Under an SDK that answers ESP_OK to the
    checked calls the whole start-up is made and the loop is reached. *)
Theorem callbacks_sdk_calls :
  (forall (sdk : sdk_t) (fuel : nat) (arg : Z) (event_base : esp_event_base_t)
          (event_id : Z) (event_data : event_data_t) (h : history),
      exists o l fuel',
        run (5 + fuel) sdk (event_handler arg event_base event_id event_data) h
        = (o, h ++ l, fuel')
        /\ o <> Running
        /\ sdk_calls (calls l) =
           calls_on_event event_base event_id
             (sdk (h ++ [answered (esp_log_write ESP_LOG_INFO TAG
                                     "WiFi Started in STA mode" []) tt])
                  wifi_prov_mgr_is_provisioned))
  /\ (forall (sdk : sdk_t) (fuel : nat) (session_id : Z) (inbuf : uint8_ptr) (inlen : Z)
             (outbuf0 : uint8_ptr) (outlen0 priv_data : Z) (h : history),
      exists r l fuel',
        run (3 + fuel) sdk
            (custom_prov_data_handler session_id inbuf inlen outbuf0 outlen0 priv_data) h
        = (Returned r, h ++ l, fuel')
        /\ sdk_calls (calls l) = [malloc 8])
  /\ (forall (sdk : sdk_t) (fuel : nat),
      start_up_then_heartbeat (history_of (run fuel sdk app_main [])))
  /\ (forall sdk : sdk_t,
      always_ok sdk ->
      exists fuel erase rc mac loop,
        calls (history_of (run fuel sdk app_main []))
        = startup_calls erase (list_byte_of_string (service_name_of mac) ++ [x00]) ++ loop
        /\ In (answered (esp_wifi_get_mac WIFI_IF_STA) (rc, mac))
              (history_of (run fuel sdk app_main []))
        /\ forallb heartbeat_call loop = true
        /\ (1 <= count_heartbeats loop)%nat)
  /\ (forall (sdk : sdk_t) (fuel : nat) (arg : Z) (event_data : event_data_t)
             (h : history),
      exists l,
        run (2 + fuel) sdk
            (event_handler arg WIFI_PROV_EVENT WIFI_PROV_CRED_SUCCESS event_data) h
        = (Returned tt, h ++ l, fuel)
        /\ calls l =
           [ esp_log_write ESP_LOG_INFO TAG "Provisioning successful" [];
             wifi_prov_mgr_reset_sm_state_for_reprovision ])
  /\ (forall (sdk : sdk_t) (fuel : nat) (arg : Z) (event_data : event_data_t)
             (h : history),
      exists o l fuel',
        run (6 + fuel) sdk
            (event_handler arg WIFI_EVENT WIFI_EVENT_STA_START event_data) h
        = (o, h ++ l, fuel')
        /\ exists rc provisioned,
            firstn 2 l =
            [ answered (esp_log_write ESP_LOG_INFO TAG "WiFi Started in STA mode" []) tt;
              answered wifi_prov_mgr_is_provisioned (rc, provisioned) ]
            /\ (rc <> ESP_OK -> o = Aborted rc /\ calls (skipn 2 l) = [])
            /\ (rc = ESP_OK -> provisioned = false ->
                o = Returned tt /\ calls (skipn 2 l) = [])
            /\ (rc = ESP_OK -> provisioned = true ->
                o = Returned tt
                /\ firstn 2 (calls (skipn 2 l)) =
                   [ esp_log_write ESP_LOG_INFO TAG
                       "WiFi credentials are present, so attempt to connect" [];
                     esp_wifi_connect ])).
Proof.
  split; [exact event_handler_sdk_calls|].
  split; [exact custom_prov_data_handler_sdk_calls|].
  split; [|split; [exact app_main_reaches_the_loop|]].
  - intros sdk. apply (maintains_history sdk _ _ _ _ (app_main_start_up_then_heartbeat sdk)).
  - split; [exact event_handler_cred_success | exact event_handler_sta_start].
Qed.

End CallbackClaims.

(** C2 as the specification states it fails.  Its list of calls is not
    complete: on WIFI_PROV_CRED_SUCCESS the handler makes a call that is
    none of the three.  And there is another flow of data: the service name
    that [init_prov] passes to the provisioning manager changes with the
    MAC address the SDK answers. *)
Lemma spec_misses_calls_and_a_data_flow :
  ~ (forall (arg : Z) (event_base : esp_event_base_t) (event_id : Z)
            (event_data : event_data_t),
        emits (fun c => is_log c || named_in_spec c)
              (event_handler (H := esp_idf) arg event_base event_id event_data))
  /\ ~ (forall mac1 mac2 : mac_addr,
           calls (history_of (run 8 (sdk_with_mac mac1) (init_prov (H := esp_idf)) []))
           = calls (history_of (run 8 (sdk_with_mac mac2) (init_prov (H := esp_idf)) []))).
Proof.
  split; [exact event_handler_calls_beyond_spec|].
  intros E.
  specialize (E {| mac0 := x24; mac1 := x0a; mac2 := xc4; mac3 := x0a; mac4 := xff; mac5 := x3c |}
                {| mac0 := x24; mac1 := x0a; mac2 := xc4; mac3 := x0a; mac4 := xff; mac5 := x3d |}).
  vm_compute in E. discriminate E.
Qed.

(** The two formats with line breaks have the lengths of the C
    literals. *)
Example format_lengths :
  String.length "Received Wi-Fi credentials
	SSID     : %s
	Password : %s" = 56%nat
  /\ String.length "Provisioning failed!
	Reason : %s
	Please reset to factory and retry provisioning" = 81%nat.
Proof. split; reflexivity. Qed.

(** The start-up on the SDK in which every call succeeds: [init_esp]
    returns after its five registrations and [init_prov] after starting
    the provisioning once. *)
Example start_up_example :
  outcome_of (run 14 sdk_ok init_esp []) = Returned tt
  /\ List.length (registrations (calls (history_of (run 14 sdk_ok init_esp [])))) = 5%nat
  /\ outcome_of (run 8 sdk_ok init_prov []) = Returned tt
  /\ count_start_provisioning (calls (history_of (run 8 sdk_ok init_prov []))) = 1%nat.
Proof. repeat split. Qed.
